(** * Metanoia EBM: frame codecs, OID codec, engines and firmware decoder

    A shallow embedding of the Go sources of the Metanoia Ethernet Boot
    Management client (packages [ebm], [bootloader], [srec] and the
    [fwutil] command), with the properties of its specification stated
    and settled against the embedded code.

    Conventions.
    - Go's fixed-width unsigned integers are values of [Z]; every place
      where the source truncates or wraps is written out with [mod].
    - A byte is a [Byte.byte]; a [[]byte] is a [slice], which carries the
      visible elements and the spare capacity of its backing array,
      because Go checks the upper bound of a slice expression against
      the capacity, not the length.
    - A Go function returning [(T, error)] is a function into [result T];
      the third constructor records a run-time panic.
    - [int] is taken to be 64 bits wide, as on the platforms the tools
      are built for; no [int] computation of the program overflows it. *)

From Stdlib Require Import String Ascii Strings.Byte ZArith List Lia Bool.
Import ListNotations.
Open Scope Z_scope.

(* ===================================================================== *)
(** ** Bytes and big-endian words *)
(* ===================================================================== *)

Definition byte_to_Z (b : byte) : Z := Z.of_N (Byte.to_N b).

(** Conversion to [uint8]: the low eight bits. *)
Definition byte_of_Z (z : Z) : byte :=
  match Byte.of_N (Z.to_N (z mod 256)) with
  | Some b => b
  | None => x00
  end.

(** [binary.BigEndian.PutUint16] / [binary.Write] of a [uint16]. *)
Definition put_u16 (v : Z) : list byte :=
  [byte_of_Z (Z.shiftr v 8); byte_of_Z v].

(** [binary.BigEndian.PutUint32] / [binary.Write] of a [uint32]. *)
Definition put_u32 (v : Z) : list byte :=
  [byte_of_Z (Z.shiftr v 24); byte_of_Z (Z.shiftr v 16);
   byte_of_Z (Z.shiftr v 8); byte_of_Z v].

(** The value of a big-endian byte string. *)
Fixpoint be_value (acc : Z) (bs : list byte) : Z :=
  match bs with
  | [] => acc
  | b :: bs' => be_value (acc * 256 + byte_to_Z b) bs'
  end.

(* ===================================================================== *)
(** ** Results of fallible Go code *)
(* ===================================================================== *)

Inductive panic : Type :=
| IndexOutOfRange
| SliceBoundsOutOfRange
| NilDereference
| TypeAssertion
| Explicit (msg : string).

Inductive result (A : Type) : Type :=
| Ok (a : A)
| Err (e : string)
| Panic (p : panic).

Arguments Ok {A} a.
Arguments Err {A} e.
Arguments Panic {A} p.

Definition bind {A B : Type} (r : result A) (k : A -> result B) : result B :=
  match r with
  | Ok a => k a
  | Err e => Err e
  | Panic p => Panic p
  end.

Declare Scope go_scope.
Delimit Scope go_scope with go.
Notation "x <- e ;; k" := (bind e (fun x => k))
  (at level 61, e at next level, right associativity) : go_scope.
Open Scope go_scope.

(* ===================================================================== *)
(** ** Go byte slices *)
(* ===================================================================== *)

(** [elems] are the [len] visible bytes, [spare] the bytes of the backing
    array between [len] and [cap]. *)
Record slice : Type := mkSlice { elems : list byte; spare : list byte }.

Definition len (s : slice) : Z := Z.of_nat (length (elems s)).
Definition cap (s : slice) : Z :=
  Z.of_nat (length (elems s)) + Z.of_nat (length (spare s)).
Definition backing (s : slice) : list byte := elems s ++ spare s.

(** A slice whose capacity equals its length, e.g. a byte-string literal. *)
Definition exact (bs : list byte) : slice := mkSlice bs [].

(** [s[i]]: checked against the length. *)
Definition at_ (s : slice) (i : Z) : result byte :=
  if (0 <=? i) && (i <? len s) then
    match nth_error (elems s) (Z.to_nat i) with
    | Some b => Ok b
    | None => Panic IndexOutOfRange
    end
  else Panic IndexOutOfRange.

(** [s[lo:hi]]: [0 <= lo <= hi <= cap(s)], otherwise a run-time panic. *)
Definition sub (s : slice) (lo hi : Z) : result slice :=
  if (0 <=? lo) && (lo <=? hi) && (hi <=? cap s) then
    Ok (mkSlice (firstn (Z.to_nat (hi - lo)) (skipn (Z.to_nat lo) (backing s)))
                (skipn (Z.to_nat hi) (backing s)))
  else Panic SliceBoundsOutOfRange.

(** [s[lo:]]: the upper bound defaults to the length. *)
Definition from (s : slice) (lo : Z) : result slice := sub s lo (len s).

(** [s[:hi]]. *)
Definition upto (s : slice) (hi : Z) : result slice := sub s 0 hi.

(** [binary.BigEndian.Uint16(b)]: panics unless [len(b) >= 2]. *)
Definition Uint16 (b : slice) : result Z :=
  _ <- at_ b 1 ;; Ok (be_value 0 (firstn 2 (elems b))).

(** [binary.BigEndian.Uint32(b)]: panics unless [len(b) >= 4]. *)
Definition Uint32 (b : slice) : result Z :=
  _ <- at_ b 3 ;; Ok (be_value 0 (firstn 4 (elems b))).

(** The loop [for buf.Len() < 46 { buf.WriteByte(0) }] of both marshallers. *)
Definition pad46 (bs : list byte) : list byte :=
  bs ++ repeat x00 (46 - length bs)%nat.

(* ===================================================================== *)
(** ** Package ebm: the operational protocol *)
(* ===================================================================== *)

Module Ebm.

(** *** Frame codec (ebm.go) *)

Record Message : Type := mkMessage {
  Type_ : byte;
  SequenceNumber : Z;   (* uint32 *)
  Status : byte;
  Payload : slice
}.

Definition Message_MarshalBinary (m : Message) : result (list byte) :=
  Ok (pad46 ([Type_ m]
             ++ put_u32 (SequenceNumber m)
             ++ put_u16 (len (Payload m) mod 2 ^ 16)
             ++ [Status m]
             ++ elems (Payload m))).

Definition ParseMessage (data : slice) : result Message :=
  if len data <? 7 then Err "too short message"
  else
    ty <- at_ data 0 ;;
    s15 <- sub data 1 5 ;;
    seq <- Uint32 s15 ;;
    s57 <- sub data 5 7 ;;
    payloadLen <- Uint16 s57 ;;
    st <- at_ data 7 ;;
    (* payloadLen+8 is evaluated in uint16 *)
    pl <- sub data 8 ((payloadLen + 8) mod 2 ^ 16) ;;
    Ok (mkMessage ty seq st pl).

Definition TypeConsoleOutput : byte := x60.
Definition TypeLoggerOutput : byte := x61.
Definition TypeDeviceDisconnect : byte := x70.

(** *** OID codec (oid.go) *)

Definition TypeUint32 : Z := 0.
Definition TypeInt32 : Z := 1.
Definition TypeUint16 : Z := 2.
Definition TypeInt16 : Z := 3.
Definition TypeUint8 : Z := 4.
Definition TypeInt8 : Z := 5.
Definition TypeString : Z := 6.
Definition TypeBool : Z := 7.
Definition TypeInvalid : Z := 8.

Definition oidTypeDesc (t : Z) : string :=
  match t with
  | 0 => "uint32" | 1 => "int32" | 2 => "uint16" | 3 => "int16"
  | 4 => "uint8" | 5 => "int8" | 6 => "string" | 7 => "bool"
  | 8 => "invalid" | _ => EmptyString
  end.

Record OID : Type := mkOID {
  OID_ : Z * Z * Z;     (* [3]uint32 *)
  Length : Z;           (* uint32 *)
  Offset : Z;           (* uint32 *)
  OType : Z;            (* OIDType, a uint32 *)
  AccessModes : Z
}.

(** [binary.Write] of the struct [oidRequest]: its six [uint32] fields in
    declaration order, [OID[0..2]], [Offset], [Length], [Type]. *)
Definition write_oidRequest (o : OID) : list byte :=
  let '(a, b, c) := OID_ o in
  put_u32 a ++ put_u32 b ++ put_u32 c
  ++ put_u32 (Offset o) ++ put_u32 (Length o) ++ put_u32 (OType o).

(** [binary.Size(&req)]. *)
Definition oidRequest_size : Z := 24.

Definition OID_MarshalBinary (o : OID) : result (list byte) :=
  Ok (write_oidRequest o).

(** The dynamic values ([any]) that travel through the codec. [VOther]
    stands for a value of any other dynamic type, named by its [%T]. *)
Inductive value : Type :=
| VUint32 (v : Z)
| VUint16 (v : Z)
| VUint8 (v : byte)
| VBytes (bs : slice)
| VString (s : list byte)
| VBool (b : bool)
| VOther (goType : string).

Definition in_cutset (b : byte) : bool := Byte.eqb b x00 || Byte.eqb b x20.

(** [strings.TrimRight(s, "\x00 ")]; the cutset is ASCII, so the trim is
    bytewise. *)
Fixpoint TrimRight (s : list byte) : list byte :=
  match s with
  | [] => []
  | b :: tl =>
      match TrimRight tl with
      | [] => if in_cutset b then [] else [b]
      | tl' => b :: tl'
      end
  end.

Definition ParseOID (d : slice) : result value :=
  (* binary.Read through io.ReadFull of 24 bytes *)
  if len d =? 0 then Err "EOF"
  else if len d <? oidRequest_size then Err "unexpected EOF"
  else
    let reqLength := be_value 0 (firstn 4 (skipn 16 (elems d))) in
    let reqType := be_value 0 (firstn 4 (skipn 20 (elems d))) in
    payload <- from d oidRequest_size ;;
    match reqType with
    | 0 (* TypeUint32 *) =>
        p <- upto payload 4 ;; v <- Uint32 p ;; Ok (VUint32 v)
    | 2 (* TypeUint16 *) =>
        p <- upto payload 4 ;; v <- Uint32 p ;; Ok (VUint32 v)
    | 4 (* TypeUint8 *) =>
        if reqLength =? 1 then
          b <- at_ payload 0 ;; Ok (VUint8 b)
        else
          p <- sub payload 0 reqLength ;; Ok (VBytes p)
    | 6 (* TypeString *) =>
        p <- sub payload 0 reqLength ;; Ok (VString (TrimRight (elems p)))
    | 7 (* TypeBool *) =>
        b <- at_ payload 0 ;; Ok (VBool (Byte.eqb b x01))
    | _ => Err ("unknown type " ++ oidTypeDesc reqType)
    end.

Definition MarshalOID (o : OID) (val : value) : result (list byte) :=
  let buf := write_oidRequest o in
  match OType o with
  | 0 (* TypeUint32 *) =>
      match val with
      | VUint32 v => Ok (buf ++ put_u32 v)
      | _ => Panic TypeAssertion
      end
  | 2 (* TypeUint16 *) =>
      match val with
      | VUint16 v => Ok (buf ++ put_u16 v)
      | _ => Panic TypeAssertion
      end
  | 4 (* TypeUint8 *) =>
      match val with
      | VUint8 x => Ok (buf ++ [x])
      | VBytes x => Ok (buf ++ elems x)
      | VUint32 _ => Err "invalid type uint32 for uint8 oid"
      | VUint16 _ => Err "invalid type uint16 for uint8 oid"
      | VString _ => Err "invalid type string for uint8 oid"
      | VBool _ => Err "invalid type bool for uint8 oid"
      | VOther t => Err ("invalid type " ++ t ++ " for uint8 oid")
      end
  | 6 (* TypeString *) =>
      match val with
      | VString strval =>
          Ok (buf ++ strval
                  ++ repeat x00 (Z.to_nat (Length o) - length strval)%nat)
      | _ => Panic TypeAssertion
      end
  | 7 (* TypeBool *) =>
      match val with
      | VBool true => Ok (buf ++ [x01])
      | VBool false => Ok (buf ++ [x00])
      | _ => Panic TypeAssertion
      end
  | t => Err ("unknown type " ++ oidTypeDesc t)
  end.

Definition newOIDUint32 (a b c : Z) : OID := mkOID (a, b, c) 1 0 TypeUint32 0.
Definition newOIDUint16 (a b c : Z) : OID := mkOID (a, b, c) 1 0 TypeUint16 0.
Definition newOIDUint8 (a b c : Z) : OID := mkOID (a, b, c) 1 0 TypeUint8 0.
Definition newOIDString (a b c l : Z) : OID := mkOID (a, b, c) l 0 TypeString 0.

Definition OidTicks : OID := newOIDUint32 11 21 0.
Definition OidPowerUpstream : OID := newOIDUint16 10 9 9.

(** *** The session reactor (ebm.go) *)

(** [curReqTimer]: running, or not (stopped, or expired with its channel
    already drained by the [select]). *)
Inductive timer : Type := Idle | Armed.

(** The state the reactor owns: [c.seqNo] and its two locals. [curReq]
    aliases the caller's message; the caller is blocked in [Exchange]
    for as long as the timer is armed, so nobody else writes to it. *)
Record Conn : Type := mkConn {
  seqNo : Z;                    (* uint32 *)
  curReq : option Message;      (* *Message, nil when nothing is in flight *)
  curReqTimer : timer
}.

(** [NewConn] followed by the prologue of [reactor]. *)
Definition NewConn : Conn := mkConn 2 None Idle.

(** The case the [select] takes, with the outcome of the socket write the
    case performs. [ReqTimer] is taken only while the timer is armed. *)
Inductive event : Type :=
| RxMsg (rxMsg : slice)
| RxClosed
| ExchReq (req : Message) (writeOk : bool)
| ReqTimer (writeOk : bool).

Inductive action : Type :=
| LogParseError (e : string)
| LogWrite (bs : slice)
| PrintLog (logType : Z) (payload : slice)
| PrintModemStatus (code : Z)
| PrintError (code : Z)
| LogDisconnect
| LogNoRequestPending
| LogSeqMismatch (want got : Z)
| LogMarshalFailed
| LogSendFailed
| LogRetry
| WriteTo (frame : list byte)
| ExchRes (res : option Message)
| CloseExchRes
| CloseExchReq.

(** How one turn of the loop ends. [Hang] is the receive on the timer
    channel that no expiry will ever satisfy. *)
Inductive next : Type :=
| Continue (c : Conn)
| Return
| Crash (p : panic)
| Hang.

Definition incr32 (n : Z) : Z := (n + 1) mod 2 ^ 32.

Definition stamp (req : Message) (n : Z) : Message :=
  mkMessage (Type_ req) n (Status req) (Payload req).

Definition rx_logger (c : Conn) (res : Message) : list action * next :=
  match bind (sub (Payload res) 20 22) Uint16 with
  | Panic p => ([], Crash p)
  | Err e => ([], Crash (Explicit e))   (* no error value arises here *)
  | Ok logType =>
      if (logType =? 1) || (logType =? 4) then
        match bind (sub (Payload res) 24 28) Uint32 with
        | Panic p => ([], Crash p)
        | Err e => ([], Crash (Explicit e))
        | Ok code =>
            ([if logType =? 1 then PrintModemStatus code else PrintError code],
             Continue c)
        end
      else ([PrintLog logType (Payload res)], Continue c)
  end.

Definition rx_response (c : Conn) (res : Message) : list action * next :=
  match curReq c with
  | None => ([LogNoRequestPending], Continue c)
  | Some cur =>
      let warn :=
        if SequenceNumber cur =? SequenceNumber res then []
        else [LogSeqMismatch (SequenceNumber cur) (SequenceNumber res)] in
      match curReqTimer c with
      | Armed => (warn ++ [ExchRes (Some res)], Continue (mkConn (seqNo c) None Idle))
      | Idle => (warn ++ [ExchRes (Some res)], Hang)
      end
  end.

Definition reactor (c : Conn) (ev : event) : list action * next :=
  match ev with
  | RxClosed => ([CloseExchRes], Return)
  | RxMsg rxMsg =>
      match ParseMessage rxMsg with
      | Panic p => ([], Crash p)
      | Err e =>
          (* res is nil; the switch on res.Type follows the log line *)
          ([LogParseError e], Crash NilDereference)
      | Ok res =>
          if Byte.eqb (Type_ res) TypeConsoleOutput then
            ([LogWrite (Payload res)], Continue c)
          else if Byte.eqb (Type_ res) TypeLoggerOutput then rx_logger c res
          else if Byte.eqb (Type_ res) TypeDeviceDisconnect then
            ([LogDisconnect; CloseExchReq], Return)
          else rx_response c res
      end
  | ExchReq req writeOk =>
      let req' := stamp req (seqNo c) in
      match Message_MarshalBinary req' with
      | Panic p => ([], Crash p)
      | Err _ => ([LogMarshalFailed; ExchRes None], Continue c)
      | Ok reqRaw =>
          if writeOk then
            ([WriteTo reqRaw], Continue (mkConn (incr32 (seqNo c)) (Some req') Armed))
          else ([LogSendFailed; ExchRes None], Continue c)
      end
  | ReqTimer writeOk =>
      match curReqTimer c, curReq c with
      | Idle, _ => ([], Continue c)   (* the timer channel is empty: not taken *)
      | Armed, None => ([LogRetry], Crash NilDereference)
      | Armed, Some cur =>
          match Message_MarshalBinary cur with
          | Panic p => ([LogRetry], Crash p)
          | Err _ => ([LogRetry; ExchRes None], Continue (mkConn (seqNo c) (curReq c) Idle))
          | Ok reqRaw =>
              if writeOk then
                ([LogRetry; WriteTo reqRaw],
                 Continue (mkConn (seqNo c) (curReq c) Armed))
              else
                ([LogRetry; LogSendFailed; ExchRes None],
                 Continue (mkConn (seqNo c) (curReq c) Idle))
          end
      end
  end.

(** The loop itself, over a schedule of events. *)
Fixpoint run (c : Conn) (evs : list event) : list action * next :=
  match evs with
  | [] => ([], Continue c)
  | ev :: evs' =>
      match reactor c ev with
      | (acts, Continue c') =>
          let '(acts', n) := run c' evs' in (acts ++ acts', n)
      | stop => stop
      end
  end.

(** The frames put on the wire, in order. *)
Fixpoint frames (acts : list action) : list (list byte) :=
  match acts with
  | [] => []
  | WriteTo f :: tl => f :: frames tl
  | _ :: tl => frames tl
  end.

(** The sequence-number field of a marshalled frame (bytes 1..4). *)
Definition frame_seq (frame : list byte) : Z :=
  be_value 0 (firstn 4 (skipn 1 frame)).

(** The payload-length field of a marshalled frame (bytes 5..6). *)
Definition frame_len (frame : list byte) : Z :=
  be_value 0 (firstn 2 (skipn 5 frame)).

(** Requests of the schedule whose first transmission succeeds. *)
Fixpoint originals (evs : list event) : Z :=
  match evs with
  | [] => 0
  | ExchReq _ true :: tl => 1 + originals tl
  | _ :: tl => originals tl
  end.

End Ebm.

(** *** G.994.1 vendor identifiers (oid.go) *)

Module Vendor.

Record VendorID : Type := mkVendorID {
  CountryCode : Z;             (* uint16 *)
  ProviderCode : list byte;    (* string *)
  VendorInfo : Z               (* uint16 *)
}.

(** [ParseVendorID]: a string is sliced against its length, and each
    piece converted to [[]byte] has no spare capacity; the fields are
    evaluated in the order they are written. *)
Definition ParseVendorID (vid : list byte) : result VendorID :=
  s02 <- sub (exact vid) 0 2 ;;
  cc <- Uint16 (exact (elems s02)) ;;
  pc <- sub (exact vid) 2 6 ;;
  s6 <- from (exact vid) 6 ;;
  vi <- Uint16 (exact (elems s6)) ;;
  Ok (mkVendorID cc (elems pc) vi).

End Vendor.

(* ===================================================================== *)
(** ** Package bootloader *)
(* ===================================================================== *)

Module Bootloader.

Record message : Type := mkmessage {
  SequenceNumber : Z;   (* uint16 *)
  Type_ : Z;            (* uint16 *)
  Payload : slice
}.

Definition MaxUint16 : Z := 65535.

Definition MarshalBinary (m : message) : result (list byte) :=
  if len (Payload m) >? MaxUint16 then Err "payload larger than 2^16, invalid"
  else
    Ok (pad46 (put_u16 (SequenceNumber m)
               ++ put_u16 (len (Payload m) mod 2 ^ 16)
               ++ put_u16 (Type_ m)
               ++ elems (Payload m))).

Definition parseMessage (data : slice) : result message :=
  if len data <? 6 then Err "too short message"
  else
    s02 <- sub data 0 2 ;;
    seq <- Uint16 s02 ;;
    s24 <- sub data 2 4 ;;
    payloadLen <- Uint16 s24 ;;
    s46 <- sub data 4 6 ;;
    ty <- Uint16 s46 ;;
    (* payloadLen+6 is evaluated in uint16 *)
    pl <- sub data 6 ((payloadLen + 6) mod 2 ^ 16) ;;
    Ok (mkmessage seq ty pl).

Record conn : Type := mkconn {
  addr : list byte;
  seqNo : Z             (* uint16 *)
}.

(** What the socket does during one turn of the retry loop: the write
    fails, or it succeeds and the read ends in one of three ways. *)
Inductive attempt : Type :=
| WriteFails
| DeadlineExceeded
| ReadFails
| Received (frame : list byte).

(** [c.c.ReadFrom(buf)] delivering [frame]: the bytes land at the start
    of the 1600-byte buffer, and [buf[:n]] keeps the rest of the buffer
    as spare capacity. *)
Definition read_into (buf frame : list byte) : list byte * slice :=
  let n := Nat.min (length frame) (length buf) in
  let buf' := firstn n frame ++ skipn n buf in
  (buf', mkSlice (firstn n buf') (skipn n buf')).

(** The body of [for i := 0; i < 5; i++]; [left] counts the turns that
    remain, [i] the turns done, [sent] the frames written so far. *)
Fixpoint tries (left : nat) (i : nat) (env : nat -> attempt)
    (reqRaw : list byte) (reqSeq : Z) (buf : list byte)
    (sent : list (list byte)) : list (list byte) * result message :=
  match left with
  | O => (sent, Err "no response after 5 tries")
  | S left' =>
      match env i with
      | WriteFails => (sent, Err "failed to send packet")
      | DeadlineExceeded =>
          tries left' (S i) env reqRaw reqSeq buf (sent ++ [reqRaw])
      | ReadFails => (sent ++ [reqRaw], Err "error reading response")
      | Received frame =>
          let '(buf', data) := read_into buf frame in
          match parseMessage data with
          | Panic p => (sent ++ [reqRaw], Panic p)
          | Err e => (sent ++ [reqRaw], Err ("error parsing response: " ++ e))
          | Ok res =>
              if negb (SequenceNumber res =? reqSeq) then
                (* dropping *)
                tries left' (S i) env reqRaw reqSeq buf' (sent ++ [reqRaw])
              else (sent ++ [reqRaw], Ok res)
          end
      end
  end.

(** [conn.Exchange]: the connection afterwards, the frames written to
    the socket, and the result. *)
Definition Exchange (c : conn) (req : message) (env : nat -> attempt)
    : conn * list (list byte) * result message :=
  let req' := mkmessage (seqNo c) (Type_ req) (Payload req) in
  let c' := mkconn (addr c) ((seqNo c + 1) mod 2 ^ 16) in
  match MarshalBinary req' with
  | Panic p => (c', [], Panic p)
  | Err e => (c', [], Err ("failed to marshal req: " ++ e))
  | Ok reqRaw =>
      let '(sent, r) := tries 5 0 env reqRaw (seqNo c) (repeat x00 1600) [] in
      (c', sent, r)
  end.

(** A turn that ends in [continue]: the deadline passed, or a well-formed
    response with another sequence number arrived. *)
Definition retried (reqSeq : Z) (buf : list byte) (a : attempt) : bool :=
  match a with
  | DeadlineExceeded => true
  | Received frame =>
      match parseMessage (snd (read_into buf frame)) with
      | Ok res => negb (SequenceNumber res =? reqSeq)
      | _ => false
      end
  | _ => false
  end.

(** The buffer before turn [i], when every earlier turn was retried. *)
Fixpoint buf_before (env : nat -> attempt) (i : nat) : list byte :=
  match i with
  | O => repeat x00 1600
  | S j =>
      match env j with
      | Received frame => fst (read_into (buf_before env j) frame)
      | _ => buf_before env j
      end
  end.

(** The payload-length field of a frame (bytes 2..3). *)
Definition frame_len (frame : list byte) : Z :=
  be_value 0 (firstn 2 (skipn 2 frame)).

End Bootloader.

(* ===================================================================== *)
(** ** Package srec: emitting S-records *)
(* ===================================================================== *)

Module Srec.

(** The [addr any] argument of [genericRecord], as its callers pass it. *)
Inductive address : Type :=
| Addr16 (v : Z)
| Addr32 (v : Z).

(** [binary.Size(addr)]. *)
Definition Size (a : address) : Z :=
  match a with Addr16 _ => 2 | Addr32 _ => 4 end.

Definition write_address (a : address) : list byte :=
  match a with Addr16 v => put_u16 v | Addr32 v => put_u32 v end.

(** [var sum byte; for _, b := range bs { sum += b }]. *)
Definition sum8 (bs : list byte) : Z :=
  fold_left (fun acc b => (acc + byte_to_Z b) mod 256) bs 0.

Definition hex_digit (n : Z) : ascii :=
  ascii_of_nat (Z.to_nat (if n <? 10 then 48 + n else 55 + n)).

(** The verb [%X] applied to a byte string. *)
Fixpoint upper_hex (bs : list byte) : string :=
  match bs with
  | [] => EmptyString
  | b :: tl =>
      String (hex_digit (byte_to_Z b / 16))
        (String (hex_digit (byte_to_Z b mod 16)) (upper_hex tl))
  end.

Definition newline : string := String (ascii_of_nat 10) EmptyString.

Definition genericRecord (typ : Z) (addr : address) (payload : list byte)
    : result string :=
  if (typ <? 0) || (typ >? 9) then Panic (Explicit "wrong record type")
  else
    let recLen := Size addr + Z.of_nat (length payload) + 1 in
    if recLen >? 255 then Panic (Explicit "record too long")
    else
      let rec := [byte_of_Z recLen] ++ write_address addr ++ payload in
      let rec' := rec ++ [byte_of_Z (Z.lxor (sum8 rec) 255)] in
      Ok (String "S" (String (hex_digit typ) (upper_hex rec' ++ newline))).

Definition S3 (addr : Z) (data : list byte) : result string :=
  genericRecord 3 (Addr32 addr) data.

(** *** Parsing S-records *)

(** [reverseHexTable] of encoding/hex: the value of a hexadecimal digit
    of either case, 255 for every other byte. *)
Definition fromHex (c : ascii) : Z :=
  let n := Z.of_nat (nat_of_ascii c) in
  if (48 <=? n) && (n <=? 57) then n - 48
  else if (97 <=? n) && (n <=? 102) then n - 87
  else if (65 <=? n) && (n <=? 70) then n - 55
  else 255.

(** [hex.Decode(dst, src)] for a [dst] of [n] bytes: pair after pair is
    checked and stored, [written] being the bytes stored so far; storing
    beyond [dst] panics; an odd byte at the end is an error. On success
    the result is the bytes stored. *)
Fixpoint Decode (n : nat) (src : string) (written : list byte)
    : result (list byte) :=
  match src with
  | EmptyString => Ok written
  | String p EmptyString =>
      if fromHex p >? 15 then Err "encoding/hex: invalid byte"
      else Err "encoding/hex: odd length hex string"
  | String p (String q rest) =>
      if fromHex p >? 15 then Err "encoding/hex: invalid byte"
      else if fromHex q >? 15 then Err "encoding/hex: invalid byte"
      else if (length written <? n)%nat then
        Decode n rest (written ++ [byte_of_Z (fromHex p * 16 + fromHex q)])
      else Panic IndexOutOfRange
  end.

(** [strconv.Atoi] on the one-character string [record[1:2]]: a decimal
    digit, or a syntax error. *)
Definition Atoi1 (c : ascii) : option Z :=
  let n := Z.of_nat (nat_of_ascii c) in
  if (48 <=? n) && (n <=? 57) then Some (n - 48) else None.

(** [ParseGeneric]: the record type and the address and data bytes, the
    latter as the slice [payload[:len(payload)-1]], which keeps the
    checksum byte as spare capacity. The errors carry the fixed part of
    their message; the text of a wrapped cause is left out. *)
Definition ParseGeneric (record : string) : result (Z * slice) :=
  match record with
  | String "S" _ =>
      if (String.length record <? 10)%nat then
        Err "record contains less than 10 characters, invalid"
      else
        match record with
        | String _ (String t (String h (String l body))) =>
            match Atoi1 t with
            | None => Err "record does not have a valid type"
            | Some typ =>
                if (fromHex h >? 15) || (fromHex l >? 15) then
                  Err "failed to decode byte count hex"
                else
                  let byteCount := fromHex h * 16 + fromHex l in
                  if 2 * byteCount >? Z.of_nat (String.length record) - 4 then
                    Err "byte count larger than record"
                  else
                    match Decode (Z.to_nat byteCount) body [] with
                    | Err _ => Err "failed to decode payload"
                    | Panic p => Panic p
                    | Ok written =>
                        let payload :=
                          written
                          ++ repeat x00 (Z.to_nat byteCount - length written) in
                        if byteCount =? 0 then Panic SliceBoundsOutOfRange
                        else
                          let data := removelast payload in
                          let expectedCksum := last payload x00 in
                          let gotChecksum :=
                            Z.lxor
                              (fold_left
                                 (fun acc b => (acc + byte_to_Z b) mod 256)
                                 data byteCount) 255 in
                          if negb (byte_to_Z expectedCksum =? gotChecksum) then
                            Err "invalid checksum"
                          else Ok (typ, mkSlice data [expectedCksum])
                    end
            end
        | _ => Err "record contains less than 10 characters, invalid"
        end
  | _ => Err "record does not start with S"
  end.

Definition S0 (comment : list byte) : result string :=
  genericRecord 0 (Addr16 0) comment.

Definition S1 (addr : Z) (data : list byte) : result string :=
  genericRecord 1 (Addr16 addr) data.

Definition S7 (addr : Z) : result string :=
  genericRecord 7 (Addr32 addr) [].

(** The record bytes of [genericRecord] before the checksum: the count,
    the address, the payload. *)
Definition body_bytes (addr : address) (payload : list byte) : list byte :=
  [byte_of_Z (Size addr + Z.of_nat (length payload) + 1)]
  ++ write_address addr ++ payload.

(** The text of a record without the newline, as a line scanner hands it
    on. *)
Definition line_of (typ : Z) (rec : list byte) : string :=
  String "S" (String (hex_digit typ) (upper_hex rec)).

End Srec.

(* ===================================================================== *)
(** ** Command fwutil: the firmware pack decoder *)
(* ===================================================================== *)

Module Fwutil.

(** [binary.BigEndian.Uint32(header[lo:hi])]. *)
Definition word (header : slice) (lo hi : Z) : result Z :=
  s <- sub header lo hi ;; Uint32 s.

(** What the header yields about the selected firmware. *)
Record selection : Type := mkSelection {
  mt5321FwIdx : Z;
  fwStartOffset : Z;
  numberOfRecords : Z;
  fwSize : Z
}.

Inductive search : Type :=
| Found (i : Z)
| NotFound
| Fault (p : panic).

(** [for i := 1; i <= int(numberOfFirmwares); i++]: [None] when the
    turns allotted by [fuel] are used up before the loop ends. *)
Fixpoint scan (fuel : nat) (header : slice) (numberOfFirmwares i : Z)
    : option search :=
  match fuel with
  | O => None
  | S fuel' =>
      if i <=? numberOfFirmwares then
        match word header (i * 32) (i * 32 + 4) with
        | Ok firmwareSig =>
            if firmwareSig =? 0x23210010 then Some (Found i)
            else scan fuel' header numberOfFirmwares (i + 1)
        | Err e => Some (Fault (Explicit e))   (* no error value arises here *)
        | Panic p => Some (Fault p)
        end
      else Some NotFound
  end.

(** Turns after which the loop has left the backing array for certain. *)
Definition scan_fuel (header : slice) : nat := S (Z.to_nat (cap header / 32)).

(** [main] from the signature check to the metadata of the selected
    firmware; [Err] is the message of the [log.Fatalf] that ends the run. *)
Definition readHeader (header : slice) : result selection :=
  packSignature <- word header 0 4 ;;
  if negb (packSignature =? 0x61232321) then Err "Bad signature"
  else
    packVersion <- word header 16 20 ;;
    if negb (packVersion =? 0x20000) then Err "Unknown pack version"
    else
      numberOfFirmwares <- word header 4 8 ;;
      (* numberOfFirmwares*32 is evaluated in uint32 *)
      if (numberOfFirmwares * 32) mod 2 ^ 32 >=? len header mod 2 ^ 32
      then Err "More firmwares than fit in the header"
      else
        match scan (scan_fuel header) header numberOfFirmwares 1 with
        | None => Panic (Explicit "scan: out of fuel")
        | Some (Fault p) => Panic p
        | Some NotFound =>
            Err "No MT5321 firmware signature found in firmware file"
        | Some (Found idx) =>
            let metaStart := 32 * idx in
            start <- word header (metaStart + 16) (metaStart + 20) ;;
            records <- word header (metaStart + 24) (metaStart + 28) ;;
            size <- word header (metaStart + 4) (metaStart + 8) ;;
            Ok (mkSelection idx start records size)
        end.

Definition key : list byte :=
  [xb4; xdf; x15; x73; x69; xbe; x2a; xe7; xd3; x7c; x55; xce; xa6; xf8; xab; x9d;
   x4d; xf1; x57; x3b; x9b; xe2; xae; x76; x37; xc5; x5c; xed; x6f; x8a; xb9; xda;
   xdf; x15; x73; xb4; xbe; x2a; xe7; x69; x7c; x55; xce; xd3; xf8; xab; x9d; xa6;
   xf1; x57; x3b; x4d; xe2; xae; x76; x9b; xc5; x5c; xed; x37; x8a; xb9; xda; x6f;
   x15; x73; xb4; xdf; x2a; xe7; x69; xbe; x55; xce; xd3; x7c; xab; x9d; xa6; xf8;
   x57; x3b; x4d; xf1; xae; x76; x9b; xe2; x5c; xed; x37; xc5; xb9; xda; x6f; x8a;
   x73; xb4; xdf; x15; xe7; x69; xbe; x2a; xce; xd3; x7c; x55; x9d; xa6; xf8; xab;
   x3b; x4d; xf1; x57; x76; x9b; xe2; xae; xed; x37; xc5; x5c; xda; x6f; x8a; xb9].

Definition xor8 (a b : byte) : byte :=
  byte_of_Z (Z.lxor (byte_to_Z a) (byte_to_Z b)).

(** [fwData = append(fwData, b^key[len(fwData)%len(key)])] over the body,
    [n] being [len(fwData)] so far. *)
Fixpoint deobfuscate (n : nat) (raw : list byte) : list byte :=
  match raw with
  | [] => []
  | b :: tl =>
      xor8 b (nth (n mod length key) key x00) :: deobfuscate (S n) tl
  end.

(** One record handed to [srec.S3] and written to the output file. *)
Record emitted : Type := mkEmitted {
  e_addr : Z;
  e_data : list byte;
  e_line : string
}.

Inductive stop : Type :=
| Sentinel                  (* the address 0xffeeddcc *)
| EndOfData                 (* fewer than 8 bytes left *)
| Fatal (p : panic).

Definition sentinel : Z := 0xffeeddcc.

(** One turn of the record walk of [main] at offset [ptr]: it ends the
    loop, or it emits a record and moves on. The diagnostics printed to
    standard output are left out. *)
Definition turn (fwData : slice) (ptr : Z) : result (stop + emitted * Z) :=
  if ptr + 8 >? len fwData then Ok (inl EndOfData)
  else
    record <- sub fwData ptr (ptr + 8) ;;
    r04 <- upto record 4 ;;
    addr <- Uint32 r04 ;;
    if addr =? sentinel then Ok (inl Sentinel)
    else
      b7 <- at_ record 7 ;;
      let recordSize := byte_to_Z b7 * 4 in
      let ptr' := ptr + 8 in
      data <- sub fwData ptr' (ptr' + recordSize) ;;
      line <- Srec.S3 addr (elems data) ;;
      Ok (inr (mkEmitted addr (elems data) line, ptr' + recordSize)).

(** The loop; [None] when [fuel] turns did not finish it. No turn
    returns an error value, so the [Err] case is never taken. *)
Fixpoint walk (fuel : nat) (fwData : slice) (ptr : Z)
    : list emitted * option stop :=
  match fuel with
  | O => ([], None)
  | S fuel' =>
      match turn fwData ptr with
      | Ok (inl st) => ([], Some st)
      | Ok (inr (e, ptr')) =>
          let '(rest, st) := walk fuel' fwData ptr' in (e :: rest, st)
      | Err e => ([], Some (Fatal (Explicit e)))
      | Panic p => ([], Some (Fatal p))
      end
  end.

(** The walk as [main] runs it: from offset 0, with one turn more than
    there are bytes. *)
Definition recordWalk (fwData : slice) : list emitted * option stop :=
  walk (S (length (elems fwData))) fwData 0.

(** *** The record format in the words of the specification *)

(** A source record: address, 32-bit word-length, data. *)
Record record : Type := mkRecord {
  address : Z;
  wordLength : Z;
  data : list byte
}.

Definition well_formed (r : record) : Prop :=
  0 <= address r < 2 ^ 32 /\ address r <> sentinel /\
  0 <= wordLength r < 2 ^ 32 /\
  Z.of_nat (length (data r)) = 4 * wordLength r.

(** The bytes of a record: [address || word-length || data]. *)
Definition encode (r : record) : list byte :=
  put_u32 (address r) ++ put_u32 (wordLength r) ++ data r.

(** A firmware image: the records, the sentinel address, trailing bytes. *)
Definition image (rs : list record) (trailer : list byte) : list byte :=
  concat (map encode rs) ++ put_u32 sentinel ++ trailer.

End Fwutil.

(* ===================================================================== *)
(** ** Package bootloader: composing the download *)
(* ===================================================================== *)

Module Download.

(** [XorStream]: the key and the number of bytes processed so far; the
    writer [W] is the buffer the caller reads the result from. *)
Record XorStream : Type := mkXorStream { Key : list byte; n : nat }.

(** [processedData[i] = data[i] ^ s.Key[s.n%len(s.Key)]] with [s.n++]. *)
Fixpoint process (key : list byte) (n : nat) (data : list byte) : list byte :=
  match data with
  | [] => []
  | b :: tl =>
      Fwutil.xor8 b (nth (n mod length key) key x00) :: process key (S n) tl
  end.

(** [XorStream.Write]: the stream afterwards and the bytes handed to
    [W]. With an empty key the first byte divides by zero. *)
Definition Write (s : XorStream) (data : list byte)
    : result (XorStream * list byte) :=
  match data, Key s with
  | _ :: _, [] => Panic (Explicit "integer divide by zero")
  | _, _ =>
      Ok (mkXorStream (Key s) (n s + length data), process (Key s) (n s) data)
  end.

(** The key literal of [DownloadAndBoot]. *)
Definition key : list byte :=
  [xb4; xdf; x15; x73; x69; xbe; x2a; xe7; xd3; x7c; x55; xce; xa6; xf8; xab; x9d;
   x4d; xf1; x57; x3b; x9b; xe2; xae; x76; x37; xc5; x5c; xed; x6f; x8a; xb9; xda;
   xdf; x15; x73; xb4; xbe; x2a; xe7; x69; x7c; x55; xce; xd3; xf8; xab; x9d; xa6;
   xf1; x57; x3b; x4d; xe2; xae; x76; x9b; xc5; x5c; xed; x37; x8a; xb9; xda; x6f;
   x15; x73; xb4; xdf; x2a; xe7; x69; xbe; x55; xce; xd3; x7c; xab; x9d; xa6; xf8;
   x57; x3b; x4d; xf1; xae; x76; x9b; xe2; x5c; xed; x37; xc5; xb9; xda; x6f; x8a;
   x73; xb4; xdf; x15; xe7; x69; xbe; x2a; xce; xd3; x7c; x55; x9d; xa6; xf8; xab;
   x3b; x4d; xf1; x57; x76; x9b; xe2; xae; xed; x37; xc5; x5c; xda; x6f; x8a; xb9].

(** One turn of the scanner loop of [DownloadAndBoot] up to the
    exchange: the stream afterwards and the payload of the
    [DownloadRecord] message, [None] for a record that is skipped. *)
Definition recordPayload (os : XorStream) (text : string)
    : result (XorStream * option (list byte)) :=
  match Srec.ParseGeneric text with
  | Err e => Err "error parsing S-Record"
  | Panic p => Panic p
  | Ok (typ, payload) =>
      if negb (typ =? 3) then Ok (os, None)
      else
        addr <- sub payload 0 4 ;;
        data <- from payload 4 ;;
        w1 <- Write os (elems addr) ;;
        w2 <- Write (fst w1) (put_u32 ((len data / 4) mod 2 ^ 32)) ;;
        w3 <- Write (fst w2) (elems data) ;;
        Ok (fst w3, Some (snd w1 ++ snd w2 ++ snd w3))
  end.

Definition typeAssociateReq : Z := 0x01.
Definition typeAssociateRes : Z := 0x02.
Definition typeDownloadBegin : Z := 0x11.
Definition typeDownloadRecord : Z := 0x12.
Definition typeDownloadEnd : Z := 0x13.
Definition typeAck : Z := 0x14.

Definition metanoiaDefaultAddr : list byte := [x00; x0e; xad; x33; x44; x55].

Definition associateRequest (hwaddr : list byte) : Bootloader.message :=
  Bootloader.mkmessage 0 typeAssociateReq
    (exact (put_u32 0x20304 ++ hwaddr ++ put_u32 1 ++ put_u32 2 ++ put_u32 3)).

Definition downloadBegin : Bootloader.message :=
  Bootloader.mkmessage 0 typeDownloadBegin
    (exact [xba; x00; x00; x00; x00; x01; x02; x03; x0a; x0b; x0c; x0d]).

Definition downloadRecord (payload : list byte) : Bootloader.message :=
  Bootloader.mkmessage 0 typeDownloadRecord (exact payload).

Definition downloadEnd (checksum : Z) : Bootloader.message :=
  Bootloader.mkmessage 0 typeDownloadEnd
    (exact (put_u32 checksum ++ [xf4; xee; x00; xdd])).

(** The frames written to the socket, each with the address it went to. *)
Definition wire : Type := list (list byte * list byte).

(** [c.Exchange(req)] with the log of the socket carried along. *)
Definition exchange (c : Bootloader.conn) (req : Bootloader.message)
    (env : nat -> Bootloader.attempt) (w : wire)
    : Bootloader.conn * wire * result Bootloader.message :=
  let '(c', sent, r) := Bootloader.Exchange c req env in
  (c', w ++ map (fun f => (Bootloader.addr c, f)) sent, r).

(** The checks that follow every exchange: the error of the exchange,
    the type of the response, its first payload byte. The messages,
    which name the step of the download, are reduced to their common
    part. *)
Definition accepted (expect : Z) (r : result Bootloader.message) : result unit :=
  match r with
  | Err _ => Err "error exchanging EBM message"
  | Panic p => Panic p
  | Ok res =>
      if negb (Bootloader.Type_ res =? expect) then Err "invalid response"
      else
        status <- at_ (Bootloader.Payload res) 0 ;;
        if negb (byte_to_Z status =? 0) then Err "error status" else Ok tt
  end.

(** The scanner loop of [DownloadAndBoot] over the lines of the firmware
    file; [k] numbers the exchanges, [envs k] being what the socket does
    during exchange [k]. *)
Fixpoint downloadRecords (c : Bootloader.conn) (os : XorStream)
    (lines : list string) (envs : nat -> nat -> Bootloader.attempt)
    (k : nat) (w : wire) : Bootloader.conn * nat * wire * result unit :=
  match lines with
  | [] => (c, k, w, Ok tt)
  | text :: rest =>
      match recordPayload os text with
      | Err e => (c, k, w, Err e)
      | Panic p => (c, k, w, Panic p)
      | Ok (os', None) => downloadRecords c os' rest envs k w
      | Ok (os', Some payload) =>
          let '(c', w', r) := exchange c (downloadRecord payload) (envs k) w in
          match accepted typeAck r with
          | Ok _ => downloadRecords c' os' rest envs (S k) w'
          | Err e => (c', S k, w', Err e)
          | Panic p => (c', S k, w', Panic p)
          end
      end
  end.

(** [DownloadAndBoot], the firmware file given by the lines its scanner
    yields: the log of the socket and the result. *)
Definition DownloadAndBoot (hwAddr : list byte) (lines : list string)
    (envs : nat -> nat -> Bootloader.attempt) : wire * result unit :=
  let c := Bootloader.mkconn metanoiaDefaultAddr 1 in
  let '(c1, w1, r1) := exchange c (associateRequest hwAddr) (envs 0%nat) [] in
  match accepted typeAssociateRes r1 with
  | Err e => (w1, Err e)
  | Panic p => (w1, Panic p)
  | Ok _ =>
      let c1' := Bootloader.mkconn hwAddr (Bootloader.seqNo c1) in
      let '(c2, w2, r2) := exchange c1' downloadBegin (envs 1%nat) w1 in
      match accepted typeAck r2 with
      | Err e => (w2, Err e)
      | Panic p => (w2, Panic p)
      | Ok _ =>
          match downloadRecords c2 (mkXorStream key 0) lines envs 2 w2 with
          | (c3, k, w3, Ok _) =>
              let '(c4, w4, r4) := exchange c3 (downloadEnd 0x02792767) (envs k) w3 in
              (w4, accepted typeAck r4)
          | (_, _, w3, bad) => (w3, bad)
          end
      end
  end.

End Download.

(* ===================================================================== *)
(** ** Sample inputs and auxiliary notions *)
(* ===================================================================== *)

(** An 8-byte frame that declares a 4-byte payload. *)
Definition truncated_op : list byte := [x06; x00; x00; x00; x2a; x00; x04; xff].

(** A 6-byte bootloader frame that declares a 4-byte payload. *)
Definition truncated_boot : list byte := [x00; x01; x00; x04; x00; x14].

(** A request whose payload is 65539 bytes long. *)
Definition oversized : slice := exact (repeat x00 (Z.to_nat 65539)).

(** The header of a read response for [OidTicks] followed by the value
    256. *)
Definition ticks_response : list byte :=
  [x00; x00; x00; x0b; x00; x00; x00; x15; x00; x00; x00; x00;
   x00; x00; x00; x00; x00; x00; x00; x01; x00; x00; x00; x00;
   x00; x00; x01; x00].

(** The 32-bit word number [k] of a byte string. *)
Definition word_at (bs : list byte) (k : nat) : Z :=
  be_value 0 (firstn 4 (skipn (4 * k) bs)).

(** What holds of the reactor state after [n] original sends: the
    counter stands at [2 + n], and a request in flight bears the number
    of the latest original send. *)
Definition numbered (n : Z) (c : Ebm.Conn) : Prop :=
  Ebm.seqNo c = (2 + n) mod 2 ^ 32 /\
  forall cur, Ebm.curReq c = Some cur ->
              Ebm.SequenceNumber cur = (1 + n) mod 2 ^ 32.

(** A read request for [OidTicks], as [ReadMIB] submits it. *)
Definition read_ticks : Ebm.Message :=
  Ebm.mkMessage x06 0 xff (exact (firstn 24 ticks_response)).

(** Two requests: the first is retransmitted once and then answered,
    the second is sent. *)
Definition two_requests : list Ebm.event :=
  [Ebm.ExchReq read_ticks true;
   Ebm.ReqTimer true;
   Ebm.RxMsg (exact ([x86; x00; x00; x00; x02; x00; x1c; x00] ++ ticks_response));
   Ebm.ExchReq read_ticks true].

(** A bootloader session about to send request number 7. *)
Definition boot_conn : Bootloader.conn :=
  Bootloader.mkconn [xde; x21; x65; x01; x02; x03] 7.

(** [downloadBegin()]. *)
Definition downloadBegin : Bootloader.message :=
  Bootloader.mkmessage 0 17
    (exact [xba; x00; x00; x00; x00; x01; x02; x03; x0a; x0b; x0c; x0d]).

(** An [Ack] with status 0 bearing sequence number [n] (below 256). *)
Definition ack (n : byte) : list byte :=
  pad46 [x00; n; x00; x01; x00; x14; x00].

(** The socket first delivers a stale [Ack] for request 6, then the
    [Ack] for request 7. *)
Definition stale_then_match (i : nat) : Bootloader.attempt :=
  match i with
  | O => Bootloader.Received (ack x06)
  | _ => Bootloader.Received (ack x07)
  end.

(** The socket delivers nothing but stale [Ack]s. *)
Definition always_stale (i : nat) : Bootloader.attempt :=
  Bootloader.Received (ack x06).

(** The error with which an exchange gives up. *)
Definition no_response : string := "no response after 5 tries".

(** Turn [j] of an exchange ends in [continue]. *)
Definition retried_at (env : nat -> Bootloader.attempt) (reqSeq : Z) (j : nat)
    : Prop :=
  Bootloader.retried reqSeq (Bootloader.buf_before env j) (env j) = true.

(** [downloadBegin()] marshalled with sequence number 7. *)
Definition downloadBegin_frame : list byte :=
  pad46 [x00; x07; x00; x0c; x00; x11;
         xba; x00; x00; x00; x00; x01; x02; x03; x0a; x0b; x0c; x0d].

(** A pack header whose firmware count is 2^27 and whose first metadata
    slot bears the MT5321 signature; everything else is zero. *)
Definition wrapping_header : list byte :=
  [x61; x23; x23; x21; x08; x00; x00; x00] ++ repeat x00 8
  ++ [x00; x02; x00; x00] ++ repeat x00 12
  ++ [x23; x21; x00; x10] ++ repeat x00 476.

(** The message of the firmware-count check. *)
Definition too_many : string := "More firmwares than fit in the header".

(** A record of 256 words of zeros and a record of 63 words of zeros. *)
Definition wide_record : Fwutil.record :=
  Fwutil.mkRecord 0x10000000 256 (repeat x00 1024).
Definition long_record : Fwutil.record :=
  Fwutil.mkRecord 0x10000000 63 (repeat x00 252).

(** The record of the pack-decode scenario of the specification. *)
Definition small_record : Fwutil.record :=
  Fwutil.mkRecord 0x10000000 2 [x00; x01; x02; x03; x04; x05; x06; x07].

(** How a walk over an image with [trailer] after the sentinel ends. *)
Definition image_end (trailer : list byte) : Fwutil.stop :=
  if (length trailer <? 4)%nat then Fwutil.EndOfData else Fwutil.Sentinel.

(** A value the codec carries both ways at the width it was written in:
    every supported pairing of OID type and value except uint16. *)
Definition carried (o : Ebm.OID) (v : Ebm.value) : Prop :=
  0 <= Ebm.Length o < 2 ^ 32 /\
  match v with
  | Ebm.VUint32 x => Ebm.OType o = Ebm.TypeUint32 /\ 0 <= x < 2 ^ 32
  | Ebm.VUint8 _ => Ebm.OType o = Ebm.TypeUint8 /\ Ebm.Length o = 1
  | Ebm.VBytes bs =>
      Ebm.OType o = Ebm.TypeUint8 /\ Ebm.Length o <> 1 /\ len bs = Ebm.Length o
  | Ebm.VString s =>
      Ebm.OType o = Ebm.TypeString /\ Z.of_nat (length s) <= Ebm.Length o
  | Ebm.VBool _ => Ebm.OType o = Ebm.TypeBool
  | _ => False
  end.

(** Equality of values up to the trimming of strings; byte arrays are
    compared by their elements. *)
Definition same_value (v w : Ebm.value) : Prop :=
  match v, w with
  | Ebm.VString s, Ebm.VString t => t = Ebm.TrimRight s
  | Ebm.VBytes a, Ebm.VBytes b => elems b = elems a
  | _, _ => w = v
  end.

(** The bytes of the comment
    [Generated from firmware_package.b by ebm-util]. *)
Definition comment : list byte :=
  [x47; x65; x6e; x65; x72; x61; x74; x65; x64; x20; x66; x72;
   x6f; x6d; x20; x66; x69; x72; x6d; x77; x61; x72; x65; x5f;
   x70; x61; x63; x6b; x61; x67; x65; x2e; x62; x20; x62; x79;
   x20; x65; x62; x6d; x2d; x75; x74; x69; x6c].


(** A bootloader request whose payload is 65532 bytes long. *)
Definition near_limit : Bootloader.message :=
  Bootloader.mkmessage 7 18 (exact (repeat x00 (Z.to_nat 65532))).

(** The responses handed to callers, failures ([nil]) not counted. *)
Fixpoint deliveries (acts : list Ebm.action) : Z :=
  match acts with
  | [] => 0
  | Ebm.ExchRes (Some _) :: tl => 1 + deliveries tl
  | _ :: tl => deliveries tl
  end.

(** 1 when a request occupies the in-flight slot. *)
Definition inflight (c : Ebm.Conn) : Z :=
  match Ebm.curReq c with Some _ => 1 | None => 0 end.

(** The in-flight requests a turn leaves behind. *)
Definition inflight_after (nx : Ebm.next) : Z :=
  match nx with Ebm.Continue c => inflight c | _ => 0 end.


(** [newOIDString(10, 12, 7, 8)], the vendor string of the network
    termination, and the value [ab ] with its trailing space. *)
Definition OidNetworkTerminationVendor : Ebm.OID := Ebm.newOIDString 10 12 7 8.
Definition vendor_value : Ebm.value := Ebm.VString [x61; x62; x20].

(** The element types the codec has no case for. *)
Definition unsupported (t : Z) : Prop :=
  t <> Ebm.TypeUint32 /\ t <> Ebm.TypeUint16 /\ t <> Ebm.TypeUint8 /\
  t <> Ebm.TypeString /\ t <> Ebm.TypeBool.

(** An OID of type int32. *)
Definition int32_oid : Ebm.OID := Ebm.mkOID (11, 14, 1) 1 0 Ebm.TypeInt32 0.

(** What every record handed to the output file satisfies. *)
Definition valid_emitted (e : Fwutil.emitted) : Prop :=
  Srec.S3 (Fwutil.e_addr e) (Fwutil.e_data e) = Ok (Fwutil.e_line e) /\
  0 <= Fwutil.e_addr e < 2 ^ 32 /\
  Fwutil.e_addr e <> Fwutil.sentinel /\
  Z.of_nat (length (Fwutil.e_data e)) mod 4 = 0 /\
  Z.of_nat (length (Fwutil.e_data e)) <= 250.

(** The firmware signature the scan looks for. *)
Definition mt5321 : Z := 0x23210010.

(** Slot [j] of the header does not bear the MT5321 signature. *)
Definition other_firmware (header : slice) (j : Z) : Prop :=
  exists v, Fwutil.word header (j * 32) (j * 32 + 4) = Ok v /\ v <> mt5321.

(** A pack header with [n] firmwares none of which is for the MT5321:
    valid signature and version, every slot zero. *)
Definition foreign_header (n : byte) : list byte :=
  [x61; x23; x23; x21; x00; x00; x00; n] ++ repeat x00 8
  ++ [x00; x02; x00; x00] ++ repeat x00 492.

(** The comment record as [S0] emits it, without and with its newline. *)
Definition comment_line : string :=
  "S030000047656E6572617465642066726F6D206669726D776172655F7061636B6167652E622062792065626D2D7574696CFA".
Definition comment_text : string := (comment_line ++ Srec.newline)%string.

(** The sum of the bytes of a list. *)
Definition total (l : list byte) : Z :=
  fold_right (fun b acc => byte_to_Z b + acc) 0 l.

(** The stream of [DownloadAndBoot] after [n] bytes. *)
Definition stream (n : nat) : Download.XorStream :=
  Download.mkXorStream Download.key n.

(** The frame of request [m] when it is sent with sequence number [s]. *)
Definition request (s : Z) (m : Bootloader.message) : list byte :=
  pad46 (put_u16 s
         ++ put_u16 (len (Bootloader.Payload m) mod 2 ^ 16)
         ++ put_u16 (Bootloader.Type_ m)
         ++ elems (Bootloader.Payload m)).

(** A response of type [ty] with the single status byte 0 to the request
    numbered [s]. *)
Definition answer (s ty : Z) : list byte :=
  pad46 (put_u16 s ++ put_u16 1 ++ put_u16 ty ++ [x00]).

(** The sequence number of exchange [k] on a connection that starts
    at 1. *)
Definition seq_of (k : nat) : Z := (1 + Z.of_nat k) mod 2 ^ 16.

(** A device that answers every request at the first attempt: the
    association with an [AssociateRes], every later request with an
    [Ack]. *)
Definition prompt (k i : nat) : Bootloader.attempt :=
  Bootloader.Received
    (answer (seq_of k)
       (match k with
        | O => Download.typeAssociateRes
        | _ => Download.typeAck
        end)).

(** The [DownloadRecord] frames for the payloads [ps], the first of them
    sent as exchange [k]. *)
Fixpoint record_frames (hw : list byte) (k : nat) (ps : list (list byte))
    : Download.wire :=
  match ps with
  | [] => []
  | p :: tl =>
      (hw, request (seq_of k) (Download.downloadRecord p))
      :: record_frames hw (S k) tl
  end.

(** The obfuscated binary forms of the records [rs], the stream being
    at [n] before the first. *)
Fixpoint payloads (n : nat) (rs : list Fwutil.record) : list (list byte) :=
  match rs with
  | [] => []
  | r :: tl =>
      Download.process Download.key n (Fwutil.encode r)
      :: payloads (n + length (Fwutil.encode r)) tl
  end.

(** The lines a scanner yields for the S3 records the decoder wrote for
    [rs], one line per record, newline removed. *)
Inductive lines_of : list Fwutil.record -> list string -> Prop :=
| lines_nil : lines_of [] []
| lines_cons (r : Fwutil.record) (rs : list Fwutil.record)
    (line : string) (ls : list string) :
    Srec.S3 (Fwutil.address r) (Fwutil.data r)
    = Ok (line ++ Srec.newline)%string ->
    lines_of rs ls ->
    lines_of (r :: rs) (line :: ls).

(** A response of type [ty] with payload [p] to the request numbered
    [s], as a frame on the wire. *)
Definition response (s ty : Z) (p : list byte) : list byte :=
  pad46 (put_u16 s ++ put_u16 (Z.of_nat (length p)) ++ put_u16 ty ++ p).

(** The type field of a frame (bytes 4..5). *)
Definition frame_type (frame : list byte) : Z :=
  be_value 0 (firstn 2 (skipn 4 frame)).

(** A line the S-record parser does not accept. *)
Definition malformed (line : string) : Prop :=
  forall v, Srec.ParseGeneric line <> Ok v.

(* ===================================================================== *)
(** * Properties *)
(* ===================================================================== *)

(** ** Bytes and words *)

Lemma byte_to_Z_range (b : byte) : 0 <= byte_to_Z b < 256.
Proof.
  unfold byte_to_Z. pose proof (Byte.to_N_bounded b) as H.
  split; [apply N2Z.is_nonneg | lia].
Qed.

Lemma byte_to_of_Z (z : Z) : byte_to_Z (byte_of_Z z) = z mod 256.
Proof.
  unfold byte_to_Z, byte_of_Z.
  pose proof (Z.mod_pos_bound z 256 ltac:(lia)) as Hr.
  destruct (Byte.of_N (Z.to_N (z mod 256))) as [b|] eqn:E.
  - apply Byte.to_of_N in E. rewrite E. lia.
  - apply Byte.of_N_None_iff in E. lia.
Qed.

Lemma byte_of_to_Z (b : byte) : byte_of_Z (byte_to_Z b) = b.
Proof.
  unfold byte_of_Z.
  rewrite Z.mod_small by apply byte_to_Z_range.
  unfold byte_to_Z. rewrite N2Z.id, Byte.of_to_N. reflexivity.
Qed.

Lemma be_value_put_u16 (v : Z) : be_value 0 (put_u16 v) = v mod 2 ^ 16.
Proof.
  unfold put_u16. cbn [be_value].
  rewrite !byte_to_of_Z, Z.shiftr_div_pow2 by lia.
  change (2 ^ 8) with 256. change (2 ^ 16) with 65536.
  Z.div_mod_to_equations. lia.
Qed.

Lemma be_value_put_u32 (v : Z) : be_value 0 (put_u32 v) = v mod 2 ^ 32.
Proof.
  unfold put_u32. cbn [be_value].
  rewrite !byte_to_of_Z, !Z.shiftr_div_pow2 by lia.
  change (2 ^ 8) with 256. change (2 ^ 16) with 65536.
  change (2 ^ 24) with 16777216. change (2 ^ 32) with 4294967296.
  Z.div_mod_to_equations. lia.
Qed.

(** ** Slices *)

Lemma len_nonneg (s : slice) : 0 <= len s.
Proof. unfold len. lia. Qed.

Lemma len_le_cap (s : slice) : len s <= cap s.
Proof. unfold len, cap. lia. Qed.

Lemma cap_exact (bs : list byte) : cap (exact bs) = len (exact bs).
Proof. unfold cap, len. simpl. lia. Qed.

Lemma sub_ok (s : slice) (lo hi : Z) :
  0 <= lo -> lo <= hi -> hi <= cap s ->
  sub s lo hi =
  Ok (mkSlice (firstn (Z.to_nat (hi - lo)) (skipn (Z.to_nat lo) (backing s)))
              (skipn (Z.to_nat hi) (backing s))).
Proof.
  intros H0 H1 H2. unfold sub.
  destruct (0 <=? lo) eqn:E0; [| lia].
  destruct (lo <=? hi) eqn:E1; [| lia].
  destruct (hi <=? cap s) eqn:E2; [| lia].
  reflexivity.
Qed.

Lemma sub_bad (s : slice) (lo hi : Z) :
  lo < 0 \/ hi < lo \/ cap s < hi -> sub s lo hi = Panic SliceBoundsOutOfRange.
Proof.
  intros H. unfold sub.
  destruct (0 <=? lo) eqn:E0; [| reflexivity].
  destruct (lo <=? hi) eqn:E1; [| reflexivity].
  destruct (hi <=? cap s) eqn:E2; [lia | reflexivity].
Qed.

(** Within the length, a slice expression sees the visible bytes only. *)
Lemma sub_within (s : slice) (lo hi : Z) :
  0 <= lo -> lo <= hi -> hi <= len s ->
  exists sp,
    sub s lo hi =
    Ok (mkSlice (firstn (Z.to_nat (hi - lo)) (skipn (Z.to_nat lo) (elems s))) sp)
    /\ length (firstn (Z.to_nat (hi - lo)) (skipn (Z.to_nat lo) (elems s)))
       = Z.to_nat (hi - lo).
Proof.
  intros H0 H1 H2. pose proof (len_le_cap s) as Hc.
  exists (skipn (Z.to_nat hi) (backing s)).
  rewrite sub_ok by lia. unfold backing, len in *.
  rewrite skipn_app, firstn_app, length_skipn.
  replace (Z.to_nat (hi - lo) - (length (elems s) - Z.to_nat lo))%nat with 0%nat by lia.
  rewrite firstn_O, app_nil_r. split; [reflexivity |].
  rewrite length_firstn, length_skipn. lia.
Qed.

Lemma at_ok (s : slice) (i : Z) :
  0 <= i < len s -> exists b, at_ s i = Ok b.
Proof.
  intros H. unfold at_, len in *.
  destruct (0 <=? i) eqn:E0; [| lia].
  destruct (i <? Z.of_nat (length (elems s))) eqn:E1; [| lia].
  simpl. destruct (nth_error (elems s) (Z.to_nat i)) eqn:E.
  - eauto.
  - apply nth_error_None in E. lia.
Qed.

Lemma at_bad (s : slice) (i : Z) :
  len s <= i -> at_ s i = Panic IndexOutOfRange.
Proof.
  intros H. unfold at_.
  destruct (i <? len s) eqn:E; [lia |].
  rewrite andb_false_r. reflexivity.
Qed.

Lemma Uint16_ok (b : slice) :
  2 <= len b -> Uint16 b = Ok (be_value 0 (firstn 2 (elems b))).
Proof.
  intros H. unfold Uint16.
  destruct (at_ok b 1 ltac:(lia)) as [x ->]. reflexivity.
Qed.

Lemma Uint32_ok (b : slice) :
  4 <= len b -> Uint32 b = Ok (be_value 0 (firstn 4 (elems b))).
Proof.
  intros H. unfold Uint32.
  destruct (at_ok b 3 ltac:(lia)) as [x ->]. reflexivity.
Qed.

(** Reading a big-endian word out of the visible part of a slice. *)
Lemma read_u16 (s : slice) (lo : Z) :
  0 <= lo -> lo + 2 <= len s ->
  exists w, sub s lo (lo + 2) = Ok w /\
            Uint16 w = Ok (be_value 0 (firstn 2 (skipn (Z.to_nat lo) (elems s)))).
Proof.
  intros H0 H1. destruct (sub_within s lo (lo + 2)) as (sp & E & L); try lia.
  eexists. split; [exact E |].
  replace (lo + 2 - lo) with 2 in * by lia.
  rewrite Uint16_ok by (unfold len; cbn [elems]; rewrite L; lia).
  cbn [elems]. rewrite firstn_firstn. reflexivity.
Qed.

Lemma read_u32 (s : slice) (lo : Z) :
  0 <= lo -> lo + 4 <= len s ->
  exists w, sub s lo (lo + 4) = Ok w /\
            Uint32 w = Ok (be_value 0 (firstn 4 (skipn (Z.to_nat lo) (elems s)))).
Proof.
  intros H0 H1. destruct (sub_within s lo (lo + 4)) as (sp & E & L); try lia.
  eexists. split; [exact E |].
  replace (lo + 4 - lo) with 4 in * by lia.
  rewrite Uint32_ok by (unfold len; cbn [elems]; rewrite L; lia).
  cbn [elems]. rewrite firstn_firstn. reflexivity.
Qed.

Lemma skipn_length_app {A : Type} (a b : list A) : skipn (length a) (a ++ b) = b.
Proof. induction a as [| x a IH]; [reflexivity | exact IH]. Qed.

Lemma firstn_length_app {A : Type} (a b : list A) : firstn (length a) (a ++ b) = a.
Proof. induction a as [| x a IH]; [reflexivity | cbn; f_equal; exact IH]. Qed.

(** Cutting a known middle part out of a slice. *)
Lemma sub_middle (pre mid post sp : list byte) (lo hi : Z) :
  lo = Z.of_nat (length pre) ->
  hi = lo + Z.of_nat (length mid) ->
  sub (mkSlice (pre ++ mid ++ post) sp) lo hi = Ok (mkSlice mid (post ++ sp)).
Proof.
  intros -> ->.
  rewrite sub_ok; try lia.
  2:{ unfold cap. cbn [elems spare]. rewrite !length_app. lia. }
  unfold backing. cbn [elems spare].
  replace (Z.of_nat (length pre) + Z.of_nat (length mid) - Z.of_nat (length pre))
    with (Z.of_nat (length mid)) by lia.
  rewrite <- Nat2Z.inj_add, !Nat2Z.id.
  f_equal. f_equal.
  - rewrite <- !app_assoc, skipn_length_app, firstn_length_app. reflexivity.
  - rewrite <- length_app.
    replace ((pre ++ mid ++ post) ++ sp) with ((pre ++ mid) ++ post ++ sp)
      by (rewrite <- !app_assoc; reflexivity).
    apply skipn_length_app.
Qed.

(** ** Frame codecs *)

Lemma len_sub (s w : slice) (lo hi : Z) :
  sub s lo hi = Ok w -> len w = hi - lo.
Proof.
  unfold sub. intros H.
  destruct (0 <=? lo) eqn:E0; [| discriminate].
  destruct (lo <=? hi) eqn:E1; [| discriminate].
  destruct (hi <=? cap s) eqn:E2; [| discriminate].
  injection H as <-. unfold len, cap, backing in *. cbn [elems].
  rewrite length_firstn, length_skipn, length_app. lia.
Qed.

(** With the fixed header present, the operational parser comes down to
    the slice expression that cuts out the payload. *)
Lemma ParseMessage_header (data : slice) :
  8 <= len data ->
  exists ty seq st,
    Ebm.ParseMessage data =
    bind (sub data 8 ((Ebm.frame_len (elems data) + 8) mod 2 ^ 16))
         (fun pl => Ok (Ebm.mkMessage ty seq st pl)).
Proof.
  intros H. unfold Ebm.ParseMessage, Ebm.frame_len.
  destruct (len data <? 7) eqn:E; [lia |].
  destruct (at_ok data 0 ltac:(lia)) as [ty ->].
  destruct (read_u32 data 1) as (w1 & E1 & V1); try lia.
  destruct (read_u16 data 5) as (w2 & E2 & V2); try lia.
  change (1 + 4) with 5 in E1. change (5 + 2) with 7 in E2.
  destruct (at_ok data 7 ltac:(lia)) as [st E7].
  cbn [bind]. rewrite E1. cbn [bind]. rewrite V1. cbn [bind].
  rewrite E2. cbn [bind]. rewrite V2. cbn [bind]. rewrite E7. cbn [bind].
  do 3 eexists. reflexivity.
Qed.

Lemma parseMessage_header (data : slice) :
  6 <= len data ->
  exists seq ty,
    Bootloader.parseMessage data =
    bind (sub data 6 ((Bootloader.frame_len (elems data) + 6) mod 2 ^ 16))
         (fun pl => Ok (Bootloader.mkmessage seq ty pl)).
Proof.
  intros H. unfold Bootloader.parseMessage, Bootloader.frame_len.
  destruct (len data <? 6) eqn:E; [lia |].
  destruct (read_u16 data 0) as (w0 & E0 & V0); try lia.
  destruct (read_u16 data 2) as (w1 & E1 & V1); try lia.
  destruct (read_u16 data 4) as (w2 & E2 & V2); try lia.
  change (0 + 2) with 2 in E0. change (2 + 2) with 4 in E1.
  change (4 + 2) with 6 in E2.
  rewrite E0. cbn [bind]. rewrite V0. cbn [bind].
  rewrite E1. cbn [bind]. rewrite V1. cbn [bind].
  rewrite E2. cbn [bind]. rewrite V2. cbn [bind].
  do 2 eexists. reflexivity.
Qed.

(** C1 (as the code has it). The operational parser returns the error
    [too short message] for every input shorter than 7 bytes, the
    bootloader parser for every input shorter than 6 bytes. Once the
    fixed header (8, resp. 6 bytes) is present no error value is ever
    returned: with [hi] the declared payload length plus the header size,
    evaluated in 16 bits, the parser succeeds with a payload of [hi]
    minus the header size bytes when [hi] lies between the header size
    and the capacity of the input buffer, and it stops with a
    slice-bounds run-time panic otherwise. There is no truncated-payload
    error. *)
Theorem frame_decode_outcomes (data : slice) :
  (len data < 7 -> Ebm.ParseMessage data = Err "too short message") /\
  (8 <= len data ->
     let hi := (Ebm.frame_len (elems data) + 8) mod 2 ^ 16 in
     (8 <= hi <= cap data ->
        exists m, Ebm.ParseMessage data = Ok m /\ len (Ebm.Payload m) = hi - 8) /\
     (hi < 8 \/ cap data < hi ->
        Ebm.ParseMessage data = Panic SliceBoundsOutOfRange)) /\
  (len data < 6 -> Bootloader.parseMessage data = Err "too short message") /\
  (6 <= len data ->
     let hi := (Bootloader.frame_len (elems data) + 6) mod 2 ^ 16 in
     (6 <= hi <= cap data ->
        exists m, Bootloader.parseMessage data = Ok m
                  /\ len (Bootloader.Payload m) = hi - 6) /\
     (hi < 6 \/ cap data < hi ->
        Bootloader.parseMessage data = Panic SliceBoundsOutOfRange)).
Proof.
  split; [| split; [| split]].
  - intros H. unfold Ebm.ParseMessage.
    destruct (len data <? 7) eqn:E; [reflexivity | lia].
  - intros H hi.
    destruct (ParseMessage_header data H) as (ty & seq & st & ->). fold hi.
    split; intros Hhi.
    + rewrite sub_ok by lia. cbn [bind]. eexists. split; [reflexivity |].
      cbn [Ebm.Payload]. eapply len_sub. apply sub_ok; lia.
    + rewrite sub_bad by lia. reflexivity.
  - intros H. unfold Bootloader.parseMessage.
    destruct (len data <? 6) eqn:E; [reflexivity | lia].
  - intros H hi.
    destruct (parseMessage_header data H) as (seq & ty & ->). fold hi.
    split; intros Hhi.
    + rewrite sub_ok by lia. cbn [bind]. eexists. split; [reflexivity |].
      cbn [Bootloader.Payload]. eapply len_sub. apply sub_ok; lia.
    + rewrite sub_bad by lia. reflexivity.
Qed.

Lemma frame_decode_outcomes_witness :
  Ebm.ParseMessage (exact [x06; x00; x00]) = Err "too short message" /\
  Ebm.ParseMessage (exact truncated_op) = Panic SliceBoundsOutOfRange /\
  (exists m, Ebm.ParseMessage (mkSlice truncated_op [x00; x00; x00; x00]) = Ok m
             /\ len (Ebm.Payload m) = 4) /\
  Bootloader.parseMessage (exact [x00; x01]) = Err "too short message" /\
  Bootloader.parseMessage (exact truncated_boot) = Panic SliceBoundsOutOfRange.
Proof.
  split; [| split; [| split; [| split]]].
  - apply (proj1 (frame_decode_outcomes (exact [x06; x00; x00]))).
    vm_compute. reflexivity.
  - apply (proj1 (proj2 (frame_decode_outcomes (exact truncated_op)))).
    + vm_compute. discriminate.
    + right. vm_compute. reflexivity.
  - apply (proj1 (proj2 (frame_decode_outcomes
                           (mkSlice truncated_op [x00; x00; x00; x00])))).
    + vm_compute. discriminate.
    + vm_compute. split; discriminate.
  - apply (proj1 (proj2 (proj2 (frame_decode_outcomes (exact [x00; x01]))))).
    vm_compute. reflexivity.
  - apply (proj2 (proj2 (proj2 (frame_decode_outcomes (exact truncated_boot))))).
    + vm_compute. discriminate.
    + right. vm_compute. reflexivity.
Defined.

(** C1 (as stated) fails: no input gets a truncated-payload error. A
    7-byte operational frame passes the length check and the read of the
    status byte goes out of range; an 8-byte operational frame and a
    6-byte bootloader frame that declare 4 payload bytes end in a
    slice-bounds panic; and when the receive buffer has spare capacity
    the same truncated frame is accepted, the payload being taken from
    beyond the received bytes. *)
Lemma frame_decode_counterexample :
  (len (exact (firstn 7 truncated_op)) < 8 /\
   Ebm.ParseMessage (exact (firstn 7 truncated_op)) = Panic IndexOutOfRange) /\
  (Ebm.frame_len truncated_op + 8 > len (exact truncated_op) /\
   Ebm.ParseMessage (exact truncated_op) = Panic SliceBoundsOutOfRange) /\
  (Bootloader.frame_len truncated_boot + 6 > len (exact truncated_boot) /\
   Bootloader.parseMessage (exact truncated_boot) = Panic SliceBoundsOutOfRange) /\
  (Ebm.frame_len truncated_op + 8 > len (mkSlice truncated_op [x0a; x0b; x0c; x0d]) /\
   Ebm.ParseMessage (mkSlice truncated_op [x0a; x0b; x0c; x0d])
   = Ok (Ebm.mkMessage x06 42 xff (exact [x0a; x0b; x0c; x0d]))).
Proof.
  repeat split; vm_compute; reflexivity.
Qed.

(** C10. Marshalling an operational message never returns an error: for
    every message, whatever the size of its payload, [MarshalBinary]
    returns a frame, and the payload-length field of that frame is the
    payload byte count modulo 2^16. The bootloader marshaller returns
    an error for every payload of more than 65535 bytes. *)
Theorem operational_marshal_never_fails
    (m : Ebm.Message) (b : Bootloader.message) :
  (exists frame,
     Ebm.Message_MarshalBinary m = Ok frame /\
     Ebm.frame_len frame = len (Ebm.Payload m) mod 2 ^ 16) /\
  (len (Bootloader.Payload b) > 65535 ->
     Bootloader.MarshalBinary b = Err "payload larger than 2^16, invalid").
Proof.
  split.
  - eexists. split; [reflexivity |].
    unfold Ebm.frame_len, pad46, put_u32. cbn [app skipn firstn].
    rewrite <- app_assoc. unfold put_u16 at 1. cbn [app skipn firstn].
    change [byte_of_Z (Z.shiftr (len (Ebm.Payload m) mod 2 ^ 16) 8);
            byte_of_Z (len (Ebm.Payload m) mod 2 ^ 16)]
      with (put_u16 (len (Ebm.Payload m) mod 2 ^ 16)).
    rewrite be_value_put_u16. apply Z.mod_mod. lia.
  - intros H. unfold Bootloader.MarshalBinary, Bootloader.MaxUint16.
    destruct (len (Bootloader.Payload b) >? 65535) eqn:E; [reflexivity | lia].
Qed.

Lemma operational_marshal_never_fails_witness :
  (exists frame,
     Ebm.Message_MarshalBinary (Ebm.mkMessage x06 2 xff oversized) = Ok frame /\
     Ebm.frame_len frame = 3) /\
  Bootloader.MarshalBinary (Bootloader.mkmessage 1 18 oversized)
  = Err "payload larger than 2^16, invalid".
Proof.
  pose proof (operational_marshal_never_fails
                (Ebm.mkMessage x06 2 xff oversized)
                (Bootloader.mkmessage 1 18 oversized)) as [H1 H2].
  split.
  - exact H1.
  - apply H2. vm_compute. reflexivity.
Defined.

(** ** OID codec *)

Lemma length_put_u32 (v : Z) : length (put_u32 v) = 4%nat.
Proof. reflexivity. Qed.

Lemma length_write_oidRequest (o : Ebm.OID) :
  length (Ebm.write_oidRequest o) = 24%nat.
Proof. unfold Ebm.write_oidRequest. destruct (Ebm.OID_ o) as [[a b] c]. reflexivity. Qed.

(** The six words of the header, read back. *)
Lemma oidRequest_words (o : Ebm.OID) :
  word_at (Ebm.write_oidRequest o) 0 = fst (fst (Ebm.OID_ o)) mod 2 ^ 32 /\
  word_at (Ebm.write_oidRequest o) 1 = snd (fst (Ebm.OID_ o)) mod 2 ^ 32 /\
  word_at (Ebm.write_oidRequest o) 2 = snd (Ebm.OID_ o) mod 2 ^ 32 /\
  word_at (Ebm.write_oidRequest o) 3 = Ebm.Offset o mod 2 ^ 32 /\
  word_at (Ebm.write_oidRequest o) 4 = Ebm.Length o mod 2 ^ 32 /\
  word_at (Ebm.write_oidRequest o) 5 = Ebm.OType o mod 2 ^ 32.
Proof.
  unfold Ebm.write_oidRequest, word_at.
  destruct (Ebm.OID_ o) as [[a b] c]. cbn [fst snd].
  repeat split.
  - change (firstn 4 (skipn (4 * 0) (put_u32 a ++ ?r))) with (put_u32 a).
    apply be_value_put_u32.
  - change (firstn 4 (skipn (4 * 1) (put_u32 a ++ put_u32 b ++ ?r)))
      with (put_u32 b).
    apply be_value_put_u32.
  - change (firstn 4 (skipn (4 * 2) (put_u32 a ++ put_u32 b ++ put_u32 c ++ ?r)))
      with (put_u32 c).
    apply be_value_put_u32.
  - change (firstn 4 (skipn (4 * 3)
              (put_u32 a ++ put_u32 b ++ put_u32 c ++ put_u32 (Ebm.Offset o) ++ ?r)))
      with (put_u32 (Ebm.Offset o)).
    apply be_value_put_u32.
  - change (firstn 4 (skipn (4 * 4)
              (put_u32 a ++ put_u32 b ++ put_u32 c ++ put_u32 (Ebm.Offset o)
               ++ put_u32 (Ebm.Length o) ++ ?r)))
      with (put_u32 (Ebm.Length o)).
    apply be_value_put_u32.
  - change (firstn 4 (skipn (4 * 5)
              (put_u32 a ++ put_u32 b ++ put_u32 c ++ put_u32 (Ebm.Offset o)
               ++ put_u32 (Ebm.Length o) ++ put_u32 (Ebm.OType o))))
      with (put_u32 (Ebm.OType o)).
    apply be_value_put_u32.
Qed.

(** C2 (as the code has it). Marshalling an OID without a value never
    fails and produces the six-word, 24-byte big-endian wire form: the
    three identifier words, the offset, the length and the type as
    [uint32]; no reserved word follows. *)
Theorem oid_marshal_six_words (o : Ebm.OID) :
  exists bs,
    Ebm.OID_MarshalBinary o = Ok bs /\
    length bs = 24%nat /\
    word_at bs 0 = fst (fst (Ebm.OID_ o)) mod 2 ^ 32 /\
    word_at bs 1 = snd (fst (Ebm.OID_ o)) mod 2 ^ 32 /\
    word_at bs 2 = snd (Ebm.OID_ o) mod 2 ^ 32 /\
    word_at bs 3 = Ebm.Offset o mod 2 ^ 32 /\
    word_at bs 4 = Ebm.Length o mod 2 ^ 32 /\
    word_at bs 5 = Ebm.OType o mod 2 ^ 32.
Proof.
  eexists. split; [reflexivity |].
  split; [apply length_write_oidRequest | apply oidRequest_words].
Qed.

(** C2 (as stated) fails: the OID with identifiers (11,21,0), length 1
    and type uint32 marshals to 24 bytes, not 32. *)
Lemma oid_marshal_counterexample :
  Ebm.OID_MarshalBinary (Ebm.mkOID (11, 21, 0) 1 0 Ebm.TypeUint32 0)
  = Ok (firstn 24 ticks_response) /\
  length (firstn 24 ticks_response) <> 32%nat.
Proof. split; [vm_compute; reflexivity | vm_compute; discriminate]. Qed.

(** C3 (as the code has it). Every input shorter than 24 bytes, the size
    of the six-word OID header, fails to parse with an error. *)
Theorem parse_oid_short_fails (d : slice) :
  len d < 24 -> exists e, Ebm.ParseOID d = Err e.
Proof.
  intros H. unfold Ebm.ParseOID, Ebm.oidRequest_size.
  destruct (len d =? 0); [eauto |].
  destruct (len d <? 24) eqn:E; [eauto | lia].
Qed.

Lemma parse_oid_short_fails_witness :
  exists e, Ebm.ParseOID (exact (firstn 10 ticks_response)) = Err e.
Proof.
  apply (parse_oid_short_fails (exact (firstn 10 ticks_response))).
  vm_compute. reflexivity.
Defined.

(** C3 (as stated) fails: a 28-byte read response, shorter than 32
    bytes, parses to the value 256. *)
Lemma parse_oid_counterexample :
  len (exact ticks_response) < 32 /\
  Ebm.ParseOID (exact ticks_response) = Ok (Ebm.VUint32 256).
Proof. split; vm_compute; reflexivity. Qed.

Lemma oidRequest_fields (o : Ebm.OID) (payload : list byte) :
  firstn 4 (skipn 16 (Ebm.write_oidRequest o ++ payload)) = put_u32 (Ebm.Length o) /\
  firstn 4 (skipn 20 (Ebm.write_oidRequest o ++ payload)) = put_u32 (Ebm.OType o).
Proof.
  unfold Ebm.write_oidRequest. destruct (Ebm.OID_ o) as [[a b] c].
  split; reflexivity.
Qed.

Lemma from_header (o : Ebm.OID) (payload sp : list byte) :
  from (mkSlice (Ebm.write_oidRequest o ++ payload) sp) 24
  = Ok (mkSlice payload sp).
Proof.
  unfold from.
  rewrite <- (app_nil_r payload) at 1.
  rewrite (sub_middle (Ebm.write_oidRequest o) payload [] sp 24).
  - reflexivity.
  - rewrite length_write_oidRequest. reflexivity.
  - unfold len. cbn [elems]. rewrite !length_app, length_write_oidRequest.
    cbn [length]. lia.
Qed.

Lemma whole (bs sp : list byte) (n : Z) :
  n = Z.of_nat (length bs) -> sub (mkSlice bs sp) 0 n = Ok (mkSlice bs sp).
Proof.
  intros ->.
  change (mkSlice bs sp) with (mkSlice ([] ++ bs) sp) at 1.
  rewrite <- (app_nil_r bs) at 1.
  rewrite (sub_middle [] bs [] sp 0); reflexivity.
Qed.

Lemma TrimRight_zeros (n : nat) : Ebm.TrimRight (repeat x00 n) = [].
Proof. induction n as [| n IH]; [reflexivity |]. cbn. rewrite IH. reflexivity. Qed.

Lemma TrimRight_padded (s : list byte) (n : nat) :
  Ebm.TrimRight (s ++ repeat x00 n) = Ebm.TrimRight s.
Proof.
  induction s as [| b s IH]; [apply TrimRight_zeros |].
  cbn [app Ebm.TrimRight]. rewrite IH. reflexivity.
Qed.

(** Through the header of a marshalled OID the parser reaches the switch
    on the type with the length and type that were written. *)
Lemma ParseOID_marshalled (o : Ebm.OID) (payload sp : list byte) :
  0 <= Ebm.Length o < 2 ^ 32 ->
  0 <= Ebm.OType o < 2 ^ 32 ->
  Ebm.ParseOID (mkSlice (Ebm.write_oidRequest o ++ payload) sp)
  = let pl := mkSlice payload sp in
    match Ebm.OType o with
    | 0 => bind (upto pl 4) (fun p => bind (Uint32 p) (fun v => Ok (Ebm.VUint32 v)))
    | 2 => bind (upto pl 4) (fun p => bind (Uint32 p) (fun v => Ok (Ebm.VUint32 v)))
    | 4 => if Ebm.Length o =? 1
           then bind (at_ pl 0) (fun b => Ok (Ebm.VUint8 b))
           else bind (sub pl 0 (Ebm.Length o)) (fun p => Ok (Ebm.VBytes p))
    | 6 => bind (sub pl 0 (Ebm.Length o))
                (fun p => Ok (Ebm.VString (Ebm.TrimRight (elems p))))
    | 7 => bind (at_ pl 0) (fun b => Ok (Ebm.VBool (Byte.eqb b x01)))
    | _ => Err ("unknown type " ++ Ebm.oidTypeDesc (Ebm.OType o))
    end.
Proof.
  intros HL HT. unfold Ebm.ParseOID, Ebm.oidRequest_size.
  assert (Hlen : len (mkSlice (Ebm.write_oidRequest o ++ payload) sp)
                 = 24 + Z.of_nat (length payload)).
  { unfold len. cbn [elems]. rewrite length_app, length_write_oidRequest. lia. }
  destruct (len _ =? 0) eqn:E0; [lia |].
  destruct (len _ <? 24) eqn:E1; [lia |].
  cbn [elems]. destruct (oidRequest_fields o payload) as [-> ->].
  rewrite from_header, !be_value_put_u32, !Z.mod_small by lia.
  cbn [bind]. reflexivity.
Qed.

(** X9. Every pairing of OID and value other than uint16 that the codec
    supports round-trips, whatever the spare capacity of the marshalled
    buffer: a uint32 in range, a uint8 scalar for an OID of length 1, a
    byte array of exactly the OID's length for an OID of another length,
    a bool, and a string no longer than the OID's length, which comes
    back without its trailing NULs and spaces. *)
Lemma roundtrip_carried (o : Ebm.OID) (v : Ebm.value) (bs sp : list byte) :
  carried o v ->
  Ebm.MarshalOID o v = Ok bs ->
  exists w, Ebm.ParseOID (mkSlice bs sp) = Ok w /\ same_value v w.
Proof.
  intros [HL Hc] Hm. unfold Ebm.MarshalOID in Hm.
  destruct v as [x | x | b | a | s | b | t]; cbn in Hc; try contradiction.
  - destruct Hc as [Ht Hx]. rewrite Ht in Hm. cbn in Hm. injection Hm as <-.
    rewrite ParseOID_marshalled by (rewrite ?Ht; unfold Ebm.TypeUint32; lia).
    rewrite Ht. cbn zeta. cbn [Ebm.TypeUint32]. unfold upto.
    rewrite whole by reflexivity. cbn [bind].
    rewrite Uint32_ok by (unfold len; cbn; lia). cbn [bind elems].
    change (firstn 4 (put_u32 x)) with (put_u32 x).
    rewrite be_value_put_u32, Z.mod_small by lia.
    eexists. split; reflexivity.
  - destruct Hc as [Ht H1]. rewrite Ht in Hm. cbn in Hm. injection Hm as <-.
    rewrite ParseOID_marshalled by (rewrite ?Ht; unfold Ebm.TypeUint8; lia).
    rewrite Ht, H1. eexists. split; reflexivity.
  - destruct Hc as (Ht & H1 & Hlen). rewrite Ht in Hm. cbn in Hm.
    injection Hm as <-.
    rewrite ParseOID_marshalled by (rewrite ?Ht; unfold Ebm.TypeUint8; lia).
    rewrite Ht. cbn zeta. cbn [Ebm.TypeUint8].
    destruct (Ebm.Length o =? 1) eqn:E; [lia |].
    rewrite whole by (unfold len in Hlen; lia). cbn [bind].
    eexists. split; reflexivity.
  - destruct Hc as [Ht Hs]. rewrite Ht in Hm. cbn in Hm. injection Hm as <-.
    rewrite ParseOID_marshalled by (rewrite ?Ht; unfold Ebm.TypeString; lia).
    rewrite Ht. cbn zeta. cbn [Ebm.TypeString].
    rewrite whole by (rewrite length_app, repeat_length; lia). cbn [bind elems].
    rewrite TrimRight_padded. eexists. split; reflexivity.
  - rewrite Hc in Hm. cbn in Hm.
    destruct b; injection Hm as <-;
      (rewrite ParseOID_marshalled by (rewrite ?Hc; unfold Ebm.TypeBool; lia));
      rewrite Hc; eexists; split; reflexivity.
Qed.

(** No uint16 value other than 0 survives the round trip, whatever lies
    in the spare capacity of the marshalled bytes. *)
Lemma uint16_never_round_trips (o : Ebm.OID) (v : Z) (bs sp : list byte) :
  Ebm.OType o = Ebm.TypeUint16 ->
  0 <= Ebm.Length o < 2 ^ 32 ->
  0 < v < 2 ^ 16 ->
  Ebm.MarshalOID o (Ebm.VUint16 v) = Ok bs ->
  Ebm.ParseOID (mkSlice bs sp) <> Ok (Ebm.VUint32 v).
Proof.
  intros Ht HL Hv Hm. unfold Ebm.MarshalOID in Hm. rewrite Ht in Hm.
  cbn in Hm. injection Hm as <-.
  rewrite ParseOID_marshalled by (rewrite ?Ht; unfold Ebm.TypeUint16; lia).
  rewrite Ht. cbn zeta. cbn [Ebm.TypeUint16]. unfold upto.
  destruct sp as [| s0 [| s1 sp]].
  - rewrite sub_bad by (unfold cap; cbn; lia). discriminate.
  - rewrite sub_bad by (unfold cap; cbn; lia). discriminate.
  - rewrite sub_ok by (unfold cap; cbn [elems spare length put_u16]; lia).
    change (firstn (Z.to_nat (4 - 0)) (skipn (Z.to_nat 0)
              (backing (mkSlice (put_u16 v) (s0 :: s1 :: sp)))))
      with [byte_of_Z (Z.shiftr v 8); byte_of_Z v; s0; s1].
    cbn [bind]. rewrite Uint32_ok by (unfold len; cbn [elems length]; lia).
    cbn [bind elems firstn be_value]. intros [= H]. revert H.
    pose proof (be_value_put_u16 v) as Hb. unfold put_u16 in Hb.
    cbn [be_value] in Hb.
    rewrite Z.mod_small in Hb by lia.
    pose proof (byte_to_Z_range s0). pose proof (byte_to_Z_range s1).
    pose proof (byte_to_Z_range (byte_of_Z (Z.shiftr v 8))).
    pose proof (byte_to_Z_range (byte_of_Z v)).
    lia.
Qed.

(** C4 (the code at the failing input). A uint16 value is written in two
    bytes and read back through a four-byte slice of the payload: on a
    buffer without spare capacity the parse stops with a slice-bounds
    panic, and on the zero-filled spare capacity of a fresh buffer the
    value 1 comes back as 65536. *)
Theorem uint16_roundtrip_breaks :
  exists bs,
    Ebm.MarshalOID Ebm.OidPowerUpstream (Ebm.VUint16 1) = Ok bs /\
    length bs = 26%nat /\
    Ebm.ParseOID (exact bs) = Panic SliceBoundsOutOfRange /\
    Ebm.ParseOID (mkSlice bs (repeat x00 38)) = Ok (Ebm.VUint32 65536).
Proof.
  eexists. split; [reflexivity |]. repeat split; vm_compute; reflexivity.
Qed.

(** ** The operational reactor *)

Lemma frame_seq_marshal (m : Ebm.Message) :
  exists frame,
    Ebm.Message_MarshalBinary m = Ok frame /\
    Ebm.frame_seq frame = Ebm.SequenceNumber m mod 2 ^ 32.
Proof.
  eexists. split; [reflexivity |].
  unfold Ebm.frame_seq, pad46. cbn [app skipn].
  rewrite <- !app_assoc.
  change (firstn 4 (put_u32 (Ebm.SequenceNumber m) ++ ?r))
    with (put_u32 (Ebm.SequenceNumber m)).
  apply be_value_put_u32.
Qed.

Lemma rx_logger_keeps (c c' : Ebm.Conn) (res : Ebm.Message) (acts : list Ebm.action) :
  Ebm.rx_logger c res = (acts, Ebm.Continue c') -> c' = c /\ Ebm.frames acts = [].
Proof.
  unfold Ebm.rx_logger. intros H.
  destruct (bind (sub (Ebm.Payload res) 20 22) Uint16) as [t | e | p];
    [| discriminate | discriminate].
  destruct ((t =? 1) || (t =? 4)).
  - destruct (bind (sub (Ebm.Payload res) 24 28) Uint32) as [v | e | p];
      [| discriminate | discriminate].
    injection H as <- <-. destruct (t =? 1); auto.
  - injection H as <- <-. auto.
Qed.

Lemma rx_response_keeps (c c' : Ebm.Conn) (res : Ebm.Message) (acts : list Ebm.action) :
  Ebm.rx_response c res = (acts, Ebm.Continue c') ->
  Ebm.seqNo c' = Ebm.seqNo c /\
  (Ebm.curReq c' = Ebm.curReq c \/ Ebm.curReq c' = None) /\
  Ebm.frames acts = [].
Proof.
  unfold Ebm.rx_response. intros H.
  destruct (Ebm.curReq c) as [cur |] eqn:Ec.
  - destruct (Ebm.curReqTimer c); [discriminate |].
    injection H as <- <-. cbn [Ebm.seqNo Ebm.curReq].
    repeat split; auto.
    destruct (Ebm.SequenceNumber cur =? Ebm.SequenceNumber res); reflexivity.
  - injection H as <- <-. rewrite Ec. auto.
Qed.

(** Every turn but a successful original send leaves the counter alone,
    keeps or clears the in-flight request, and writes at most the
    in-flight request itself. *)
Lemma reactor_other (c c' : Ebm.Conn) (ev : Ebm.event) (acts : list Ebm.action) :
  (forall req, ev <> Ebm.ExchReq req true) ->
  Ebm.reactor c ev = (acts, Ebm.Continue c') ->
  Ebm.seqNo c' = Ebm.seqNo c /\
  (Ebm.curReq c' = Ebm.curReq c \/ Ebm.curReq c' = None) /\
  (Ebm.frames acts = [] \/
   exists cur frame, Ebm.curReq c = Some cur /\
                     Ebm.Message_MarshalBinary cur = Ok frame /\
                     Ebm.frames acts = [frame]).
Proof.
  intros Hev H. destruct ev as [rxMsg | | req [|] | ok]; cbn [Ebm.reactor] in H.
  - destruct (Ebm.ParseMessage rxMsg) as [res | e | p]; try discriminate.
    destruct (Byte.eqb (Ebm.Type_ res) Ebm.TypeConsoleOutput).
    { injection H as <- <-. auto. }
    destruct (Byte.eqb (Ebm.Type_ res) Ebm.TypeLoggerOutput).
    { apply rx_logger_keeps in H as [-> ->]. auto. }
    destruct (Byte.eqb (Ebm.Type_ res) Ebm.TypeDeviceDisconnect); [discriminate |].
    apply rx_response_keeps in H as (? & ? & ?). auto.
  - discriminate.
  - exfalso. eapply Hev. reflexivity.
  - injection H as <- <-. auto.
  - destruct (Ebm.curReqTimer c).
    { injection H as <- <-. auto. }
    destruct (Ebm.curReq c) as [cur |] eqn:Ec; [| discriminate].
    cbn [Ebm.Message_MarshalBinary] in H. destruct ok; injection H as <- <-;
      cbn [Ebm.seqNo Ebm.curReq Ebm.frames]; repeat split; auto.
    right. exists cur. eexists. repeat split; auto.
Qed.

Lemma reactor_numbered (n : Z) (c c' : Ebm.Conn) (ev : Ebm.event)
    (acts : list Ebm.action) :
  numbered n c ->
  Ebm.reactor c ev = (acts, Ebm.Continue c') ->
  numbered (n + Ebm.originals [ev]) c'.
Proof.
  intros [Hs Hc] H.
  assert (Hcases : (exists req, ev = Ebm.ExchReq req true) \/
                   (forall req, ev <> Ebm.ExchReq req true)).
  { destruct ev as [| | req [|] |]; try (right; intros; discriminate).
    left. eauto. }
  destruct Hcases as [[req ->] | Hother].
  - cbn [Ebm.reactor Ebm.Message_MarshalBinary] in H. injection H as <- <-.
    cbn [Ebm.originals]. split; cbn [Ebm.seqNo Ebm.curReq].
    + unfold Ebm.incr32. rewrite Hs.
      rewrite Zplus_mod_idemp_l. f_equal. lia.
    + intros cur [= <-]. cbn [Ebm.stamp Ebm.SequenceNumber].
      rewrite Hs. f_equal. lia.
  - destruct (reactor_other c c' ev acts Hother H) as (Es & Ec & _).
    replace (Ebm.originals [ev]) with 0.
    2:{ destruct ev as [| | req [|] |]; try reflexivity.
        exfalso. eapply Hother. reflexivity. }
    rewrite Z.add_0_r. split; [congruence |].
    intros cur Hcur. destruct Ec as [Ec | Ec]; rewrite Ec in Hcur;
      [auto | discriminate].
Qed.

Lemma originals_cons (ev : Ebm.event) (evs : list Ebm.event) :
  Ebm.originals (ev :: evs) = Ebm.originals [ev] + Ebm.originals evs.
Proof. destruct ev as [| | req [|] |]; cbn [Ebm.originals]; lia. Qed.

Lemma originals_app (evs1 evs2 : list Ebm.event) :
  Ebm.originals (evs1 ++ evs2) = Ebm.originals evs1 + Ebm.originals evs2.
Proof.
  induction evs1 as [| ev evs1 IH]; [reflexivity |].
  rewrite <- app_comm_cons, originals_cons, IH, (originals_cons ev evs1). lia.
Qed.

Lemma originals_nonneg (evs : list Ebm.event) : 0 <= Ebm.originals evs.
Proof.
  induction evs as [| ev evs IH]; [cbn; lia |].
  rewrite originals_cons. destruct ev as [| | req [|] |]; cbn [Ebm.originals]; lia.
Qed.

Lemma run_numbered (evs : list Ebm.event) :
  forall (n : Z) (c c' : Ebm.Conn) (acts : list Ebm.action),
    numbered n c ->
    Ebm.run c evs = (acts, Ebm.Continue c') ->
    numbered (n + Ebm.originals evs) c'.
Proof.
  induction evs as [| ev evs IH]; intros n c c' acts Hn H.
  - cbn in H. injection H as <- <-. cbn [Ebm.originals].
    rewrite Z.add_0_r. exact Hn.
  - cbn [Ebm.run] in H.
    destruct (Ebm.reactor c ev) as [acts1 [c1 | | p |]] eqn:E; try discriminate.
    destruct (Ebm.run c1 evs) as [acts2 nx] eqn:E2.
    injection H as <- ->.
    rewrite originals_cons, Z.add_assoc.
    eapply IH; [| exact E2].
    eapply reactor_numbered; eassumption.
Qed.

Lemma numbered_NewConn : numbered 0 Ebm.NewConn.
Proof. split; [reflexivity | intros cur H; discriminate]. Qed.

(** C5. The sequence counter of an operational session starts at 2.
    After any schedule of reactor turns containing [k] original sends
    that succeeded, the counter stands at [2 + k] (a [uint32], so modulo
    2^32). From there: a request whose send succeeds goes out stamped with
    the current counter value and advances the counter by one; a request
    whose send fails writes nothing and leaves the counter alone; a
    retransmission leaves the counter alone and carries the number
    [2 + (k - 1)] stamped on the latest original send; and no other turn
    changes the counter. Hence, short of the wrap-around at 2^32, the
    counter never decreases along a session. *)
Theorem sequence_counter_discipline :
  Ebm.seqNo Ebm.NewConn = 2 /\
  forall (evs : list Ebm.event) (acts : list Ebm.action) (c : Ebm.Conn),
    Ebm.run Ebm.NewConn evs = (acts, Ebm.Continue c) ->
    Ebm.seqNo c = (2 + Ebm.originals evs) mod 2 ^ 32 /\
    (forall req, exists frame,
        Ebm.reactor c (Ebm.ExchReq req true)
        = ([Ebm.WriteTo frame],
           Ebm.Continue (Ebm.mkConn (Ebm.incr32 (Ebm.seqNo c))
                                    (Some (Ebm.stamp req (Ebm.seqNo c)))
                                    Ebm.Armed))
        /\ Ebm.frame_seq frame = Ebm.seqNo c) /\
    (forall req, exists acts',
        Ebm.reactor c (Ebm.ExchReq req false) = (acts', Ebm.Continue c)
        /\ Ebm.frames acts' = []) /\
    (forall ok acts' c',
        Ebm.reactor c (Ebm.ReqTimer ok) = (acts', Ebm.Continue c') ->
        Ebm.seqNo c' = Ebm.seqNo c /\
        forall frame, In frame (Ebm.frames acts') ->
                      Ebm.frame_seq frame = (2 + (Ebm.originals evs - 1)) mod 2 ^ 32) /\
    (forall ev acts' c',
        (forall req, ev <> Ebm.ExchReq req true) ->
        Ebm.reactor c ev = (acts', Ebm.Continue c') ->
        Ebm.seqNo c' = Ebm.seqNo c) /\
    (forall evs' acts' c',
        Ebm.run c evs' = (acts', Ebm.Continue c') ->
        2 + Ebm.originals (evs ++ evs') < 2 ^ 32 ->
        Ebm.seqNo c <= Ebm.seqNo c').
Proof.
  split; [reflexivity |].
  intros evs acts c Hrun.
  pose proof (run_numbered evs 0 _ _ _ numbered_NewConn Hrun) as Hn.
  rewrite Z.add_0_l in Hn. destruct Hn as [Hs Hc].
  split; [exact Hs |]. split; [| split; [| split; [| split]]].
  - intros req.
    destruct (frame_seq_marshal (Ebm.stamp req (Ebm.seqNo c))) as (frame & E & Ef).
    exists frame. cbn [Ebm.reactor]. rewrite E. split; [reflexivity |].
    rewrite Ef. cbn [Ebm.stamp Ebm.SequenceNumber].
    rewrite Hs. apply Z.mod_mod. lia.
  - intros req. eexists. cbn [Ebm.reactor Ebm.Message_MarshalBinary].
    split; reflexivity.
  - intros ok acts' c' H.
    destruct (reactor_other c c' (Ebm.ReqTimer ok) acts'
                ltac:(intros; discriminate) H) as (Es & _ & Hf).
    split; [exact Es |]. intros frame Hin.
    destruct Hf as [Hf | (cur & fr & Ecur & Em & Hf)]; rewrite Hf in Hin.
    + destruct Hin.
    + destruct Hin as [<- | []].
      destruct (frame_seq_marshal cur) as (fr' & Em' & Ef).
      rewrite Em in Em'. injection Em' as <-.
      rewrite Ef, (Hc cur Ecur), Z.mod_mod by lia. f_equal. lia.
  - intros ev acts' c' Hev H.
    apply (reactor_other c c' ev acts' Hev H).
  - intros evs' acts' c' H Hb.
    pose proof (run_numbered evs' (Ebm.originals evs) c c' acts'
                  (conj Hs Hc) H) as [Hs' _].
    rewrite originals_app in Hb.
    pose proof (originals_nonneg evs). pose proof (originals_nonneg evs').
    rewrite Hs, Hs', !Z.mod_small by lia. lia.
Qed.

Lemma sequence_counter_discipline_witness :
  exists acts c,
    Ebm.run Ebm.NewConn two_requests = (acts, Ebm.Continue c) /\
    Ebm.seqNo c = 4 /\
    map Ebm.frame_seq (Ebm.frames acts) = [2; 2; 3].
Proof.
  destruct (Ebm.run Ebm.NewConn two_requests) as [acts nx] eqn:E.
  vm_compute in E. injection E as <- <-.
  do 2 eexists. split; [reflexivity |]. split.
  - apply (proj2 sequence_counter_discipline two_requests _ _ eq_refl).
  - vm_compute. reflexivity.
Defined.

(** C9. A received frame that the parser rejects as too short makes the
    reactor log that it ignores the message and then dereference the nil
    parse result: the turn ends in a nil-dereference panic, and with it
    the loop, whatever events were still to come. *)
Theorem malformed_frame_crashes_reactor
    (c : Ebm.Conn) (rxMsg : slice) (evs : list Ebm.event) :
  len rxMsg < 7 ->
  Ebm.ParseMessage rxMsg = Err "too short message" /\
  Ebm.run c (Ebm.RxMsg rxMsg :: evs)
  = ([Ebm.LogParseError "too short message"], Ebm.Crash NilDereference).
Proof.
  intros H.
  assert (E : Ebm.ParseMessage rxMsg = Err "too short message").
  { unfold Ebm.ParseMessage. destruct (len rxMsg <? 7) eqn:E; [reflexivity | lia]. }
  split; [exact E |].
  cbn [Ebm.run Ebm.reactor]. rewrite E. reflexivity.
Qed.

Lemma malformed_frame_crashes_reactor_witness :
  Ebm.run Ebm.NewConn (Ebm.RxMsg (exact [x60; x00; x00]) :: two_requests)
  = ([Ebm.LogParseError "too short message"], Ebm.Crash NilDereference).
Proof.
  apply (malformed_frame_crashes_reactor Ebm.NewConn (exact [x60; x00; x00])
           two_requests).
  vm_compute. reflexivity.
Defined.

(** ** The bootloader exchange *)

Section Tries.

Variable env : nat -> Bootloader.attempt.
Variable reqRaw : list byte.
Variable reqSeq : Z.

(** A retried turn writes the frame once more and passes the buffer on. *)
Lemma tries_step (left i : nat) (sent : list (list byte)) :
  retried_at env reqSeq i ->
  Bootloader.tries (S left) i env reqRaw reqSeq (Bootloader.buf_before env i) sent
  = Bootloader.tries left (S i) env reqRaw reqSeq
      (Bootloader.buf_before env (S i)) (sent ++ [reqRaw]).
Proof.
  unfold retried_at, Bootloader.retried. intros H.
  cbn [Bootloader.tries Bootloader.buf_before].
  destruct (env i) as [| | | frame]; try discriminate; [reflexivity |].
  destruct (Bootloader.read_into (Bootloader.buf_before env i) frame)
    as [buf' data] eqn:E.
  cbn [snd fst] in *.
  destruct (Bootloader.parseMessage data) as [res | e | p]; try discriminate.
  rewrite H. reflexivity.
Qed.

Lemma tries_exhausted (left : nat) :
  forall (i : nat) (sent : list (list byte)),
    (forall j, (i <= j < i + left)%nat -> retried_at env reqSeq j) ->
    Bootloader.tries left i env reqRaw reqSeq (Bootloader.buf_before env i) sent
    = (sent ++ repeat reqRaw left, Err no_response).
Proof.
  induction left as [| left IH]; intros i sent H.
  - cbn. rewrite app_nil_r. reflexivity.
  - rewrite tries_step by (apply H; lia).
    rewrite IH by (intros j Hj; apply H; lia).
    rewrite <- app_assoc. reflexivity.
Qed.

Lemma tries_answered (k : nat) :
  forall (left i : nat) (sent : list (list byte)) (frame : list byte)
         (res : Bootloader.message),
    (k < left)%nat ->
    (forall j, (i <= j < i + k)%nat -> retried_at env reqSeq j) ->
    env (i + k)%nat = Bootloader.Received frame ->
    Bootloader.parseMessage
      (snd (Bootloader.read_into (Bootloader.buf_before env (i + k)) frame))
    = Ok res ->
    Bootloader.SequenceNumber res = reqSeq ->
    Bootloader.tries left i env reqRaw reqSeq (Bootloader.buf_before env i) sent
    = (sent ++ repeat reqRaw (S k), Ok res).
Proof.
  induction k as [| k IH]; intros left i sent frame res Hk Hr He Hp Hs.
  - destruct left as [| left]; [lia |].
    rewrite Nat.add_0_r in *. cbn [Bootloader.tries]. rewrite He.
    destruct (Bootloader.read_into (Bootloader.buf_before env i) frame)
      as [buf' data] eqn:E.
    cbn [snd] in Hp. rewrite Hp, Hs, Z.eqb_refl. reflexivity.
  - destruct left as [| left]; [lia |].
    rewrite tries_step by (apply Hr; lia).
    replace (i + S k)%nat with (S i + k)%nat in * by lia.
    rewrite (IH left (S i) _ frame res); try assumption; try lia.
    + rewrite <- app_assoc. reflexivity.
    + intros j Hj. apply Hr. lia.
Qed.

Lemma tries_timed_out (left : nat) :
  forall (i : nat) (sent sent' : list (list byte)),
    Bootloader.tries left i env reqRaw reqSeq (Bootloader.buf_before env i) sent
    = (sent', Err no_response) ->
    (forall j, (i <= j < i + left)%nat -> retried_at env reqSeq j) /\
    sent' = sent ++ repeat reqRaw left.
Proof.
  induction left as [| left IH]; intros i sent sent' H.
  - cbn in H. injection H as <-. split; [intros; lia |].
    cbn. rewrite app_nil_r. reflexivity.
  - assert (Hi : retried_at env reqSeq i).
    { unfold retried_at, Bootloader.retried.
      cbn [Bootloader.tries] in H.
      destruct (env i) as [| | | frame]; try discriminate; [reflexivity |].
      destruct (Bootloader.read_into (Bootloader.buf_before env i) frame)
        as [buf' data] eqn:E.
      cbn [snd].
      destruct (Bootloader.parseMessage data) as [res | e | p]; try discriminate.
      destruct (negb (Bootloader.SequenceNumber res =? reqSeq));
        [reflexivity | discriminate]. }
    rewrite tries_step in H by exact Hi.
    apply IH in H as [Hr ->]. split.
    + intros j Hj. destruct (Nat.eq_dec j i) as [-> | Hne]; [exact Hi |].
      apply Hr. lia.
    + rewrite <- app_assoc. reflexivity.
Qed.

End Tries.

(** C6 (as the code has it). A response whose sequence number does not
    match the request's is dropped and ends the current turn of the retry
    loop exactly as an expired deadline does: the next turn writes the
    same frame again. So when each of the first [k < 5] writes is followed
    by an expired deadline or a mismatched response and the next one by a
    matching response, the exchange returns that response after [k + 1]
    writes of the one frame; and the exchange gives up with
    [no response after 5 tries] exactly when each of five writes was
    followed by an expired deadline or a mismatched response. *)
Theorem exchange_retries
    (c : Bootloader.conn) (req : Bootloader.message)
    (env : nat -> Bootloader.attempt) (reqRaw : list byte) :
  Bootloader.MarshalBinary
    (Bootloader.mkmessage (Bootloader.seqNo c) (Bootloader.Type_ req)
                          (Bootloader.Payload req)) = Ok reqRaw ->
  let c' := Bootloader.mkconn (Bootloader.addr c)
                              ((Bootloader.seqNo c + 1) mod 2 ^ 16) in
  (forall (k : nat) (frame : list byte) (res : Bootloader.message),
      (k < 5)%nat ->
      (forall j, (j < k)%nat -> retried_at env (Bootloader.seqNo c) j) ->
      env k = Bootloader.Received frame ->
      Bootloader.parseMessage
        (snd (Bootloader.read_into (Bootloader.buf_before env k) frame)) = Ok res ->
      Bootloader.SequenceNumber res = Bootloader.seqNo c ->
      Bootloader.Exchange c req env = (c', repeat reqRaw (S k), Ok res)) /\
  ((forall j, (j < 5)%nat -> retried_at env (Bootloader.seqNo c) j) <->
   Bootloader.Exchange c req env = (c', repeat reqRaw 5, Err no_response)) /\
  (forall sent,
      Bootloader.Exchange c req env = (c', sent, Err no_response) ->
      sent = repeat reqRaw 5).
Proof.
  intros Hm c'. unfold Bootloader.Exchange. rewrite Hm. fold c'.
  change (repeat x00 1600) with (Bootloader.buf_before env 0).
  split; [| split].
  - intros k frame res Hk Hr He Hp Hs.
    rewrite (tries_answered env reqRaw (Bootloader.seqNo c) k 5 0 [] frame res);
      auto.
    intros j Hj. apply Hr. lia.
  - split.
    + intros Hr. rewrite tries_exhausted; [reflexivity |].
      intros j Hj. apply Hr. lia.
    + intros H.
      destruct (Bootloader.tries 5 0 env reqRaw (Bootloader.seqNo c)
                  (Bootloader.buf_before env 0) []) as [sent r] eqn:E.
      injection H as -> ->.
      apply tries_timed_out in E as [Hr _].
      intros j Hj. apply Hr. lia.
  - intros sent H.
    destruct (Bootloader.tries 5 0 env reqRaw (Bootloader.seqNo c)
                (Bootloader.buf_before env 0) []) as [sent0 r] eqn:E.
    injection H as -> ->.
    apply tries_timed_out in E as [_ ->]. reflexivity.
Qed.

Lemma exchange_retries_witness :
  Bootloader.Exchange boot_conn downloadBegin always_stale
  = (Bootloader.mkconn (Bootloader.addr boot_conn) 8,
     repeat downloadBegin_frame 5, Err no_response).
Proof.
  apply (proj1 (proj2 (exchange_retries boot_conn downloadBegin always_stale
                         downloadBegin_frame eq_refl))).
  intros j Hj.
  destruct j as [| [| [| [| [| j]]]]]; try lia; vm_compute; reflexivity.
Defined.

(** C6 (as stated) fails: when a stale [Ack] arrives first and the
    matching [Ack] second, the request frame is written twice; the
    matching [Ack] is the answer to the second write. *)
Lemma exchange_counterexample :
  fst (Bootloader.Exchange boot_conn downloadBegin stale_then_match)
  = (Bootloader.mkconn (Bootloader.addr boot_conn) 8,
     [downloadBegin_frame; downloadBegin_frame]) /\
  exists res,
    snd (Bootloader.Exchange boot_conn downloadBegin stale_then_match) = Ok res
    /\ Bootloader.SequenceNumber res = 7.
Proof.
  split; [vm_compute; reflexivity |].
  set (r := snd (Bootloader.Exchange boot_conn downloadBegin stale_then_match)).
  vm_compute in r. subst r. eexists. split; reflexivity.
Qed.

(** ** The firmware pack header *)

Lemma sub_Ok_bounds (s w : slice) (lo hi : Z) :
  sub s lo hi = Ok w -> 0 <= lo /\ lo <= hi /\ hi <= cap s.
Proof.
  unfold sub. intros H.
  destruct (0 <=? lo) eqn:E0; [| discriminate].
  destruct (lo <=? hi) eqn:E1; [| discriminate].
  destruct (hi <=? cap s) eqn:E2; [| discriminate].
  lia.
Qed.

Lemma word_Ok_bounds (header : slice) (lo hi v : Z) :
  Fwutil.word header lo hi = Ok v -> hi <= cap header.
Proof.
  unfold Fwutil.word. intros H.
  destruct (sub header lo hi) as [w | e | p] eqn:E; try discriminate.
  apply sub_Ok_bounds in E. lia.
Qed.

Lemma word_no_error (header : slice) (lo hi : Z) (e : string) :
  Fwutil.word header lo hi <> Err e.
Proof.
  unfold Fwutil.word, sub, Uint32, at_.
  destruct ((0 <=? lo) && (lo <=? hi) && (hi <=? cap header)); cbn [bind];
    [| discriminate].
  match goal with |- context [if ?b then _ else _] => destruct b end;
    cbn [bind]; [| discriminate].
  match goal with |- context [nth_error ?l ?n] => destruct (nth_error l n) end;
    cbn [bind]; discriminate.
Qed.

(** The scan ends within the turns it is given: a turn that reads a
    slot needs the slot inside the backing array. *)
Lemma scan_ends (header : slice) (n : Z) (fuel : nat) :
  forall i : Z,
    (1 <= fuel)%nat ->
    cap header < (i + Z.of_nat fuel - 1) * 32 + 4 ->
    Fwutil.scan fuel header n i <> None.
Proof.
  induction fuel as [| fuel IH]; intros i Hf Hc; [lia |].
  cbn [Fwutil.scan].
  destruct (i <=? n); [| congruence].
  destruct (Fwutil.word header (i * 32) (i * 32 + 4)) as [v | e | p] eqn:E;
    try congruence.
  destruct (v =? 0x23210010); [congruence |].
  apply word_Ok_bounds in E.
  apply IH; lia.
Qed.

Lemma scan_total (header : slice) (n : Z) :
  Fwutil.scan (Fwutil.scan_fuel header) header n 1 <> None.
Proof.
  apply scan_ends; unfold Fwutil.scan_fuel; [lia |].
  pose proof (len_nonneg header). pose proof (len_le_cap header).
  rewrite Nat2Z.inj_succ, Z2Nat.id by (apply Z.div_pos; lia).
  pose proof (Z.mod_pos_bound (cap header) 32 ltac:(lia)).
  pose proof (Z.div_mod (cap header) 32 ltac:(lia)). lia.
Qed.

(** On a header with the right signature and version the count check
    decides by the product reduced modulo 2^32. *)
Lemma count_check (header : slice) (n : Z) :
  Fwutil.word header 0 4 = Ok 0x61232321 ->
  Fwutil.word header 16 20 = Ok 0x20000 ->
  Fwutil.word header 4 8 = Ok n ->
  (Fwutil.readHeader header = Err too_many <->
   (n * 32) mod 2 ^ 32 >= len header mod 2 ^ 32).
Proof.
  intros Hs Hv Hn. unfold Fwutil.readHeader.
  rewrite Hs. cbn [bind negb Z.eqb Pos.eqb]. rewrite Hv. cbn [bind negb Z.eqb Pos.eqb].
  rewrite Hn. cbn [bind].
  destruct ((n * 32) mod 2 ^ 32 >=? len header mod 2 ^ 32) eqn:E.
  - split; [intros _; lia | reflexivity].
  - split; [| intros; lia]. intros H. exfalso.
    destruct (Fwutil.scan (Fwutil.scan_fuel header) header n 1) as [[i | | p] |];
      try discriminate.
    destruct (Fwutil.word header (32 * i + 16) (32 * i + 20)) as [a | e |] eqn:Ea;
      [| apply word_no_error in Ea; exact Ea | discriminate]. cbn [bind] in H.
    destruct (Fwutil.word header (32 * i + 24) (32 * i + 28)) as [b | e |] eqn:Eb;
      [| apply word_no_error in Eb; exact Eb | discriminate]. cbn [bind] in H.
    destruct (Fwutil.word header (32 * i + 4) (32 * i + 8)) as [c | e |] eqn:Ec;
      [discriminate | apply word_no_error in Ec; exact Ec | discriminate].
Qed.

(** C8 (the code at the failing input). The header with firmware count
    2^27 has 32 * N = 2^32 >= 512, yet the product wraps to 0 in
    [uint32], the check passes, the scan runs and selects the firmware
    in slot 1. *)
Theorem count_check_wraps :
  len (exact wrapping_header) = 512 /\
  Fwutil.word (exact wrapping_header) 4 8 = Ok (2 ^ 27) /\
  32 * 2 ^ 27 >= 512 /\
  Fwutil.scan (Fwutil.scan_fuel (exact wrapping_header))
              (exact wrapping_header) (2 ^ 27) 1 = Some (Fwutil.Found 1) /\
  Fwutil.readHeader (exact wrapping_header) = Ok (Fwutil.mkSelection 1 0 0 0).
Proof.
  repeat split; try (vm_compute; reflexivity). vm_compute. discriminate.
Qed.

(** ** The record walk *)

Lemma length_encode (r : Fwutil.record) :
  length (Fwutil.encode r) = (8 + length (Fwutil.data r))%nat.
Proof. unfold Fwutil.encode. rewrite !length_app. reflexivity. Qed.

Lemma S3_fits (addr : Z) (payload : list byte) :
  Z.of_nat (length payload) <= 250 ->
  exists line, Srec.S3 addr payload = Ok line.
Proof.
  intros H. unfold Srec.S3, Srec.genericRecord. cbn [Srec.Size orb Z.ltb Z.gtb Z.compare Pos.compare Pos.compare_cont].
  destruct (4 + Z.of_nat (length payload) + 1 >? 255) eqn:E; [lia |].
  eexists. reflexivity.
Qed.

(** A turn of the walk over a well-formed record of at most 62 words
    emits that record and lands on the byte after it. *)
Lemma turn_record (pre rest sp : list byte) (r : Fwutil.record) :
  Fwutil.well_formed r ->
  Fwutil.wordLength r <= 62 ->
  exists line,
    Srec.S3 (Fwutil.address r) (Fwutil.data r) = Ok line /\
    Fwutil.turn (mkSlice (pre ++ Fwutil.encode r ++ rest) sp)
                (Z.of_nat (length pre))
    = Ok (inr (Fwutil.mkEmitted (Fwutil.address r) (Fwutil.data r) line,
               Z.of_nat (length (pre ++ Fwutil.encode r)))).
Proof.
  intros (Ha & Hn & Hw & Hd) H62.
  destruct r as [a w d]. cbn [Fwutil.address Fwutil.wordLength Fwutil.data] in *.
  destruct (S3_fits a d) as [line El]; [lia |].
  exists line. split; [exact El |].
  unfold Fwutil.turn, Fwutil.encode.
  cbn [Fwutil.address Fwutil.wordLength Fwutil.data].
  set (ptr := Z.of_nat (length pre)).
  assert (Hlen : len (mkSlice (pre ++ (put_u32 a ++ put_u32 w ++ d) ++ rest) sp)
                 = ptr + 8 + 4 * w + Z.of_nat (length rest)).
  { unfold len. cbn [elems]. rewrite !length_app, !length_put_u32. lia. }
  destruct (ptr + 8 >? _) eqn:E; [lia |]. clear E Hlen.
  replace (pre ++ (put_u32 a ++ put_u32 w ++ d) ++ rest)
    with (pre ++ (put_u32 a ++ put_u32 w) ++ (d ++ rest))
    by (rewrite <- !app_assoc; reflexivity).
  rewrite (sub_middle pre (put_u32 a ++ put_u32 w) (d ++ rest) sp ptr (ptr + 8))
    by reflexivity.
  cbn [bind]. unfold upto.
  change (mkSlice (put_u32 a ++ put_u32 w) ((d ++ rest) ++ sp))
    with (mkSlice ([] ++ put_u32 a ++ put_u32 w) ((d ++ rest) ++ sp)) at 1.
  rewrite (sub_middle [] (put_u32 a) (put_u32 w) _ 0 4) by reflexivity.
  cbn [bind]. rewrite Uint32_ok by (unfold len; cbn; lia).
  cbn [bind elems].
  change (firstn 4 (put_u32 a)) with (put_u32 a).
  rewrite be_value_put_u32, Z.mod_small by lia.
  destruct (a =? Fwutil.sentinel) eqn:E; [lia |]. clear E.
  replace (at_ (mkSlice (put_u32 a ++ put_u32 w) ((d ++ rest) ++ sp)) 7)
    with (@Ok byte (byte_of_Z w)) by reflexivity.
  cbn [bind]. rewrite byte_to_of_Z, Z.mod_small by lia.
  replace (pre ++ (put_u32 a ++ put_u32 w) ++ d ++ rest)
    with ((pre ++ put_u32 a ++ put_u32 w) ++ d ++ rest)
    by (rewrite <- !app_assoc; reflexivity).
  rewrite (sub_middle (pre ++ put_u32 a ++ put_u32 w) d rest sp
             (ptr + 8) (ptr + 8 + w * 4)).
  2:{ unfold ptr. rewrite !length_app, !length_put_u32. lia. }
  2:{ lia. }
  cbn [bind elems]. rewrite El. cbn [bind].
  do 3 f_equal. unfold ptr. rewrite !length_app, !length_put_u32. lia.
Qed.

(** At the sentinel the walk stops, with or without bytes after it. *)
Lemma turn_sentinel (pre trailer sp : list byte) :
  exists st,
    Fwutil.turn (mkSlice (pre ++ put_u32 Fwutil.sentinel ++ trailer) sp)
                (Z.of_nat (length pre)) = Ok (inl st) /\
    st = (if (length trailer <? 4)%nat then Fwutil.EndOfData else Fwutil.Sentinel).
Proof.
  unfold Fwutil.turn. set (ptr := Z.of_nat (length pre)).
  assert (Hlen : len (mkSlice (pre ++ put_u32 Fwutil.sentinel ++ trailer) sp)
                 = ptr + 4 + Z.of_nat (length trailer)).
  { unfold len. cbn [elems]. rewrite !length_app, length_put_u32. lia. }
  destruct (length trailer <? 4)%nat eqn:Et.
  - apply Nat.ltb_lt in Et.
    destruct (ptr + 8 >? _) eqn:E; [| lia]. eauto.
  - apply Nat.ltb_ge in Et.
    destruct (ptr + 8 >? _) eqn:E; [lia |]. clear E Hlen.
    rewrite <- (firstn_skipn 4 trailer).
    assert (L4 : length (firstn 4 trailer) = 4%nat)
      by (rewrite length_firstn; lia).
    replace (pre ++ put_u32 Fwutil.sentinel ++ firstn 4 trailer ++ skipn 4 trailer)
      with (pre ++ (put_u32 Fwutil.sentinel ++ firstn 4 trailer) ++ skipn 4 trailer)
      by (rewrite <- !app_assoc; reflexivity).
    rewrite (sub_middle pre _ _ sp ptr (ptr + 8));
      [| reflexivity | rewrite length_app, L4, length_put_u32; lia].
    cbn [bind]. unfold upto.
    change (mkSlice (put_u32 Fwutil.sentinel ++ firstn 4 trailer) ?x)
      with (mkSlice ([] ++ put_u32 Fwutil.sentinel ++ firstn 4 trailer) x).
    rewrite (sub_middle [] (put_u32 Fwutil.sentinel) _ _ 0 4) by reflexivity.
    cbn [bind]. eexists. split; reflexivity.
Qed.

Lemma image_cons (r : Fwutil.record) (rs : list Fwutil.record) (trailer : list byte) :
  Fwutil.image (r :: rs) trailer = Fwutil.encode r ++ Fwutil.image rs trailer.
Proof. unfold Fwutil.image. cbn [map concat]. rewrite <- app_assoc. reflexivity. Qed.

Lemma length_image (rs : list Fwutil.record) (trailer : list byte) :
  (length rs <= length (Fwutil.image rs trailer))%nat.
Proof.
  induction rs as [| r rs IH]; [cbn; lia |].
  rewrite image_cons, length_app, length_encode. cbn [length]. lia.
Qed.

Lemma walk_image (rs : list Fwutil.record) :
  forall (pre trailer sp : list byte) (fuel : nat),
    Forall Fwutil.well_formed rs ->
    Forall (fun r => Fwutil.wordLength r <= 62) rs ->
    (length rs < fuel)%nat ->
    exists out,
      Fwutil.walk fuel (mkSlice (pre ++ Fwutil.image rs trailer) sp)
                  (Z.of_nat (length pre))
      = (out, Some (image_end trailer)) /\
      map Fwutil.e_addr out = map Fwutil.address rs /\
      map Fwutil.e_data out = map Fwutil.data rs /\
      Forall (fun e => Srec.S3 (Fwutil.e_addr e) (Fwutil.e_data e)
                       = Ok (Fwutil.e_line e)) out.
Proof.
  induction rs as [| r rs IH]; intros pre trailer sp fuel Hwf H62 Hf;
    (destruct fuel as [| fuel]; [cbn in Hf; lia |]); cbn [Fwutil.walk].
  - destruct (turn_sentinel pre trailer sp) as (st & E & ->).
    change (Fwutil.image [] trailer) with (put_u32 Fwutil.sentinel ++ trailer).
    rewrite E. exists []. repeat split; constructor.
  - inversion Hwf as [| ? ? Hr Hrs]; subst.
    inversion H62 as [| ? ? Hr62 Hrs62]; subst.
    rewrite image_cons.
    destruct (turn_record pre (Fwutil.image rs trailer) sp r Hr Hr62)
      as (line & El & E).
    rewrite E.
    destruct (IH (pre ++ Fwutil.encode r) trailer sp fuel Hrs Hrs62
                 ltac:(cbn in Hf; lia)) as (out & Ew & Ea & Ed & Hl).
    rewrite <- app_assoc in Ew. rewrite Ew.
    eexists. split; [reflexivity |].
    cbn [map Fwutil.e_addr Fwutil.e_data]. rewrite Ea, Ed.
    repeat split. constructor; [exact El | exact Hl].
Qed.

(** C7 (as the code has it). For every de-obfuscated buffer that holds
    well-formed records of at most 62 words each (what one S3 record can
    carry), then the sentinel address, then anything, and whatever the
    spare capacity of the buffer, the walk ends and emits one S3 record
    per source record: the same addresses in the same order, the same
    data, hence data of exactly 4 times the word-length of the record. *)
Theorem record_walk_decodes
    (rs : list Fwutil.record) (trailer sp : list byte) :
  Forall Fwutil.well_formed rs ->
  Forall (fun r => Fwutil.wordLength r <= 62) rs ->
  exists out,
    Fwutil.recordWalk (mkSlice (Fwutil.image rs trailer) sp)
    = (out, Some (image_end trailer)) /\
    map Fwutil.e_addr out = map Fwutil.address rs /\
    map Fwutil.e_data out = map Fwutil.data rs /\
    map (fun e => Z.of_nat (length (Fwutil.e_data e))) out
    = map (fun r => 4 * Fwutil.wordLength r) rs /\
    Forall (fun e => Srec.S3 (Fwutil.e_addr e) (Fwutil.e_data e)
                     = Ok (Fwutil.e_line e)) out.
Proof.
  intros Hwf H62. unfold Fwutil.recordWalk. cbn [elems].
  destruct (walk_image rs [] trailer sp (S (length (Fwutil.image rs trailer)))
              Hwf H62) as (out & E & Ea & Ed & Hl).
  { pose proof (length_image rs trailer). lia. }
  exists out. cbn [app length] in E. change (Z.of_nat 0) with 0 in E.
  repeat split; try assumption.
  transitivity (map (fun d => Z.of_nat (length d)) (map Fwutil.e_data out)).
  { rewrite map_map. reflexivity. }
  rewrite Ed, map_map. apply map_ext_in. intros r Hr.
  rewrite Forall_forall in Hwf. apply (Hwf r Hr).
Qed.

Lemma record_walk_decodes_witness :
  exists out,
    Fwutil.recordWalk (exact (Fwutil.image [small_record] [xaa; xbb; xcc; xdd]))
    = (out, Some Fwutil.Sentinel) /\
    map Fwutil.e_addr out = [0x10000000] /\
    map (fun e => Z.of_nat (length (Fwutil.e_data e))) out = [8].
Proof.
  destruct (record_walk_decodes [small_record] [xaa; xbb; xcc; xdd] [])
    as (out & E & Ea & _ & El & _).
  - repeat constructor; vm_compute; congruence.
  - repeat constructor. vm_compute. discriminate.
  - exists out. repeat split; assumption.
Defined.

(** C7 (as stated) fails. The walk takes the record size from the low
    byte of the word-length field: a record of 256 words is emitted with
    no data at all, after which its 1024 data bytes are walked as 128
    further records at address 0. And a record of 63 words, too long for
    one S3 record, ends the run in the panic of the S-record emitter with
    nothing emitted. *)
Lemma record_walk_counterexample :
  Fwutil.well_formed wide_record /\
  Fwutil.well_formed long_record /\
  map (fun e => (Fwutil.e_addr e, Z.of_nat (length (Fwutil.e_data e))))
      (fst (Fwutil.recordWalk (exact (Fwutil.image [wide_record] []))))
  = (0x10000000, 0) :: repeat (0, 0) 128 /\
  Fwutil.recordWalk (exact (Fwutil.image [long_record] []))
  = ([], Some (Fwutil.Fatal (Explicit "record too long"))).
Proof.
  split; [| split; [| split]].
  - repeat split; vm_compute; congruence.
  - repeat split; vm_compute; congruence.
  - vm_compute. reflexivity.
  - vm_compute. reflexivity.
Qed.

(** A turn that emits a record had eight bytes to read and moves on by
    at least eight. *)
Lemma turn_advances (fwData : slice) (ptr ptr' : Z) (e : Fwutil.emitted) :
  Fwutil.turn fwData ptr = Ok (inr (e, ptr')) ->
  ptr + 8 <= len fwData /\ ptr + 8 <= ptr'.
Proof.
  unfold Fwutil.turn. intros H.
  destruct (ptr + 8 >? len fwData) eqn:E; [discriminate |].
  destruct (sub fwData ptr (ptr + 8)) as [record | |]; try discriminate.
  cbn [bind] in H.
  destruct (upto record 4) as [r04 | |]; try discriminate. cbn [bind] in H.
  destruct (Uint32 r04) as [addr | |]; try discriminate. cbn [bind] in H.
  destruct (addr =? Fwutil.sentinel); [discriminate |].
  destruct (at_ record 7) as [b7 | |]; try discriminate. cbn [bind] in H.
  destruct (sub fwData (ptr + 8) (ptr + 8 + byte_to_Z b7 * 4)) as [data | |];
    try discriminate. cbn [bind] in H.
  destruct (Srec.S3 addr (elems data)) as [line | |]; try discriminate.
  cbn [bind] in H. injection H as _ <-.
  pose proof (byte_to_Z_range b7). lia.
Qed.

(** The walk ends on every buffer: the turns [main] can take never
    outnumber the bytes. *)
Lemma walk_ends (fwData : slice) (fuel : nat) :
  forall ptr : Z,
    (1 <= fuel)%nat ->
    len fwData - ptr < Z.of_nat fuel ->
    snd (Fwutil.walk fuel fwData ptr) <> None.
Proof.
  induction fuel as [| fuel IH]; intros ptr Hf Hl; [lia |].
  cbn [Fwutil.walk].
  destruct (Fwutil.turn fwData ptr) as [[st | [e ptr']] | err | p] eqn:E;
    cbn [snd]; try congruence.
  apply turn_advances in E as [E1 E2].
  specialize (IH ptr' ltac:(lia) ltac:(lia)).
  destruct (Fwutil.walk fuel fwData ptr') as [rest st]. exact IH.
Qed.

Lemma recordWalk_total (fwData : slice) :
  snd (Fwutil.recordWalk fwData) <> None.
Proof.
  unfold Fwutil.recordWalk. apply walk_ends; [lia |].
  unfold len. lia.
Qed.

(** ** The scenarios of the specification, run on the embedded code *)

Example frame_encode_scenario :
  Ebm.Message_MarshalBinary (Ebm.mkMessage x06 42 xff (exact [x01; x02; x03]))
  = Ok ([x06; x00; x00; x00; x2a; x00; x03; xff; x01; x02; x03] ++ repeat x00 35).
Proof. reflexivity. Qed.

Example frame_decode_scenario :
  Ebm.ParseMessage (exact [x06; x00; x00; x00; x2a; x00; x03; xff; x01; x02; x03])
  = Ok (Ebm.mkMessage x06 42 xff (exact [x01; x02; x03])).
Proof. reflexivity. Qed.

Example comment_record_scenario :
  Srec.genericRecord 0 (Srec.Addr16 0) comment
  = Ok ("S030000047656E6572617465642066726F6D206669726D776172655F7061636B6167652E622062792065626D2D7574696CFA"
        ++ Srec.newline)%string.
Proof. vm_compute. reflexivity. Qed.

Example pack_decode_scenario :
  map (fun e => (Fwutil.e_addr e, Fwutil.e_data e))
      (fst (Fwutil.recordWalk (exact (Fwutil.image [small_record] []))))
  = [(0x10000000, [x00; x01; x02; x03; x04; x05; x06; x07])].
Proof. vm_compute. reflexivity. Qed.

(* ===================================================================== *)
(** * Further properties of the code *)
(* ===================================================================== *)

(** ** Decoding what the frame codecs encode *)

Lemma at_nth (s : slice) (i : nat) (b : byte) :
  nth_error (elems s) i = Some b -> at_ s (Z.of_nat i) = Ok b.
Proof.
  intros H. unfold at_, len.
  assert (i < length (elems s))%nat by (apply nth_error_Some; congruence).
  destruct (0 <=? Z.of_nat i) eqn:E0; [| lia].
  destruct (Z.of_nat i <? Z.of_nat (length (elems s))) eqn:E1; [| lia].
  cbn [andb]. rewrite Nat2Z.id, H. reflexivity.
Qed.

(** The operational parser on a header followed by at least the declared
    number of bytes. *)
Lemma ParseMessage_frame (ty st : byte) (seq d : Z) (body sp : list byte) :
  0 <= seq < 2 ^ 32 ->
  0 <= d -> d + 8 < 2 ^ 16 ->
  d <= Z.of_nat (length body) ->
  Ebm.ParseMessage
    (mkSlice ([ty] ++ put_u32 seq ++ put_u16 d ++ [st] ++ body) sp)
  = Ok (Ebm.mkMessage ty seq st
          (mkSlice (firstn (Z.to_nat d) body) (skipn (Z.to_nat d) body ++ sp))).
Proof.
  intros Hseq Hd0 Hd Hb. unfold Ebm.ParseMessage.
  set (data := mkSlice _ sp).
  assert (Hlen : len data = 8 + Z.of_nat (length body)).
  { unfold data, len. cbn [elems]. rewrite !length_app.
    cbn [length put_u32 put_u16]. lia. }
  destruct (len data <? 7) eqn:E; [lia |]. clear E.
  replace (at_ data 0) with (@Ok byte ty)
    by (symmetry; apply (at_nth data 0); reflexivity).
  cbn [bind].
  unfold data at 1.
  rewrite (sub_middle [ty] (put_u32 seq) _ sp 1 5) by reflexivity.
  cbn [bind]. rewrite Uint32_ok by (unfold len; cbn [elems length put_u32]; lia).
  cbn [bind elems]. change (firstn 4 (put_u32 seq)) with (put_u32 seq).
  rewrite be_value_put_u32, (Z.mod_small seq) by lia.
  unfold data at 1.
  replace ([ty] ++ put_u32 seq ++ put_u16 d ++ [st] ++ body)
    with (([ty] ++ put_u32 seq) ++ put_u16 d ++ [st] ++ body)
    by (rewrite <- !app_assoc; reflexivity).
  rewrite (sub_middle ([ty] ++ put_u32 seq) (put_u16 d) _ sp 5 7) by reflexivity.
  cbn [bind]. rewrite Uint16_ok by (unfold len; cbn [elems length put_u16]; lia).
  cbn [bind elems]. change (firstn 2 (put_u16 d)) with (put_u16 d).
  rewrite be_value_put_u16, (Z.mod_small d) by lia.
  replace (at_ data 7) with (@Ok byte st)
    by (symmetry; apply (at_nth data 7); reflexivity).
  cbn [bind].
  rewrite (Z.mod_small (d + 8)) by lia.
  unfold data.
  replace ([ty] ++ put_u32 seq ++ put_u16 d ++ [st] ++ body)
    with (([ty] ++ put_u32 seq ++ put_u16 d ++ [st])
          ++ firstn (Z.to_nat d) body ++ skipn (Z.to_nat d) body)
    by (rewrite firstn_skipn, <- !app_assoc; reflexivity).
  rewrite (sub_middle _ (firstn (Z.to_nat d) body) _ sp 8 (d + 8)).
  - reflexivity.
  - reflexivity.
  - rewrite length_firstn. lia.
Qed.

Lemma parseMessage_frame (seq ty d : Z) (body sp : list byte) :
  0 <= seq < 2 ^ 16 -> 0 <= ty < 2 ^ 16 ->
  0 <= d -> d + 6 < 2 ^ 16 ->
  d <= Z.of_nat (length body) ->
  Bootloader.parseMessage
    (mkSlice (put_u16 seq ++ put_u16 d ++ put_u16 ty ++ body) sp)
  = Ok (Bootloader.mkmessage seq ty
          (mkSlice (firstn (Z.to_nat d) body) (skipn (Z.to_nat d) body ++ sp))).
Proof.
  intros Hseq Hty Hd0 Hd Hb. unfold Bootloader.parseMessage.
  set (data := mkSlice _ sp).
  assert (Hlen : len data = 6 + Z.of_nat (length body)).
  { unfold data, len. cbn [elems]. rewrite !length_app.
    cbn [length put_u32 put_u16]. lia. }
  destruct (len data <? 6) eqn:E; [lia |]. clear E.
  unfold data at 1.
  change (put_u16 seq ++ put_u16 d ++ put_u16 ty ++ body)
    with ([] ++ put_u16 seq ++ put_u16 d ++ put_u16 ty ++ body) at 1.
  rewrite (sub_middle [] (put_u16 seq) _ sp 0 2) by reflexivity.
  cbn [bind]. rewrite Uint16_ok by (unfold len; cbn [elems length put_u16]; lia).
  cbn [bind elems]. change (firstn 2 (put_u16 seq)) with (put_u16 seq).
  rewrite be_value_put_u16, (Z.mod_small seq) by lia.
  unfold data at 1.
  rewrite (sub_middle (put_u16 seq) (put_u16 d) _ sp 2 4) by reflexivity.
  cbn [bind]. rewrite Uint16_ok by (unfold len; cbn [elems length put_u16]; lia).
  cbn [bind elems]. change (firstn 2 (put_u16 d)) with (put_u16 d).
  rewrite be_value_put_u16, (Z.mod_small d) by lia.
  unfold data at 1.
  replace (put_u16 seq ++ put_u16 d ++ put_u16 ty ++ body)
    with ((put_u16 seq ++ put_u16 d) ++ put_u16 ty ++ body)
    by (rewrite <- !app_assoc; reflexivity).
  rewrite (sub_middle (put_u16 seq ++ put_u16 d) (put_u16 ty) _ sp 4 6)
    by reflexivity.
  cbn [bind]. rewrite Uint16_ok by (unfold len; cbn [elems length put_u16]; lia).
  cbn [bind elems]. change (firstn 2 (put_u16 ty)) with (put_u16 ty).
  rewrite be_value_put_u16, (Z.mod_small ty) by lia.
  rewrite (Z.mod_small (d + 6)) by lia.
  unfold data.
  replace (put_u16 seq ++ put_u16 d ++ put_u16 ty ++ body)
    with ((put_u16 seq ++ put_u16 d ++ put_u16 ty)
          ++ firstn (Z.to_nat d) body ++ skipn (Z.to_nat d) body)
    by (rewrite firstn_skipn, <- !app_assoc; reflexivity).
  rewrite (sub_middle _ (firstn (Z.to_nat d) body) _ sp 6 (d + 6)).
  - reflexivity.
  - reflexivity.
  - rewrite length_firstn. lia.
Qed.

Lemma length_pad46 (bs : list byte) :
  Z.of_nat (length (pad46 bs)) = Z.max 46 (Z.of_nat (length bs)).
Proof. unfold pad46. rewrite length_app, repeat_length. lia. Qed.

Lemma firstn_within {A : Type} (n : nat) (a b : list A) :
  (n <= length a)%nat -> firstn n (a ++ b) = firstn n a.
Proof.
  intros H. rewrite firstn_app.
  replace (n - length a)%nat with 0%nat by lia.
  rewrite firstn_O, app_nil_r. reflexivity.
Qed.

(** X1. An operational message with a sequence number in range and a
    payload of at most 65527 bytes marshals to a frame of
    max(46, 8 + payload length) bytes, and parsing that frame, whatever
    the spare capacity of the buffer it sits in, gives back the type, the
    sequence number, the status and exactly the payload bytes: the
    padding is not part of the parsed payload. *)
Theorem operational_frame_round_trip (m : Ebm.Message) :
  0 <= Ebm.SequenceNumber m < 2 ^ 32 ->
  len (Ebm.Payload m) <= 65527 ->
  exists frame,
    Ebm.Message_MarshalBinary m = Ok frame /\
    Z.of_nat (length frame) = Z.max 46 (8 + len (Ebm.Payload m)) /\
    forall sp, exists pl,
      Ebm.ParseMessage (mkSlice frame sp)
      = Ok (Ebm.mkMessage (Ebm.Type_ m) (Ebm.SequenceNumber m) (Ebm.Status m) pl)
      /\ elems pl = elems (Ebm.Payload m).
Proof.
  intros Hseq Hl. pose proof (len_nonneg (Ebm.Payload m)) as H0.
  eexists. split; [reflexivity |]. split.
  - rewrite length_pad46, !length_app. unfold len. cbn [length put_u32 put_u16]. lia.
  - intros sp. unfold pad46. rewrite Z.mod_small by lia.
    rewrite <- !app_assoc.
    rewrite ParseMessage_frame; try lia.
    + eexists. split; [reflexivity |]. cbn [elems].
      unfold len. rewrite Nat2Z.id, firstn_within, firstn_all by lia. reflexivity.
    + rewrite length_app. unfold len. lia.
Qed.

Lemma operational_frame_round_trip_witness :
  exists frame,
    Ebm.Message_MarshalBinary read_ticks = Ok frame /\
    Z.of_nat (length frame) = 46 /\
    forall sp, exists pl,
      Ebm.ParseMessage (mkSlice frame sp) = Ok (Ebm.mkMessage x06 0 xff pl)
      /\ elems pl = firstn 24 ticks_response.
Proof.
  apply (operational_frame_round_trip read_ticks).
  - vm_compute. split; [discriminate | reflexivity].
  - vm_compute. discriminate.
Defined.

(** X2. A bootloader message with sequence number and type in range and
    a payload of at most 65529 bytes marshals without error to a frame of
    max(46, 6 + payload length) bytes, and parsing that frame gives back
    the sequence number, the type and exactly the payload bytes. *)
Theorem bootloader_frame_round_trip (m : Bootloader.message) :
  0 <= Bootloader.SequenceNumber m < 2 ^ 16 ->
  0 <= Bootloader.Type_ m < 2 ^ 16 ->
  len (Bootloader.Payload m) <= 65529 ->
  exists frame,
    Bootloader.MarshalBinary m = Ok frame /\
    Z.of_nat (length frame) = Z.max 46 (6 + len (Bootloader.Payload m)) /\
    forall sp, exists pl,
      Bootloader.parseMessage (mkSlice frame sp)
      = Ok (Bootloader.mkmessage (Bootloader.SequenceNumber m)
                                 (Bootloader.Type_ m) pl)
      /\ elems pl = elems (Bootloader.Payload m).
Proof.
  intros Hseq Hty Hl. pose proof (len_nonneg (Bootloader.Payload m)) as H0.
  unfold Bootloader.MarshalBinary, Bootloader.MaxUint16.
  destruct (len (Bootloader.Payload m) >? 65535) eqn:E; [lia |].
  eexists. split; [reflexivity |]. split.
  - rewrite length_pad46, !length_app. unfold len. cbn [length put_u16]. lia.
  - intros sp. unfold pad46. rewrite Z.mod_small by lia.
    rewrite <- !app_assoc.
    rewrite parseMessage_frame; try lia.
    + eexists. split; [reflexivity |]. cbn [elems].
      unfold len. rewrite Nat2Z.id, firstn_within, firstn_all by lia. reflexivity.
    + rewrite length_app. unfold len. lia.
Qed.

Lemma bootloader_frame_round_trip_witness :
  exists frame,
    Bootloader.MarshalBinary (Bootloader.mkmessage 7 17 (Bootloader.Payload downloadBegin))
    = Ok frame /\
    Z.of_nat (length frame) = 46 /\
    forall sp, exists pl,
      Bootloader.parseMessage (mkSlice frame sp) = Ok (Bootloader.mkmessage 7 17 pl)
      /\ elems pl = elems (Bootloader.Payload downloadBegin).
Proof.
  apply (bootloader_frame_round_trip
           (Bootloader.mkmessage 7 17 (Bootloader.Payload downloadBegin))).
  - vm_compute. split; [discriminate | reflexivity].
  - vm_compute. split; [discriminate | reflexivity].
  - vm_compute. discriminate.
Defined.

Lemma frame_len_marshalled (ty st : byte) (seq d : Z) (body : list byte) :
  Ebm.frame_len ([ty] ++ put_u32 seq ++ put_u16 d ++ [st] ++ body) = d mod 2 ^ 16.
Proof.
  unfold Ebm.frame_len, put_u32. cbn [app skipn].
  change (firstn 2 (put_u16 d ++ ?r)) with (put_u16 d).
  apply be_value_put_u16.
Qed.

Lemma boot_frame_len_marshalled (seq ty d : Z) (body : list byte) :
  Bootloader.frame_len (put_u16 seq ++ put_u16 d ++ put_u16 ty ++ body)
  = d mod 2 ^ 16.
Proof.
  unfold Bootloader.frame_len. unfold put_u16 at 1. cbn [app skipn].
  change (firstn 2 (put_u16 d ++ ?r)) with (put_u16 d).
  apply be_value_put_u16.
Qed.

(** X3. The operational length field is the payload length modulo 2^16,
    and the parser adds the header size to it in 16 bits. So a frame the
    marshaller built for a payload of [l] bytes parses to the first
    [l mod 2^16] bytes of that payload when [l mod 2^16 <= 65527], a
    silent truncation for payloads of 65536 bytes or more, and ends in a
    slice-bounds panic when [l mod 2^16] is 65528 or more. *)
Theorem operational_length_wraps (m : Ebm.Message) (frame sp : list byte) :
  0 <= Ebm.SequenceNumber m < 2 ^ 32 ->
  Ebm.Message_MarshalBinary m = Ok frame ->
  (len (Ebm.Payload m) mod 2 ^ 16 <= 65527 ->
   exists pl,
     Ebm.ParseMessage (mkSlice frame sp)
     = Ok (Ebm.mkMessage (Ebm.Type_ m) (Ebm.SequenceNumber m) (Ebm.Status m) pl)
     /\ elems pl = firstn (Z.to_nat (len (Ebm.Payload m) mod 2 ^ 16))
                          (elems (Ebm.Payload m))) /\
  (65528 <= len (Ebm.Payload m) mod 2 ^ 16 ->
   Ebm.ParseMessage (mkSlice frame sp) = Panic SliceBoundsOutOfRange).
Proof.
  intros Hseq Hm.
  assert (Hf : frame = pad46 ([Ebm.Type_ m] ++ put_u32 (Ebm.SequenceNumber m)
                              ++ put_u16 (len (Ebm.Payload m) mod 2 ^ 16)
                              ++ [Ebm.Status m] ++ elems (Ebm.Payload m)))
    by (unfold Ebm.Message_MarshalBinary in Hm; congruence).
  subst frame. clear Hm.
  pose proof (len_nonneg (Ebm.Payload m)) as H0.
  pose proof (Z.mod_pos_bound (len (Ebm.Payload m)) (2 ^ 16) ltac:(lia)) as Hd.
  pose proof (Z.mod_le (len (Ebm.Payload m)) (2 ^ 16) H0 ltac:(lia)) as Hle.
  set (d := len (Ebm.Payload m) mod 2 ^ 16) in *.
  unfold pad46. rewrite <- !app_assoc. split; intros H.
  - rewrite ParseMessage_frame; try lia.
    + eexists. split; [reflexivity |]. cbn [elems].
      apply firstn_within. unfold len in Hle. lia.
    + rewrite length_app. unfold len in Hle. lia.
  - match goal with
    | |- Ebm.ParseMessage ?data = _ =>
        destruct (ParseMessage_header data) as (ty & seq & st & E)
    end.
    { unfold len. cbn [elems]. rewrite !length_app. cbn [length put_u32 put_u16]. lia. }
    rewrite E. cbn [elems].
    rewrite frame_len_marshalled, (Z.mod_small d) by lia.
    rewrite sub_bad; [reflexivity |].
    right. left. change (2 ^ 16) with 65536.
    pose proof (Z.mod_pos_bound (d + 8) 65536 ltac:(lia)).
    assert ((d + 8) mod 65536 = d + 8 - 65536); [| lia].
    symmetry. apply Z.mod_unique with (q := 1); lia.
Qed.

Lemma operational_length_wraps_witness :
  exists frame,
    Ebm.Message_MarshalBinary (Ebm.mkMessage x06 2 xff oversized) = Ok frame /\
    exists pl,
      Ebm.ParseMessage (exact frame) = Ok (Ebm.mkMessage x06 2 xff pl)
      /\ elems pl = [x00; x00; x00].
Proof.
  eexists. split; [reflexivity |].
  apply (proj1 (operational_length_wraps (Ebm.mkMessage x06 2 xff oversized)
                  _ [] ltac:(vm_compute; split; [discriminate | reflexivity])
                  eq_refl)).
  vm_compute. discriminate.
Defined.

(** X4. The bootloader marshaller accepts payloads of up to 65535
    bytes, but for payloads of 65530 to 65535 bytes the parser cannot
    read the frame back: the declared length plus the header size wraps
    in 16 bits and the slice expression panics. *)
Theorem bootloader_near_limit (m : Bootloader.message) :
  65530 <= len (Bootloader.Payload m) <= 65535 ->
  exists frame,
    Bootloader.MarshalBinary m = Ok frame /\
    forall sp,
      Bootloader.parseMessage (mkSlice frame sp) = Panic SliceBoundsOutOfRange.
Proof.
  intros Hl. unfold Bootloader.MarshalBinary, Bootloader.MaxUint16.
  destruct (len (Bootloader.Payload m) >? 65535) eqn:E; [lia |].
  eexists. split; [reflexivity |]. intros sp.
  unfold pad46. rewrite <- !app_assoc.
  match goal with
  | |- Bootloader.parseMessage ?data = _ =>
      destruct (parseMessage_header data) as (seq & ty & E')
  end.
  { unfold len in *. cbn [elems]. rewrite !length_app. cbn [length put_u16]. lia. }
  rewrite E'. cbn [elems].
  rewrite boot_frame_len_marshalled, Z.mod_mod by lia.
  rewrite (Z.mod_small (len (Bootloader.Payload m))) by lia.
  rewrite sub_bad; [reflexivity |].
  right. left. change (2 ^ 16) with 65536.
  assert ((len (Bootloader.Payload m) + 6) mod 65536
          = len (Bootloader.Payload m) + 6 - 65536); [| lia].
  symmetry. apply Z.mod_unique with (q := 1); lia.
Qed.

Lemma bootloader_near_limit_witness :
  exists frame,
    Bootloader.MarshalBinary near_limit = Ok frame /\
    forall sp,
      Bootloader.parseMessage (mkSlice frame sp) = Panic SliceBoundsOutOfRange.
Proof.
  apply (bootloader_near_limit near_limit).
  vm_compute. split; discriminate.
Defined.

(** ** The bootloader exchange, whatever the socket does *)

Lemma tries_sent (env : nat -> Bootloader.attempt) (reqRaw : list byte)
    (reqSeq : Z) (left : nat) :
  forall (i : nat) (buf : list byte) (sent sent' : list (list byte))
         (r : result Bootloader.message),
    Bootloader.tries left i env reqRaw reqSeq buf sent = (sent', r) ->
    exists k, (k <= left)%nat /\ sent' = sent ++ repeat reqRaw k.
Proof.
  induction left as [| left IH]; intros i buf sent sent' r H.
  - cbn in H. injection H as <- <-. exists 0%nat. cbn. rewrite app_nil_r. auto.
  - cbn [Bootloader.tries] in H.
    assert (Hrec : forall buf',
               Bootloader.tries left (S i) env reqRaw reqSeq buf' (sent ++ [reqRaw])
               = (sent', r) ->
               exists k, (k <= S left)%nat /\ sent' = sent ++ repeat reqRaw k).
    { intros buf' H'. apply IH in H' as (k & Hk & ->). exists (S k).
      split; [lia |]. rewrite <- app_assoc. reflexivity. }
    assert (Hone : (sent ++ [reqRaw], r) = (sent', r) ->
                   exists k, (k <= S left)%nat /\ sent' = sent ++ repeat reqRaw k).
    { intros [= <-]. exists 1%nat. split; [lia | reflexivity]. }
    destruct (env i) as [| | | frame].
    + injection H as <- <-. exists 0%nat. cbn. rewrite app_nil_r. split; [lia | auto].
    + eapply Hrec. exact H.
    + injection H as <- <-. apply Hone. reflexivity.
    + destruct (Bootloader.read_into buf frame) as [buf' data].
      destruct (Bootloader.parseMessage data) as [res | e | p].
      * destruct (negb (Bootloader.SequenceNumber res =? reqSeq)).
        -- eapply Hrec. exact H.
        -- injection H as <- <-. apply Hone. reflexivity.
      * injection H as <- <-. apply Hone. reflexivity.
      * injection H as <- <-. apply Hone. reflexivity.
Qed.


(** X5. Whatever the socket does and however the exchange ends, it uses
    up exactly one sequence number (also when marshalling fails), keeps
    the peer address, and writes at most five frames, each of them the
    request marshalled with the sequence number the connection had at the
    start. *)
Theorem exchange_effects
    (c : Bootloader.conn) (req : Bootloader.message)
    (env : nat -> Bootloader.attempt) :
  let '(c', sent, r) := Bootloader.Exchange c req env in
  Bootloader.seqNo c' = (Bootloader.seqNo c + 1) mod 2 ^ 16 /\
  Bootloader.addr c' = Bootloader.addr c /\
  (length sent <= 5)%nat /\
  forall frame, In frame sent ->
    Bootloader.MarshalBinary
      (Bootloader.mkmessage (Bootloader.seqNo c) (Bootloader.Type_ req)
                            (Bootloader.Payload req)) = Ok frame.
Proof.
  unfold Bootloader.Exchange.
  destruct (Bootloader.MarshalBinary _) as [reqRaw | e | p] eqn:Em;
    try (cbn; repeat split; try lia; intros frame []).
  destruct (Bootloader.tries 5 0 env reqRaw (Bootloader.seqNo c)
              (repeat x00 1600) []) as [sent r] eqn:E.
  apply tries_sent in E as (k & Hk & ->). cbn [app].
  repeat split.
  - rewrite repeat_length. exact Hk.
  - intros frame Hin. apply repeat_spec in Hin. congruence.
Qed.



(** ** The reactor and its callers *)

Lemma deliveries_app (a b : list Ebm.action) :
  deliveries (a ++ b) = deliveries a + deliveries b.
Proof.
  induction a as [| x a IH]; [reflexivity |].
  cbn [app deliveries]. destruct x as [| | | | | | | | | | | | [r |] | |]; lia.
Qed.

Lemma reactor_delivers (c : Ebm.Conn) (ev : Ebm.event)
    (acts : list Ebm.action) (nx : Ebm.next) :
  Ebm.reactor c ev = (acts, nx) ->
  deliveries acts + inflight_after nx <= inflight c + Ebm.originals [ev].
Proof.
  intros H. unfold inflight_after, inflight.
  destruct ev as [rxMsg | | req [|] | ok]; cbn [Ebm.reactor Ebm.originals] in H |- *.
  - destruct (Ebm.ParseMessage rxMsg) as [res | e | p];
      [| injection H as <- <-; cbn; destruct (Ebm.curReq c); lia
       | injection H as <- <-; cbn; destruct (Ebm.curReq c); lia].
    destruct (Byte.eqb (Ebm.Type_ res) Ebm.TypeConsoleOutput).
    { injection H as <- <-. cbn. lia. }
    destruct (Byte.eqb (Ebm.Type_ res) Ebm.TypeLoggerOutput).
    { unfold Ebm.rx_logger in H.
      destruct (bind (sub (Ebm.Payload res) 20 22) Uint16) as [t | e | p];
        [| injection H as <- <-; cbn; destruct (Ebm.curReq c); lia
         | injection H as <- <-; cbn; destruct (Ebm.curReq c); lia].
      destruct ((t =? 1) || (t =? 4)).
      - destruct (bind (sub (Ebm.Payload res) 24 28) Uint32) as [v | e | p];
          injection H as <- <-; cbn; destruct (Ebm.curReq c); try lia;
          destruct (t =? 1); cbn; lia.
      - injection H as <- <-. cbn. lia. }
    destruct (Byte.eqb (Ebm.Type_ res) Ebm.TypeDeviceDisconnect).
    { injection H as <- <-. cbn. destruct (Ebm.curReq c); lia. }
    unfold Ebm.rx_response in H.
    destruct (Ebm.curReq c) as [cur |] eqn:Ec.
    + destruct (Ebm.curReqTimer c); injection H as <- <-;
        rewrite deliveries_app;
        destruct (Ebm.SequenceNumber cur =? Ebm.SequenceNumber res); cbn; lia.
    + injection H as <- <-. cbn. rewrite Ec. lia.
  - injection H as <- <-. cbn. destruct (Ebm.curReq c); lia.
  - cbn [Ebm.Message_MarshalBinary] in H. injection H as <- <-.
    cbn. destruct (Ebm.curReq c); lia.
  - cbn [Ebm.Message_MarshalBinary] in H. injection H as <- <-. cbn. lia.
  - destruct (Ebm.curReqTimer c).
    { injection H as <- <-. cbn. lia. }
    destruct (Ebm.curReq c) as [cur |] eqn:Ec.
    + cbn [Ebm.Message_MarshalBinary] in H.
      destruct ok; injection H as <- <-; cbn; rewrite ?Ec; lia.
    + injection H as <- <-. cbn. lia.
Qed.

Lemma run_delivers (evs : list Ebm.event) :
  forall (c : Ebm.Conn) (acts : list Ebm.action) (nx : Ebm.next),
    Ebm.run c evs = (acts, nx) ->
    deliveries acts + inflight_after nx <= inflight c + Ebm.originals evs.
Proof.
  induction evs as [| ev evs IH]; intros c acts nx H.
  - cbn in H. injection H as <- <-. cbn. lia.
  - cbn [Ebm.run] in H. rewrite originals_cons.
    pose proof (originals_nonneg evs) as Hn.
    destruct (Ebm.reactor c ev) as [acts1 nx1] eqn:E.
    apply reactor_delivers in E.
    destruct nx1 as [c1 | | p |].
    + destruct (Ebm.run c1 evs) as [acts2 nx2] eqn:E2.
      injection H as <- <-. apply IH in E2.
      rewrite deliveries_app. cbn [inflight_after] in E. lia.
    + injection H as <- <-. lia.
    + injection H as <- <-. lia.
    + injection H as <- <-. lia.
Qed.

(** X7. Along every schedule of reactor turns of a fresh session, and
    however the loop ends, the responses handed to callers plus the
    request still in flight never outnumber the requests whose original
    send succeeded: no response is delivered unless a request was sent
    for it, and a delivery empties the in-flight slot. *)
Theorem deliveries_bounded
    (evs : list Ebm.event) (acts : list Ebm.action) (nx : Ebm.next) :
  Ebm.run Ebm.NewConn evs = (acts, nx) ->
  deliveries acts + inflight_after nx <= Ebm.originals evs.
Proof.
  intros H. apply run_delivers in H. cbn in H. exact H.
Qed.

Lemma deliveries_bounded_witness :
  exists acts nx,
    Ebm.run Ebm.NewConn two_requests = (acts, nx) /\
    deliveries acts = 1 /\ inflight_after nx = 1 /\
    deliveries acts + inflight_after nx <= Ebm.originals two_requests.
Proof.
  destruct (Ebm.run Ebm.NewConn two_requests) as [acts nx] eqn:E.
  exists acts, nx. split; [reflexivity |].
  pose proof (deliveries_bounded two_requests acts nx E) as H.
  vm_compute in E. injection E as <- <-.
  repeat split; try (vm_compute; reflexivity). exact H.
Defined.



(** ** The OID codec beyond the round trip *)

Lemma roundtrip_carried_witness :
  exists bs w,
    Ebm.MarshalOID OidNetworkTerminationVendor vendor_value = Ok bs /\
    Ebm.ParseOID (exact bs) = Ok w /\
    w = Ebm.VString [x61; x62].
Proof.
  eexists.
  destruct (roundtrip_carried OidNetworkTerminationVendor vendor_value _ []
              ltac:(vm_compute; repeat split; discriminate) eq_refl)
    as (w & Hp & Hs).
  exists w. split; [reflexivity |]. split; [exact Hp |].
  destruct w; try discriminate Hs. cbn in Hs. subst. reflexivity.
Defined.

(** X10. The element types int32, int16, int8, invalid and every unknown
    tag are refused in both directions with the same error: marshalling
    a value for such an OID fails whatever the value, and so does parsing
    a response whose header bears such a type, whatever follows the
    header. *)
Theorem unsupported_types_rejected (o : Ebm.OID) :
  unsupported (Ebm.OType o) ->
  (forall v, Ebm.MarshalOID o v
             = Err ("unknown type " ++ Ebm.oidTypeDesc (Ebm.OType o))) /\
  (0 <= Ebm.OType o < 2 ^ 32 -> 0 <= Ebm.Length o < 2 ^ 32 ->
   forall payload sp,
     Ebm.ParseOID (mkSlice (Ebm.write_oidRequest o ++ payload) sp)
     = Err ("unknown type " ++ Ebm.oidTypeDesc (Ebm.OType o))).
Proof.
  unfold unsupported, Ebm.TypeUint32, Ebm.TypeUint16, Ebm.TypeUint8,
    Ebm.TypeString, Ebm.TypeBool.
  intros (H0 & H2 & H4 & H6 & H7). split.
  - intros v. unfold Ebm.MarshalOID.
    destruct (Ebm.OType o) as [| [[[|q|]|[|q|]|]|[[|q|]|[|q|]|]|] | q];
      try reflexivity; lia.
  - intros Ht Hl payload sp. rewrite ParseOID_marshalled by lia. cbn zeta.
    destruct (Ebm.OType o) as [| [[[|q|]|[|q|]|]|[[|q|]|[|q|]|]|] | q];
      try reflexivity; lia.
Qed.

Lemma unsupported_types_rejected_witness :
  Ebm.MarshalOID int32_oid (Ebm.VUint32 5) = Err "unknown type int32" /\
  Ebm.ParseOID (exact (Ebm.write_oidRequest int32_oid ++ [x00; x00; x00; x05]))
  = Err "unknown type int32".
Proof.
  destruct (unsupported_types_rejected int32_oid
              ltac:(vm_compute; repeat split; discriminate)) as [Hm Hp].
  split.
  - apply Hm.
  - apply (Hp ltac:(vm_compute; split; [discriminate | reflexivity])
              ltac:(vm_compute; split; [discriminate | reflexivity])).
Defined.

(** X11. The parser has no error for a value that is cut short: when the
    bytes after a well-formed header do not suffice for the declared
    type, a uint32 or uint16 needing four bytes of capacity, a uint8
    scalar or bool one byte of length, a string or byte array the
    declared length in capacity, the parse ends in a run-time panic. *)
Theorem short_value_panics (o : Ebm.OID) (payload sp : list byte) :
  0 <= Ebm.OType o < 2 ^ 32 ->
  0 <= Ebm.Length o < 2 ^ 32 ->
  let d := mkSlice (Ebm.write_oidRequest o ++ payload) sp in
  let room := Z.of_nat (length payload) + Z.of_nat (length sp) in
  (Ebm.OType o = Ebm.TypeUint32 \/ Ebm.OType o = Ebm.TypeUint16 ->
   room < 4 -> Ebm.ParseOID d = Panic SliceBoundsOutOfRange) /\
  (Ebm.OType o = Ebm.TypeUint8 /\ Ebm.Length o = 1 \/ Ebm.OType o = Ebm.TypeBool ->
   payload = [] -> Ebm.ParseOID d = Panic IndexOutOfRange) /\
  (Ebm.OType o = Ebm.TypeUint8 /\ Ebm.Length o <> 1 \/ Ebm.OType o = Ebm.TypeString ->
   room < Ebm.Length o -> Ebm.ParseOID d = Panic SliceBoundsOutOfRange).
Proof.
  intros Ht Hl d room. unfold d.
  rewrite ParseOID_marshalled by assumption. cbn zeta.
  unfold Ebm.TypeUint32, Ebm.TypeUint16, Ebm.TypeUint8, Ebm.TypeString,
    Ebm.TypeBool.
  assert (Hcap : cap (mkSlice payload sp) = room) by reflexivity.
  split; [| split].
  - intros [-> | ->] Hr; unfold upto; rewrite sub_bad by lia; reflexivity.
  - intros [[-> H1] | ->] ->.
    + rewrite H1. cbn [Z.eqb Pos.eqb]. rewrite at_bad by (unfold len; cbn; lia).
      reflexivity.
    + rewrite at_bad by (unfold len; cbn; lia). reflexivity.
  - intros [[-> H1] | ->] Hr.
    + destruct (Ebm.Length o =? 1) eqn:E; [lia |].
      rewrite sub_bad by lia. reflexivity.
    + rewrite sub_bad by lia. reflexivity.
Qed.

Lemma short_value_panics_witness :
  Ebm.ParseOID (exact (firstn 26 ticks_response)) = Panic SliceBoundsOutOfRange.
Proof.
  apply (proj1 (short_value_panics Ebm.OidTicks [x00; x00] []
                  ltac:(vm_compute; split; [discriminate | reflexivity])
                  ltac:(vm_compute; split; [discriminate | reflexivity]))).
  - left. reflexivity.
  - vm_compute. reflexivity.
Defined.

(** ** The firmware decoder on arbitrary input *)

Lemma be_value_range (bs : list byte) :
  forall acc, 0 <= acc ->
    0 <= be_value acc bs < (acc + 1) * 256 ^ Z.of_nat (length bs).
Proof.
  induction bs as [| b bs IH]; intros acc Hacc.
  - cbn. lia.
  - cbn [be_value length]. pose proof (byte_to_Z_range b) as Hb.
    specialize (IH (acc * 256 + byte_to_Z b) ltac:(lia)).
    rewrite Nat2Z.inj_succ, Z.pow_succ_r by lia.
    assert (0 < 256 ^ Z.of_nat (length bs)) by (apply Z.pow_pos_nonneg; lia).
    nia.
Qed.

Lemma Uint32_range (b : slice) (v : Z) : Uint32 b = Ok v -> 0 <= v < 2 ^ 32.
Proof.
  unfold Uint32. destruct (at_ b 3); try discriminate. cbn [bind].
  assert (Hl : (length (firstn 4 (elems b)) <= 4)%nat)
    by (rewrite length_firstn; lia).
  set (l := firstn 4 (elems b)) in *. intros Hv.
  assert (Ev : v = be_value 0 l) by congruence. subst v. clear Hv.
  pose proof (be_value_range l 0 ltac:(lia)) as H.
  assert (256 ^ Z.of_nat (length l) <= 256 ^ 4)
    by (apply Z.pow_le_mono_r; lia).
  change (2 ^ 32) with (256 ^ 4). lia.
Qed.

Lemma S3_Ok_length (addr : Z) (payload : list byte) (line : string) :
  Srec.S3 addr payload = Ok line -> Z.of_nat (length payload) <= 250.
Proof.
  unfold Srec.S3, Srec.genericRecord. cbn [Srec.Size].
  destruct ((3 <? 0) || (3 >? 9)); [discriminate |].
  destruct (4 + Z.of_nat (length payload) + 1 >? 255) eqn:E; [discriminate |].
  intros _. lia.
Qed.

Lemma turn_valid (fwData : slice) (ptr ptr' : Z) (e : Fwutil.emitted) :
  Fwutil.turn fwData ptr = Ok (inr (e, ptr')) -> valid_emitted e.
Proof.
  unfold Fwutil.turn. intros H.
  destruct (ptr + 8 >? len fwData); [discriminate |].
  destruct (sub fwData ptr (ptr + 8)) as [record | |]; try discriminate.
  cbn [bind] in H.
  destruct (upto record 4) as [r04 | |]; try discriminate. cbn [bind] in H.
  destruct (Uint32 r04) as [addr | |] eqn:Ea; try discriminate. cbn [bind] in H.
  destruct (addr =? Fwutil.sentinel) eqn:Es; [discriminate |].
  destruct (at_ record 7) as [b7 | |]; try discriminate. cbn [bind] in H.
  destruct (sub fwData (ptr + 8) (ptr + 8 + byte_to_Z b7 * 4)) as [data | |] eqn:Ed;
    try discriminate. cbn [bind] in H.
  destruct (Srec.S3 addr (elems data)) as [line | |] eqn:El; try discriminate.
  cbn [bind] in H. injection H as <- _.
  unfold valid_emitted. cbn [Fwutil.e_addr Fwutil.e_data Fwutil.e_line].
  apply len_sub in Ed. unfold len in Ed.
  repeat split.
  - exact El.
  - apply (Uint32_range _ _ Ea).
  - apply (Uint32_range _ _ Ea).
  - lia.
  - rewrite Ed. replace (ptr + 8 + byte_to_Z b7 * 4 - (ptr + 8))
      with (byte_to_Z b7 * 4) by lia.
    apply Z.mod_mul. lia.
  - apply (S3_Ok_length _ _ _ El).
Qed.

Lemma walk_valid (fwData : slice) (fuel : nat) :
  forall (ptr : Z) (out : list Fwutil.emitted) (st : option Fwutil.stop),
    Fwutil.walk fuel fwData ptr = (out, st) -> Forall valid_emitted out.
Proof.
  induction fuel as [| fuel IH]; intros ptr out st H.
  - cbn in H. injection H as <- _. constructor.
  - cbn [Fwutil.walk] in H.
    destruct (Fwutil.turn fwData ptr) as [[s | [e ptr']] | err | p] eqn:E;
      try (injection H as <- _; constructor).
    destruct (Fwutil.walk fuel fwData ptr') as [rest st'] eqn:Ew.
    injection H as <- _. constructor.
    + apply (turn_valid _ _ _ _ E).
    + apply (IH _ _ _ Ew).
Qed.

(** X12. On every buffer, whatever its contents and spare capacity, the
    record walk ends within the turns [main] can take, and every record
    it has written by then is a valid S3 record: the address is a 32-bit
    value other than the sentinel, and the data are a multiple of four
    and at most 250 bytes. *)
Theorem record_walk_output (fwData : slice) :
  exists out st,
    Fwutil.recordWalk fwData = (out, Some st) /\ Forall valid_emitted out.
Proof.
  destruct (Fwutil.recordWalk fwData) as [out [st |]] eqn:E.
  - exists out, st. split; [reflexivity |].
    apply (walk_valid _ _ _ _ _ E).
  - exfalso. apply (recordWalk_total fwData). rewrite E. reflexivity.
Qed.

Lemma scan_finds_first (header : slice) (n : Z) (fuel : nat) :
  forall i k : Z,
    Fwutil.scan fuel header n i = Some (Fwutil.Found k) ->
    i <= k <= n /\
    Fwutil.word header (k * 32) (k * 32 + 4) = Ok mt5321 /\
    forall j, i <= j < k -> other_firmware header j.
Proof.
  induction fuel as [| fuel IH]; intros i k H; [discriminate |].
  cbn [Fwutil.scan] in H.
  destruct (i <=? n) eqn:Ei; [| discriminate].
  destruct (Fwutil.word header (i * 32) (i * 32 + 4)) as [v | e | p] eqn:Ew;
    try discriminate.
  destruct (v =? 0x23210010) eqn:Ev.
  - injection H as <-. apply Z.eqb_eq in Ev. subst v.
    repeat split; [lia | lia | exact Ew | intros j Hj; lia].
  - apply IH in H as (Hk & Hw & Hj). apply Z.eqb_neq in Ev.
    repeat split; [lia | lia | exact Hw |].
    intros j Hr. destruct (Z.eq_dec j i) as [-> | Hne].
    + exists v. split; [exact Ew | exact Ev].
    + apply Hj. lia.
Qed.

(** X13. When the header is accepted, it had the pack signature and the
    version 0x20000, the selected index is the first slot, counting from
    1, that bears the MT5321 signature, it does not exceed the firmware
    count, and the start offset, record count and size are the words at
    offsets 16, 24 and 4 of that slot. *)
Theorem readHeader_selects (header : slice) (sel : Fwutil.selection) :
  Fwutil.readHeader header = Ok sel ->
  let idx := Fwutil.mt5321FwIdx sel in
  Fwutil.word header 0 4 = Ok 0x61232321 /\
  Fwutil.word header 16 20 = Ok 0x20000 /\
  (exists n, Fwutil.word header 4 8 = Ok n /\ 1 <= idx <= n) /\
  Fwutil.word header (idx * 32) (idx * 32 + 4) = Ok mt5321 /\
  (forall j, 1 <= j < idx -> other_firmware header j) /\
  Fwutil.word header (32 * idx + 16) (32 * idx + 20) = Ok (Fwutil.fwStartOffset sel) /\
  Fwutil.word header (32 * idx + 24) (32 * idx + 28) = Ok (Fwutil.numberOfRecords sel) /\
  Fwutil.word header (32 * idx + 4) (32 * idx + 8) = Ok (Fwutil.fwSize sel).
Proof.
  unfold Fwutil.readHeader. intros H.
  destruct (Fwutil.word header 0 4) as [sig | |]; try discriminate.
  cbn [bind] in H.
  destruct (sig =? 0x61232321) eqn:Es; [| discriminate]. cbn [negb] in H.
  apply Z.eqb_eq in Es. subst sig.
  destruct (Fwutil.word header 16 20) as [ver | |]; try discriminate.
  cbn [bind] in H.
  destruct (ver =? 0x20000) eqn:Ev; [| discriminate]. cbn [negb] in H.
  apply Z.eqb_eq in Ev. subst ver.
  destruct (Fwutil.word header 4 8) as [n | |]; try discriminate.
  cbn [bind] in H.
  destruct ((n * 32) mod 2 ^ 32 >=? len header mod 2 ^ 32); [discriminate |].
  destruct (Fwutil.scan (Fwutil.scan_fuel header) header n 1)
    as [[k | | p] |] eqn:Esc; try discriminate.
  apply scan_finds_first in Esc as (Hk & Hw & Hj).
  destruct (Fwutil.word header (32 * k + 16) (32 * k + 20)) as [a | |] eqn:Ea;
    try discriminate. cbn [bind] in H.
  destruct (Fwutil.word header (32 * k + 24) (32 * k + 28)) as [b | |] eqn:Eb;
    try discriminate. cbn [bind] in H.
  destruct (Fwutil.word header (32 * k + 4) (32 * k + 8)) as [c | |] eqn:Ec;
    try discriminate. cbn [bind] in H.
  injection H as <-.
  cbn [Fwutil.mt5321FwIdx Fwutil.fwStartOffset Fwutil.numberOfRecords
       Fwutil.fwSize].
  repeat split; auto. exists n. auto.
Qed.

Lemma readHeader_selects_witness :
  Fwutil.word (exact wrapping_header) (1 * 32) (1 * 32 + 4) = Ok mt5321.
Proof.
  apply (readHeader_selects (exact wrapping_header)
           (Fwutil.mkSelection 1 0 0 0) ltac:(vm_compute; reflexivity)).
Defined.

Lemma scan_without_match (header : slice) (n : Z) (fuel : nat) :
  forall i : Z,
    cap header = 512 ->
    1 <= i <= 16 ->
    17 - i <= Z.of_nat fuel ->
    (forall j, i <= j <= Z.min n 15 -> other_firmware header j) ->
    Fwutil.scan fuel header n i
    = Some (if n <=? 15 then Fwutil.NotFound else Fwutil.Fault SliceBoundsOutOfRange).
Proof.
  induction fuel as [| fuel IH]; intros i Hc Hi Hf Ho; [lia |].
  cbn [Fwutil.scan].
  destruct (i <=? n) eqn:Ein.
  - destruct (Z.eq_dec i 16) as [-> | Hne].
    + unfold Fwutil.word. rewrite sub_bad by lia. cbn [bind].
      destruct (n <=? 15) eqn:E; [lia | reflexivity].
    + destruct (Ho i ltac:(lia)) as (v & Ew & Hv). rewrite Ew.
      unfold mt5321 in Hv. destruct (v =? 0x23210010) eqn:Ev; [lia |].
      apply IH; try lia. intros j Hj. apply Ho. lia.
  - destruct (n <=? 15) eqn:E; [reflexivity | lia].
Qed.

(** X14. On a 512-byte header with valid pack signature and version
    that passes the count check, and none of whose slots 1 to
    min(N, 15) bears the MT5321 signature, the decoder ends with the
    error that no MT5321 firmware was found when N is at most 15; when
    N is 16 or more, which the count check lets through only by
    wrap-around, the scan runs off the header and the decoder ends in a
    slice-bounds panic at slot 16. *)
Theorem no_matching_firmware (header : slice) (n : Z) :
  len header = 512 -> cap header = 512 ->
  Fwutil.word header 0 4 = Ok 0x61232321 ->
  Fwutil.word header 16 20 = Ok 0x20000 ->
  Fwutil.word header 4 8 = Ok n ->
  (n * 32) mod 2 ^ 32 < 512 ->
  (forall j, 1 <= j <= Z.min n 15 -> other_firmware header j) ->
  (n <= 15 ->
   Fwutil.readHeader header
   = Err "No MT5321 firmware signature found in firmware file") /\
  (16 <= n -> Fwutil.readHeader header = Panic SliceBoundsOutOfRange).
Proof.
  intros Hl Hc Hs Hv Hn Hchk Ho. unfold Fwutil.readHeader.
  rewrite Hs. cbn [bind negb Z.eqb Pos.eqb]. rewrite Hv.
  cbn [bind negb Z.eqb Pos.eqb]. rewrite Hn. cbn [bind]. rewrite Hl.
  change (512 mod 2 ^ 32) with 512.
  destruct ((n * 32) mod 2 ^ 32 >=? 512) eqn:E; [lia |].
  rewrite (scan_without_match header n (Fwutil.scan_fuel header) 1 Hc);
    [| lia | unfold Fwutil.scan_fuel; rewrite Hc; cbn; lia | exact Ho].
  split; intros H; destruct (n <=? 15) eqn:E15; try lia; reflexivity.
Qed.

Lemma no_matching_firmware_witness :
  Fwutil.readHeader (exact (foreign_header x03))
  = Err "No MT5321 firmware signature found in firmware file".
Proof.
  apply (proj1 (no_matching_firmware (exact (foreign_header x03)) 3
                  eq_refl eq_refl eq_refl eq_refl eq_refl eq_refl
                  ltac:(intros j Hj;
                        assert (Hc : j = 1 \/ j = 2 \/ j = 3) by lia;
                        destruct Hc as [-> | [-> | ->]];
                        (exists 0; split;
                         [vm_compute; reflexivity | discriminate])))).
  vm_compute. discriminate.
Defined.

(** ** S-records: emitting and parsing *)

Lemma fromHex_hex_digit (n : Z) :
  0 <= n < 16 -> Srec.fromHex (Srec.hex_digit n) = n.
Proof.
  intros H. rewrite <- (Z2Nat.id n) by lia.
  assert (Hk : (Z.to_nat n < 16)%nat) by lia.
  revert Hk. generalize (Z.to_nat n) as k. intros k Hk.
  do 16 (destruct k as [| k]; [reflexivity |]). lia.
Qed.

Lemma Atoi1_hex_digit (t : Z) :
  0 <= t <= 9 -> Srec.Atoi1 (Srec.hex_digit t) = Some t.
Proof.
  intros H. rewrite <- (Z2Nat.id t) by lia.
  assert (Hk : (Z.to_nat t < 10)%nat) by lia.
  revert Hk. generalize (Z.to_nat t) as k. intros k Hk.
  do 10 (destruct k as [| k]; [reflexivity |]). lia.
Qed.

Lemma nibbles (b : byte) :
  0 <= byte_to_Z b / 16 < 16 /\ 0 <= byte_to_Z b mod 16 < 16 /\
  byte_of_Z (byte_to_Z b / 16 * 16 + byte_to_Z b mod 16) = b.
Proof.
  pose proof (byte_to_Z_range b) as Hb.
  repeat split; try (Z.div_mod_to_equations; lia).
  rewrite <- (byte_of_to_Z b) at 3. f_equal.
  Z.div_mod_to_equations. lia.
Qed.

Lemma Decode_upper_hex (n : nat) (bs : list byte) :
  forall written,
    (length written + length bs <= n)%nat ->
    Srec.Decode n (Srec.upper_hex bs) written = Ok (written ++ bs).
Proof.
  induction bs as [| b bs IH]; intros written H.
  - cbn. rewrite app_nil_r. reflexivity.
  - cbn [Srec.upper_hex Srec.Decode].
    destruct (nibbles b) as (Hh & Hl & Hb).
    rewrite !fromHex_hex_digit by assumption.
    destruct (byte_to_Z b / 16 >? 15) eqn:E1; [lia |].
    destruct (byte_to_Z b mod 16 >? 15) eqn:E2; [lia |].
    destruct (length written <? n)%nat eqn:E3;
      [| apply Nat.ltb_ge in E3; cbn [length] in H; lia].
    rewrite Hb, IH.
    + rewrite <- app_assoc. reflexivity.
    + rewrite length_app. cbn [length] in *. lia.
Qed.

(** With a byte after the last pair of digits the decoder reports an
    error, whatever that byte is. *)
Lemma Decode_trailing (n : nat) (bs : list byte) (c : ascii) :
  forall written,
    (length written + length bs <= n)%nat ->
    exists e,
      Srec.Decode n (Srec.upper_hex bs ++ String c EmptyString)%string written
      = Err e.
Proof.
  induction bs as [| b bs IH]; intros written H.
  - cbn. destruct (Srec.fromHex c >? 15); eauto.
  - cbn [Srec.upper_hex String.append Srec.Decode].
    destruct (nibbles b) as (Hh & Hl & Hb).
    rewrite !fromHex_hex_digit by assumption.
    destruct (byte_to_Z b / 16 >? 15) eqn:E1; [lia |].
    destruct (byte_to_Z b mod 16 >? 15) eqn:E2; [lia |].
    destruct (length written <? n)%nat eqn:E3;
      [| apply Nat.ltb_ge in E3; cbn [length] in H; lia].
    apply IH. rewrite length_app. cbn [length] in *. lia.
Qed.

Lemma length_upper_hex (bs : list byte) :
  String.length (Srec.upper_hex bs) = (2 * length bs)%nat.
Proof.
  induction bs as [| b bs IH]; [reflexivity |].
  cbn [Srec.upper_hex String.length length]. rewrite IH. lia.
Qed.

Lemma length_append (s t : string) :
  String.length (s ++ t)%string = (String.length s + String.length t)%nat.
Proof. induction s as [| c s IH]; cbn; [reflexivity | rewrite IH; reflexivity]. Qed.

Lemma checksum_fold_range (l : list byte) :
  forall acc, 0 <= acc < 256 ->
    0 <= fold_left (fun a b => (a + byte_to_Z b) mod 256) l acc < 256.
Proof.
  induction l as [| b l IH]; intros acc H; [exact H |].
  cbn [fold_left]. apply IH. apply Z.mod_pos_bound. lia.
Qed.

Lemma sum8_cons (x : byte) (l : list byte) :
  Srec.sum8 (x :: l)
  = fold_left (fun a b => (a + byte_to_Z b) mod 256) l (byte_to_Z x).
Proof.
  unfold Srec.sum8. cbn [fold_left]. rewrite Z.add_0_l.
  rewrite Z.mod_small by apply byte_to_Z_range. reflexivity.
Qed.

Lemma lxor_255_byte (b : byte) : 0 <= Z.lxor (byte_to_Z b) 255 < 256.
Proof. destruct b; vm_compute; split; congruence. Qed.

Lemma lxor_255_range (s : Z) : 0 <= s < 256 -> 0 <= Z.lxor s 255 < 256.
Proof.
  intros H. rewrite <- (Z.mod_small s 256 H), <- byte_to_of_Z.
  apply lxor_255_byte.
Qed.

(** The parser on a line that holds a count byte followed by exactly as
    many bytes: everything is accepted up to the comparison of the
    checksums. *)
Lemma ParseGeneric_line (typ bc : Z) (init : list byte) (c : byte) :
  0 <= typ <= 9 ->
  bc = Z.of_nat (length init) + 1 -> bc <= 255 ->
  (2 <= length init)%nat ->
  Srec.ParseGeneric (Srec.line_of typ ([byte_of_Z bc] ++ init ++ [c]))
  = if byte_to_Z c
       =? Z.lxor (fold_left (fun a b => (a + byte_to_Z b) mod 256) init bc) 255
    then Ok (typ, mkSlice init [c])
    else Err "invalid checksum".
Proof.
  intros Ht Hbc H255 H2.
  unfold Srec.line_of. cbn [app Srec.upper_hex].
  assert (Hx : byte_to_Z (byte_of_Z bc) = bc)
    by (rewrite byte_to_of_Z; apply Z.mod_small; lia).
  rewrite Hx.
  set (body := Srec.upper_hex (init ++ [c])).
  assert (Hlen : String.length body = (2 * (length init + 1))%nat).
  { unfold body. rewrite length_upper_hex, length_app. reflexivity. }
  unfold Srec.ParseGeneric.
  cbn [String.length]. rewrite Hlen.
  destruct (S (S (S (S (2 * (length init + 1))))) <? 10)%nat eqn:E10;
    [apply Nat.ltb_lt in E10; lia |].
  rewrite Atoi1_hex_digit by lia.
  assert (Hh : 0 <= bc / 16 < 16) by (Z.div_mod_to_equations; lia).
  assert (Hl : 0 <= bc mod 16 < 16) by (Z.div_mod_to_equations; lia).
  rewrite !fromHex_hex_digit by assumption.
  destruct (bc / 16 >? 15) eqn:E1; [lia |].
  destruct (bc mod 16 >? 15) eqn:E2; [lia |]. cbn [orb].
  replace (bc / 16 * 16 + bc mod 16) with bc by (Z.div_mod_to_equations; lia).
  destruct (2 * bc >? _) eqn:E3.
  { clear - E3 Hbc. rewrite Z.gtb_ltb in E3. apply Z.ltb_lt in E3.
    rewrite !Nat2Z.inj_succ, Nat2Z.inj_mul, Nat2Z.inj_add in E3. lia. }
  unfold body. rewrite (Decode_upper_hex (Z.to_nat bc) (init ++ [c]) [])
    by (rewrite length_app; cbn [length]; lia).
  cbn [app].
  replace (Z.to_nat bc - length (init ++ [c]))%nat with 0%nat
    by (rewrite length_app; cbn [length]; lia).
  cbn [repeat]. rewrite app_nil_r.
  destruct (bc =? 0) eqn:E0; [lia |].
  rewrite removelast_last, last_last.
  destruct (byte_to_Z c =? _); reflexivity.
Qed.

Lemma ParseGeneric_trailing (typ bc : Z) (tail : list byte) (ch : ascii) :
  0 <= typ <= 9 ->
  bc = Z.of_nat (length tail) -> bc <= 255 ->
  (3 <= length tail)%nat ->
  Srec.ParseGeneric
    (Srec.line_of typ ([byte_of_Z bc] ++ tail) ++ String ch EmptyString)%string
  = Err "failed to decode payload".
Proof.
  intros Ht Hbc H255 H3.
  unfold Srec.line_of. cbn [app Srec.upper_hex String.append].
  assert (Hx : byte_to_Z (byte_of_Z bc) = bc)
    by (rewrite byte_to_of_Z; apply Z.mod_small; lia).
  rewrite Hx.
  set (body := (Srec.upper_hex tail ++ String ch EmptyString)%string).
  assert (Hlen : String.length body = (2 * length tail + 1)%nat).
  { unfold body. rewrite length_append, length_upper_hex. reflexivity. }
  unfold Srec.ParseGeneric.
  cbn [String.length]. rewrite Hlen.
  destruct (S (S (S (S (2 * length tail + 1)))) <? 10)%nat eqn:E10;
    [apply Nat.ltb_lt in E10; lia |].
  rewrite Atoi1_hex_digit by lia.
  assert (Hh : 0 <= bc / 16 < 16) by (Z.div_mod_to_equations; lia).
  assert (Hl : 0 <= bc mod 16 < 16) by (Z.div_mod_to_equations; lia).
  rewrite !fromHex_hex_digit by assumption.
  destruct (bc / 16 >? 15) eqn:E1; [lia |].
  destruct (bc mod 16 >? 15) eqn:E2; [lia |]. cbn [orb].
  replace (bc / 16 * 16 + bc mod 16) with bc by (Z.div_mod_to_equations; lia).
  destruct (2 * bc >? _) eqn:E3.
  { clear - E3 Hbc. rewrite Z.gtb_ltb in E3. apply Z.ltb_lt in E3.
    rewrite !Nat2Z.inj_succ, Nat2Z.inj_add, Nat2Z.inj_mul in E3. lia. }
  unfold body.
  destruct (Decode_trailing (Z.to_nat bc) tail ch []) as [e ->];
    [cbn [length]; lia | reflexivity].
Qed.

Lemma genericRecord_Ok (typ : Z) (addr : Srec.address) (payload : list byte)
    (text : string) :
  Srec.genericRecord typ addr payload = Ok text ->
  0 <= typ <= 9 /\
  Srec.Size addr + Z.of_nat (length payload) + 1 <= 255 /\
  text = (Srec.line_of typ
            (Srec.body_bytes addr payload
             ++ [byte_of_Z (Z.lxor (Srec.sum8 (Srec.body_bytes addr payload)) 255)])
          ++ Srec.newline)%string.
Proof.
  unfold Srec.genericRecord. intros H.
  destruct ((typ <? 0) || (typ >? 9)) eqn:Et; [discriminate |].
  destruct (Srec.Size addr + Z.of_nat (length payload) + 1 >? 255) eqn:El;
    [discriminate |].
  apply orb_false_iff in Et as [Et1 Et2].
  repeat split; try lia.
  unfold Srec.line_of, Srec.body_bytes. cbn [String.append].
  congruence.
Qed.

Lemma length_write_address (addr : Srec.address) :
  Z.of_nat (length (Srec.write_address addr)) = Srec.Size addr.
Proof. destruct addr; reflexivity. Qed.

(** X15. Emitting and parsing S-records are inverse to each other on
    lines: whenever [genericRecord] produces a text, that text is a line
    followed by one newline; parsing the line gives back the record type
    and, as the data, the address bytes followed by the payload, the
    checksum byte being kept as spare capacity; and parsing the text with
    its newline still attached fails with an error. *)
Theorem srec_round_trip
    (typ : Z) (addr : Srec.address) (payload : list byte) (text : string) :
  Srec.genericRecord typ addr payload = Ok text ->
  exists line ck,
    text = (line ++ Srec.newline)%string /\
    Srec.ParseGeneric line
    = Ok (typ, mkSlice (Srec.write_address addr ++ payload) [ck]) /\
    Srec.ParseGeneric text = Err "failed to decode payload".
Proof.
  intros H. apply genericRecord_Ok in H as (Ht & Hl & ->).
  pose proof (length_write_address addr) as Ha.
  assert (Hs : 2 <= Srec.Size addr) by (destruct addr; cbn; lia).
  set (bc := Srec.Size addr + Z.of_nat (length payload) + 1) in *.
  set (ck := byte_of_Z (Z.lxor (Srec.sum8 (Srec.body_bytes addr payload)) 255)).
  exists (Srec.line_of typ (Srec.body_bytes addr payload ++ [ck])), ck.
  split; [reflexivity |]. split.
  - unfold Srec.body_bytes. fold bc.
    rewrite <- (app_assoc [byte_of_Z bc] (Srec.write_address addr ++ payload)).
    rewrite (ParseGeneric_line typ bc (Srec.write_address addr ++ payload) ck);
      try lia; try (rewrite length_app; lia).
    assert (Hck : byte_to_Z ck
                  = Z.lxor (fold_left (fun a b => (a + byte_to_Z b) mod 256)
                              (Srec.write_address addr ++ payload) bc) 255).
    { unfold ck, Srec.body_bytes. fold bc. cbn [app].
      rewrite sum8_cons, !byte_to_of_Z.
      rewrite (Z.mod_small bc) by lia.
      apply Z.mod_small. apply lxor_255_range. apply checksum_fold_range. lia. }
    rewrite Hck, Z.eqb_refl. reflexivity.
  - unfold Srec.body_bytes, Srec.newline. fold bc.
    rewrite <- (app_assoc [byte_of_Z bc] (Srec.write_address addr ++ payload)).
    apply ParseGeneric_trailing; try lia;
      rewrite !length_app; cbn [length]; lia.
Qed.

(** X16. A record whose checksum byte is anything but the computed one
    is rejected: for the count, address and data bytes of a record that
    [genericRecord] emits, every line ending in another checksum byte
    fails to parse with the checksum error. *)
Theorem wrong_checksum_rejected
    (typ : Z) (addr : Srec.address) (payload : list byte) (text : string)
    (c : byte) :
  Srec.genericRecord typ addr payload = Ok text ->
  c <> byte_of_Z (Z.lxor (Srec.sum8 (Srec.body_bytes addr payload)) 255) ->
  Srec.ParseGeneric (Srec.line_of typ (Srec.body_bytes addr payload ++ [c]))
  = Err "invalid checksum".
Proof.
  intros H Hc. apply genericRecord_Ok in H as (Ht & Hl & _).
  pose proof (length_write_address addr) as Ha.
  assert (Hs : 2 <= Srec.Size addr) by (destruct addr; cbn; lia).
  unfold Srec.body_bytes in *.
  set (bc := Srec.Size addr + Z.of_nat (length payload) + 1) in *.
  rewrite <- (app_assoc [byte_of_Z bc] (Srec.write_address addr ++ payload)).
  rewrite (ParseGeneric_line typ bc (Srec.write_address addr ++ payload) c);
    try lia; try (rewrite length_app; lia).
  destruct (byte_to_Z c =? _) eqn:E; [| reflexivity].
  exfalso. apply Hc. apply Z.eqb_eq in E.
  rewrite <- (byte_of_to_Z c), E. f_equal. f_equal.
  cbn [app]. rewrite sum8_cons, byte_to_of_Z, (Z.mod_small bc) by lia.
  reflexivity.
Qed.

Lemma srec_round_trip_witness :
  exists line ck,
    comment_text = (line ++ Srec.newline)%string /\
    Srec.ParseGeneric line
    = Ok (0, mkSlice (Srec.write_address (Srec.Addr16 0) ++ comment) [ck]) /\
    Srec.ParseGeneric comment_text = Err "failed to decode payload".
Proof.
  apply (srec_round_trip 0 (Srec.Addr16 0) comment comment_text).
  vm_compute. reflexivity.
Defined.

Lemma wrong_checksum_rejected_witness :
  Srec.ParseGeneric
    (Srec.line_of 0 (Srec.body_bytes (Srec.Addr16 0) comment ++ [xfb]))
  = Err "invalid checksum".
Proof.
  apply (wrong_checksum_rejected 0 (Srec.Addr16 0) comment comment_text xfb).
  - vm_compute. reflexivity.
  - vm_compute. discriminate.
Defined.

Lemma checksum_fold_total (l : list byte) :
  forall acc,
    fold_left (fun a b => (a + byte_to_Z b) mod 256) l acc mod 256
    = (acc + total l) mod 256.
Proof.
  induction l as [| b l IH]; intros acc.
  - cbn. rewrite Z.add_0_r. reflexivity.
  - cbn [fold_left]. rewrite IH.
    change (total (b :: l)) with (byte_to_Z b + total l).
    rewrite Zplus_mod_idemp_l. f_equal. lia.
Qed.

Lemma total_app (a b : list byte) : total (a ++ b) = total a + total b.
Proof.
  induction a as [| x a IH]; [reflexivity |].
  change (total ((x :: a) ++ b)) with (byte_to_Z x + total (a ++ b)).
  change (total (x :: a)) with (byte_to_Z x + total a).
  rewrite IH. lia.
Qed.

Lemma lxor_cancel (a b c : Z) : Z.lxor a c = Z.lxor b c -> a = b.
Proof.
  intros H.
  rewrite <- (Z.lxor_0_r a), <- (Z.lxor_nilpotent c), <- Z.lxor_assoc, H.
  rewrite Z.lxor_assoc, Z.lxor_nilpotent, Z.lxor_0_r. reflexivity.
Qed.

(** X17. The checksum detects every change of a single byte: take the
    count, address, data and checksum of a record that [genericRecord]
    emits and replace one address or data byte by another value; the
    resulting line fails to parse with the checksum error. *)
Theorem single_byte_change_detected
    (typ : Z) (addr : Srec.address) (payload : list byte) (text : string)
    (l1 l2 : list byte) (b b' : byte) :
  Srec.genericRecord typ addr payload = Ok text ->
  Srec.write_address addr ++ payload = l1 ++ [b] ++ l2 ->
  b' <> b ->
  Srec.ParseGeneric
    (Srec.line_of typ
       ([byte_of_Z (Srec.Size addr + Z.of_nat (length payload) + 1)]
        ++ (l1 ++ [b'] ++ l2)
        ++ [byte_of_Z (Z.lxor (Srec.sum8 (Srec.body_bytes addr payload)) 255)]))
  = Err "invalid checksum".
Proof.
  intros H Hsplit Hb. apply genericRecord_Ok in H as (Ht & Hl & _).
  pose proof (length_write_address addr) as Ha.
  assert (Hs : 2 <= Srec.Size addr) by (destruct addr; cbn; lia).
  assert (Hlen : Z.of_nat (length (l1 ++ [b] ++ l2))
                 = Srec.Size addr + Z.of_nat (length payload))
    by (rewrite <- Hsplit, length_app; lia).
  unfold Srec.body_bytes. rewrite Hsplit.
  set (bc := Srec.Size addr + Z.of_nat (length payload) + 1) in *.
  assert (Hlen' : Z.of_nat (length (l1 ++ [b'] ++ l2)) = bc - 1).
  { rewrite !length_app in *. cbn [length] in *. lia. }
  rewrite (ParseGeneric_line typ bc (l1 ++ [b'] ++ l2)); try lia.
  set (f := fun a x => (a + byte_to_Z x) mod 256).
  destruct (byte_to_Z _ =? _) eqn:E; [| reflexivity].
  exfalso. apply Z.eqb_eq in E.
  cbn [app] in E. rewrite sum8_cons, !byte_to_of_Z in E.
  rewrite (Z.mod_small bc) in E by lia. fold f in E.
  pose proof (checksum_fold_range (l1 ++ b :: l2) bc ltac:(lia)) as R1.
  pose proof (checksum_fold_range (l1 ++ b' :: l2) bc ltac:(lia)) as R2.
  fold f in R1, R2.
  rewrite Z.mod_small in E by (apply lxor_255_range; exact R1).
  assert (Ef : fold_left f (l1 ++ b :: l2) bc = fold_left f (l1 ++ b' :: l2) bc).
  { apply (lxor_cancel _ _ 255). exact E. }
  pose proof (checksum_fold_total (l1 ++ b :: l2) bc) as T1.
  pose proof (checksum_fold_total (l1 ++ b' :: l2) bc) as T2.
  fold f in T1, T2.
  rewrite (Z.mod_small _ 256 R1) in T1. rewrite (Z.mod_small _ 256 R2) in T2.
  rewrite T1, T2 in Ef.
  rewrite !total_app in Ef.
  change (total (b :: l2)) with (byte_to_Z b + total l2) in Ef.
  change (total (b' :: l2)) with (byte_to_Z b' + total l2) in Ef.
  pose proof (byte_to_Z_range b). pose proof (byte_to_Z_range b').
  assert (Hne : byte_to_Z b' <> byte_to_Z b).
  { intros Heq. apply Hb. rewrite <- (byte_of_to_Z b'), Heq. apply byte_of_to_Z. }
  set (base := bc + (total l1 + total l2)) in *.
  replace (bc + (total l1 + (byte_to_Z b + total l2)))
    with (base + byte_to_Z b) in Ef by (unfold base; lia).
  replace (bc + (total l1 + (byte_to_Z b' + total l2)))
    with (base + byte_to_Z b') in Ef by (unfold base; lia).
  clearbody base. clear - Ef Hne H H0.
  Z.div_mod_to_equations. lia.
Qed.

Lemma single_byte_change_detected_witness :
  Srec.ParseGeneric
    (Srec.line_of 0
       ([byte_of_Z (Srec.Size (Srec.Addr16 0) + Z.of_nat (length comment) + 1)]
        ++ ([x00; x00] ++ [x48] ++ skipn 1 comment)
        ++ [byte_of_Z
              (Z.lxor (Srec.sum8 (Srec.body_bytes (Srec.Addr16 0) comment)) 255)]))
  = Err "invalid checksum".
Proof.
  apply (single_byte_change_detected 0 (Srec.Addr16 0) comment comment_text
           [x00; x00] (skipn 1 comment) x47 x48).
  - vm_compute. reflexivity.
  - reflexivity.
  - discriminate.
Defined.

(** ** Obfuscation *)

Lemma xor8_involutive (b k : byte) : Fwutil.xor8 (Fwutil.xor8 b k) k = b.
Proof.
  unfold Fwutil.xor8. rewrite byte_to_of_Z.
  pose proof (byte_to_Z_range b) as Hb. pose proof (byte_to_Z_range k) as Hk.
  assert (Hr : 0 <= Z.lxor (byte_to_Z b) (byte_to_Z k) < 256).
  { split; [apply Z.lxor_nonneg; lia |].
    destruct (Z.eq_dec (Z.lxor (byte_to_Z b) (byte_to_Z k)) 0) as [-> | Hne]; [lia |].
    apply (Z.log2_lt_cancel _ 256).
    pose proof (Z.log2_lxor (byte_to_Z b) (byte_to_Z k) ltac:(lia) ltac:(lia)) as Hx.
    change (Z.log2 256) with 8.
    assert (Z.log2 (byte_to_Z b) < 8).
    { destruct (Z.eq_dec (byte_to_Z b) 0) as [-> | ?]; [cbn; lia |].
      apply Z.log2_lt_pow2; lia. }
    assert (Z.log2 (byte_to_Z k) < 8).
    { destruct (Z.eq_dec (byte_to_Z k) 0) as [-> | ?]; [cbn; lia |].
      apply Z.log2_lt_pow2; lia. }
    lia. }
  rewrite Z.mod_small by exact Hr.
  rewrite Z.lxor_assoc, Z.lxor_nilpotent, Z.lxor_0_r.
  apply byte_of_to_Z.
Qed.

Lemma process_app (key : list byte) (a b : list byte) :
  forall n,
    Download.process key n (a ++ b)
    = Download.process key n a ++ Download.process key (n + length a) b.
Proof.
  induction a as [| x a IH]; intros n.
  - cbn. rewrite Nat.add_0_r. reflexivity.
  - cbn [app Download.process length]. rewrite IH. do 3 f_equal. lia.
Qed.

Lemma process_involutive (key : list byte) (data : list byte) :
  forall n, Download.process key n (Download.process key n data) = data.
Proof.
  induction data as [| b data IH]; intros n; [reflexivity |].
  cbn [Download.process]. rewrite xor8_involutive, IH. reflexivity.
Qed.

Lemma length_process (key : list byte) (data : list byte) :
  forall n, length (Download.process key n data) = length data.
Proof.
  induction data as [| b data IH]; intros n; [reflexivity |].
  cbn [Download.process length]. rewrite IH. reflexivity.
Qed.

Lemma process_deobfuscate (data : list byte) :
  forall n, Download.process Download.key n data = Fwutil.deobfuscate n data.
Proof.
  induction data as [| b data IH]; intros n; [reflexivity |].
  cbn [Download.process Fwutil.deobfuscate]. rewrite IH. reflexivity.
Qed.

Lemma Write_Ok (s : Download.XorStream) (data : list byte) :
  Download.Key s <> [] ->
  Download.Write s data
  = Ok (Download.mkXorStream (Download.Key s) (Download.n s + length data),
        Download.process (Download.Key s) (Download.n s) data).
Proof.
  intros H. unfold Download.Write.
  destruct data; destruct (Download.Key s); try reflexivity. contradiction.
Qed.

(** X18. An [XorStream] with a non-empty key keeps its place in the key
    across writes: writing [a] and then [b] hands on the same bytes, and
    leaves the same stream, as writing [a ++ b] at once; the output is as
    long as the input; and writing the output of a write from the same
    state gives the input back. *)
Theorem xor_stream_laws (s : Download.XorStream) (a b : list byte) :
  Download.Key s <> [] ->
  exists s1 s2 wa wb,
    Download.Write s a = Ok (s1, wa) /\
    Download.Write s1 b = Ok (s2, wb) /\
    Download.Write s (a ++ b) = Ok (s2, wa ++ wb) /\
    length wa = length a /\
    Download.Write s wa = Ok (s1, a).
Proof.
  intros H. do 4 eexists.
  rewrite (Write_Ok s a H).
  split; [reflexivity |]. split; [apply Write_Ok; exact H |].
  split; [| split].
  - rewrite (Write_Ok s (a ++ b) H), process_app, length_app.
    cbn [Download.Key Download.n]. rewrite Nat.add_assoc. reflexivity.
  - apply length_process.
  - rewrite (Write_Ok s _ H), process_involutive, length_process. reflexivity.
Qed.

Lemma xor_stream_laws_witness :
  exists s1 s2 wa wb,
    Download.Write (stream 126) [x10; x00; x00; x00] = Ok (s1, wa) /\
    Download.Write s1 [x00; x00; x00; x02] = Ok (s2, wb) /\
    Download.Write (stream 126) ([x10; x00; x00; x00] ++ [x00; x00; x00; x02])
    = Ok (s2, wa ++ wb) /\
    length wa = 4%nat /\
    Download.Write (stream 126) wa = Ok (s1, [x10; x00; x00; x00]).
Proof.
  apply (xor_stream_laws (stream 126) [x10; x00; x00; x00] [x00; x00; x00; x02]).
  discriminate.
Defined.

(** X19. The two tools use the same 128-byte key and undo each other:
    what the bootloader's stream makes of de-obfuscated bytes, from the
    same offset, are the obfuscated bytes the firmware decoder started
    from, and the other way round. *)
Theorem obfuscation_inverse (n : nat) (bytes : list byte) :
  Download.key = Fwutil.key /\
  Download.process Download.key n (Fwutil.deobfuscate n bytes) = bytes /\
  Fwutil.deobfuscate n (Download.process Download.key n bytes) = bytes /\
  length (Fwutil.deobfuscate n bytes) = length bytes.
Proof.
  split; [reflexivity |].
  rewrite <- !process_deobfuscate, process_involutive, length_process. auto.
Qed.

(** ** From the decoder's output to the download *)

Lemma emitted_line_parses
    (typ : Z) (addr : Srec.address) (payload : list byte) (text : string) :
  Srec.genericRecord typ addr payload = Ok text ->
  exists line ck,
    text = (line ++ Srec.newline)%string /\
    Srec.ParseGeneric line
    = Ok (typ, mkSlice (Srec.write_address addr ++ payload) [ck]).
Proof.
  intros H. apply genericRecord_Ok in H as (Ht & Hl & ->).
  pose proof (length_write_address addr) as Ha.
  assert (Hs : 2 <= Srec.Size addr) by (destruct addr; cbn; lia).
  set (bc := Srec.Size addr + Z.of_nat (length payload) + 1) in *.
  set (ck := byte_of_Z (Z.lxor (Srec.sum8 (Srec.body_bytes addr payload)) 255)).
  exists (Srec.line_of typ (Srec.body_bytes addr payload ++ [ck])), ck.
  split; [reflexivity |].
  unfold Srec.body_bytes. fold bc.
  rewrite <- (app_assoc [byte_of_Z bc] (Srec.write_address addr ++ payload)).
  rewrite (ParseGeneric_line typ bc (Srec.write_address addr ++ payload) ck);
    try lia; try (rewrite length_app; lia).
  assert (Hck : byte_to_Z ck
                = Z.lxor (fold_left (fun a b => (a + byte_to_Z b) mod 256)
                            (Srec.write_address addr ++ payload) bc) 255).
  { unfold ck, Srec.body_bytes. fold bc. cbn [app].
    rewrite sum8_cons, !byte_to_of_Z.
    rewrite (Z.mod_small bc) by lia.
    apply Z.mod_small. apply lxor_255_range. apply checksum_fold_range. lia. }
  rewrite Hck, Z.eqb_refl. reflexivity.
Qed.

Lemma key_nonempty (n : nat) : Download.Key (stream n) <> [].
Proof. discriminate. Qed.

Lemma recordPayload_S3 (n : nat) (line : string) (a : Z) (d : list byte) (ck : byte) :
  Srec.ParseGeneric line = Ok (3, mkSlice (put_u32 a ++ d) [ck]) ->
  Download.recordPayload (stream n) line
  = Ok (stream (n + (8 + length d)),
        Some (Download.process Download.key n
                (put_u32 a ++ put_u32 ((Z.of_nat (length d) / 4) mod 2 ^ 32) ++ d))).
Proof.
  intros Hp. unfold Download.recordPayload. rewrite Hp.
  cbn [Z.eqb Pos.eqb negb].
  change (mkSlice (put_u32 a ++ d) [ck])
    with (mkSlice ([] ++ put_u32 a ++ d) [ck]) at 1.
  rewrite (sub_middle [] (put_u32 a) d [ck] 0 4) by reflexivity.
  cbn [bind]. unfold from.
  rewrite <- (app_nil_r d) at 1.
  rewrite (sub_middle (put_u32 a) d [] [ck] 4).
  2:{ reflexivity. }
  2:{ unfold len. cbn [elems]. rewrite !length_app, length_put_u32.
      cbn [length]. lia. }
  cbn [bind elems].
  rewrite Write_Ok by apply key_nonempty.
  cbn [bind fst snd Download.Key Download.n stream].
  rewrite Write_Ok by discriminate.
  cbn [bind fst snd Download.Key Download.n].
  rewrite Write_Ok by discriminate.
  cbn [bind fst snd Download.Key Download.n].
  unfold len. cbn [elems].
  rewrite !process_app, !length_put_u32. unfold stream.
  do 2 f_equal. f_equal. lia.
Qed.

(** X20. For a firmware record the decoder wrote as an S3 line, the
    download loop composes exactly the record's binary form: from the
    line without its newline it takes the four address bytes and the
    data, puts the word count between them, and hands the XOR of
    [address || word-length || data] with the key, continued from where
    the previous record left off, to the [DownloadRecord] message; the
    stream moves on by the length of the record. *)
Theorem download_record_payload (r : Fwutil.record) (n : nat) (text : string) :
  Fwutil.well_formed r ->
  Srec.S3 (Fwutil.address r) (Fwutil.data r) = Ok text ->
  exists line,
    text = (line ++ Srec.newline)%string /\
    Download.recordPayload (stream n) line
    = Ok (stream (n + length (Fwutil.encode r)),
          Some (Download.process Download.key n (Fwutil.encode r))).
Proof.
  intros (Ha & Hn & Hw & Hd) H.
  destruct (emitted_line_parses _ _ _ _ H) as (line & ck & Ht & Hp).
  exists line. split; [exact Ht |].
  cbn [Srec.write_address] in Hp.
  rewrite (recordPayload_S3 n line _ _ ck Hp).
  rewrite Hd, Z.mul_comm, Z.div_mul, Z.mod_small by lia.
  rewrite length_encode. reflexivity.
Qed.

Lemma download_record_payload_witness :
  exists line text,
    Srec.S3 0x10000000 [x00; x01; x02; x03; x04; x05; x06; x07] = Ok text /\
    text = (line ++ Srec.newline)%string /\
    Download.recordPayload (stream 0) line
    = Ok (stream 16,
          Some [xa4; xdf; x15; x73; x69; xbe; x2a; xe5;
                xd3; x7d; x57; xcd; xa2; xfd; xad; x9a]).
Proof.
  destruct (download_record_payload small_record 0 _
              ltac:(repeat split; vm_compute; congruence) eq_refl)
    as (line & Ht & Hp).
  exists line. eexists. split; [reflexivity |]. split; [exact Ht |].
  rewrite Hp. vm_compute. reflexivity.
Defined.

(** ** What a parsed S-record guarantees *)

Lemma Decode_Ok (m : nat) :
  forall (n : nat) (src : string) (written w : list byte),
    (String.length src <= m)%nat ->
    Srec.Decode n src written = Ok w ->
    (length written <= n)%nat ->
    String.length src = (2 * (length w - length written))%nat /\
    (length written <= length w <= n)%nat.
Proof.
  induction m as [| m IH]; intros n src written w Hm H Hn.
  - destruct src; [| cbn in Hm; lia]. cbn in H. injection H as <-.
    cbn. lia.
  - destruct src as [| p [| q rest]].
    + cbn in H. injection H as <-. cbn. lia.
    + cbn in H. destruct (Srec.fromHex p >? 15); discriminate.
    + cbn [Srec.Decode] in H.
      destruct (Srec.fromHex p >? 15); [discriminate |].
      destruct (Srec.fromHex q >? 15); [discriminate |].
      destruct (length written <? n)%nat eqn:E; [| discriminate].
      apply Nat.ltb_lt in E.
      apply IH in H; [| cbn [String.length] in Hm; lia
                      | rewrite length_app; cbn [length]; lia].
      rewrite length_app in H. cbn [length String.length] in *. lia.
Qed.

(** X21. A record the parser accepts has a definite shape: the text
    starts with [S], its second character is the decimal digit of the
    returned type, its length is exactly four characters plus two for
    each byte the count byte announces, and the data returned are
    between 0 and 254 bytes, with the checksum byte as the only spare
    capacity behind them. *)
Theorem ParseGeneric_accepts (record : string) (typ : Z) (p : slice) :
  Srec.ParseGeneric record = Ok (typ, p) ->
  String.get 0 record = Some "S"%char /\
  0 <= typ <= 9 /\
  String.get 1 record = Some (Srec.hex_digit typ) /\
  len p <= 254 /\ cap p = len p + 1 /\
  Z.of_nat (String.length record) = 4 + 2 * (len p + 1).
Proof.
  unfold Srec.ParseGeneric. intros H.
  destruct record as [| c0 record']; [discriminate |].
  destruct (Ascii.ascii_dec c0 "S"%char) as [-> | Hne].
  2:{ exfalso. destruct c0 as [[|] [|] [|] [|] [|] [|] [|] [|]];
        try discriminate H. apply Hne. reflexivity. }
  destruct (String.length (String "S" record') <? 10)%nat eqn:E10;
    [discriminate |].
  destruct record' as [| t [| h [| l body]]]; try discriminate.
  unfold Srec.Atoi1 in H.
  set (tv := Z.of_nat (nat_of_ascii t)) in *.
  destruct ((48 <=? tv) && (tv <=? 57)) eqn:Et; [| discriminate].
  apply andb_true_iff in Et as [Et1 Et2].
  destruct ((Srec.fromHex h >? 15) || (Srec.fromHex l >? 15)) eqn:Eh;
    [discriminate |].
  apply orb_false_iff in Eh as [Eh1 Eh2].
  set (bc := Srec.fromHex h * 16 + Srec.fromHex l) in *.
  assert (Hbc : 0 <= bc <= 255).
  { assert (forall c, 0 <= Srec.fromHex c).
    { intros c. unfold Srec.fromHex.
      destruct ((48 <=? _) && (_ <=? 57)) eqn:A1;
        [apply andb_true_iff in A1; lia |].
      destruct ((97 <=? _) && (_ <=? 102)) eqn:A2;
        [apply andb_true_iff in A2; lia |].
      destruct ((65 <=? _) && (_ <=? 70)) eqn:A3;
        [apply andb_true_iff in A3; lia | lia]. }
    pose proof (H0 h). pose proof (H0 l). unfold bc. lia. }
  destruct (2 * bc >? _) eqn:E3; [discriminate |].
  destruct (Srec.Decode (Z.to_nat bc) body []) as [w | e | pp] eqn:Ed;
    try discriminate.
  apply (Decode_Ok (String.length body)) in Ed as [Hl Hw];
    [| lia | cbn; lia].
  cbn [length] in Hl, Hw. rewrite Nat.sub_0_r in Hl.
  destruct (bc =? 0) eqn:E0; [discriminate |].
  cbn [String.length] in E3.
  assert (Hwl : length w = Z.to_nat bc).
  { rewrite Z.gtb_ltb in E3. apply Z.ltb_ge in E3.
    rewrite !Nat2Z.inj_succ, Hl, Nat2Z.inj_mul in E3. lia. }
  replace (Z.to_nat bc - length w)%nat with 0%nat in H by lia.
  cbn [repeat] in H. rewrite app_nil_r in H.
  destruct (negb _) in H; [discriminate |].
  injection H as <- <-.
  assert (Hrl : length (removelast w) = (length w - 1)%nat).
  { destruct (exists_last (l := w)) as (w' & x & ->).
    - intros ->. cbn in Hwl. lia.
    - rewrite removelast_last, length_app. cbn. lia. }
  repeat split; try lia.
  - f_equal. unfold Srec.hex_digit.
    destruct (tv - 48 <? 10) eqn:E; [| lia].
    replace (48 + (tv - 48)) with tv by lia.
    unfold tv. rewrite Nat2Z.id, ascii_nat_embedding. reflexivity.
  - unfold len. cbn [elems]. rewrite Hrl. lia.
  - unfold len. cbn [elems String.length]. rewrite Hrl.
    rewrite !Nat2Z.inj_succ, Hl, Nat2Z.inj_mul. lia.
Qed.

Lemma ParseGeneric_accepts_witness :
  Z.of_nat (String.length comment_line) = 4 + 2 * (47 + 1).
Proof.
  apply (ParseGeneric_accepts comment_line 0
           (mkSlice ([x00; x00] ++ comment) [xfa])).
  vm_compute. reflexivity.
Defined.

(** ** A download to a device that answers at once *)

Lemma seq_of_range (k : nat) : 0 <= seq_of k < 2 ^ 16.
Proof. unfold seq_of. apply Z.mod_pos_bound. lia. Qed.

Lemma seq_of_succ (k : nat) : (seq_of k + 1) mod 2 ^ 16 = seq_of (S k).
Proof.
  unfold seq_of. rewrite Z.add_mod_idemp_l by lia.
  f_equal. lia.
Qed.

Lemma exchange_acknowledged
    (c : Bootloader.conn) (req : Bootloader.message)
    (env : nat -> Bootloader.attempt) (w : Download.wire) (ty : Z) :
  0 <= Bootloader.seqNo c < 2 ^ 16 -> 0 <= ty < 2 ^ 16 ->
  len (Bootloader.Payload req) <= 65535 ->
  env 0%nat = Bootloader.Received (answer (Bootloader.seqNo c) ty) ->
  exists res,
    Download.exchange c req env w
    = (Bootloader.mkconn (Bootloader.addr c)
         ((Bootloader.seqNo c + 1) mod 2 ^ 16),
       w ++ [(Bootloader.addr c, request (Bootloader.seqNo c) req)],
       Ok res) /\
    Download.accepted ty (Ok res) = Ok tt.
Proof.
  intros Hs Hty Hl He.
  unfold Download.exchange, Bootloader.Exchange, Bootloader.MarshalBinary.
  cbn [Bootloader.Payload Bootloader.Type_ Bootloader.SequenceNumber].
  unfold Bootloader.MaxUint16.
  destruct (len (Bootloader.Payload req) >? 65535) eqn:E; [lia |].
  cbn [Bootloader.tries]. rewrite He.
  set (s := Bootloader.seqNo c) in *.
  assert (Hr : Bootloader.read_into (repeat x00 1600) (answer s ty)
               = (answer s ty ++ repeat x00 1554,
                  mkSlice (put_u16 s ++ put_u16 1 ++ put_u16 ty
                           ++ x00 :: repeat x00 39)
                          (repeat x00 1554))).
  { reflexivity. }
  rewrite Hr.
  rewrite (parseMessage_frame s ty 1 (x00 :: repeat x00 39)
             (repeat x00 1554)) by (cbn [length]; lia).
  cbn [Bootloader.SequenceNumber]. rewrite Z.eqb_refl. cbn [negb].
  eexists. split; [reflexivity |].
  unfold Download.accepted. cbn [Bootloader.Type_ Bootloader.Payload].
  rewrite Z.eqb_refl. reflexivity.
Qed.

Lemma recordPayload_record (r : Fwutil.record) (n : nat) (line : string) :
  Fwutil.well_formed r ->
  Srec.S3 (Fwutil.address r) (Fwutil.data r) = Ok (line ++ Srec.newline)%string ->
  Download.recordPayload (stream n) line
  = Ok (stream (n + length (Fwutil.encode r)),
        Some (Download.process Download.key n (Fwutil.encode r))) /\
  Z.of_nat (length (Fwutil.encode r)) <= 258.
Proof.
  intros (Ha & Hn & Hw & Hd) H.
  pose proof (genericRecord_Ok _ _ _ _ H) as (_ & Hlen & _).
  cbn [Srec.Size] in Hlen.
  destruct (emitted_line_parses _ _ _ _ H) as (line' & ck & Ht & Hp).
  assert (line' = line) as ->.
  { clear - Ht. revert line Ht.
    induction line' as [| a l IH]; intros [| b m] Ht; cbn in Ht.
    - reflexivity.
    - injection Ht as _ Ht. destruct m; discriminate.
    - injection Ht as _ Ht. destruct l; discriminate.
    - injection Ht as <- Ht. f_equal. apply IH. exact Ht. }
  split.
  - cbn [Srec.write_address] in Hp.
    rewrite (recordPayload_S3 n line _ _ ck Hp).
    rewrite Hd, Z.mul_comm, Z.div_mul, Z.mod_small by lia.
    rewrite length_encode. reflexivity.
  - rewrite length_encode. lia.
Qed.

Lemma downloadRecords_prompt (hw : list byte) (rs : list Fwutil.record) :
  forall (ls : list string) (n k : nat) (w : Download.wire),
    Forall Fwutil.well_formed rs ->
    lines_of rs ls ->
    Download.downloadRecords (Bootloader.mkconn hw (seq_of (S k))) (stream n)
      ls prompt (S k) w
    = (Bootloader.mkconn hw (seq_of (S k + length rs)),
       (S k + length rs)%nat,
       w ++ record_frames hw (S k) (payloads n rs),
       Ok tt).
Proof.
  induction rs as [| r rs IH]; intros ls0 n k w Hwf Hl;
    inversion Hl as [| r' rs' line ls HS Hls]; subst.
  - cbn [Download.downloadRecords length record_frames payloads].
    rewrite Nat.add_0_r, app_nil_r. reflexivity.
  - inversion Hwf as [| ? ? Hr Hrs]; subst.
    destruct (recordPayload_record r n line Hr HS) as [Hp Hlen].
    cbn [Download.downloadRecords]. rewrite Hp.
    destruct (exchange_acknowledged
                (Bootloader.mkconn hw (seq_of (S k)))
                (Download.downloadRecord
                   (Download.process Download.key n (Fwutil.encode r)))
                (prompt (S k)) w Download.typeAck)
      as (res & He & Ha).
    + apply seq_of_range.
    + unfold Download.typeAck. lia.
    + unfold len, Download.downloadRecord, exact.
      cbn [Bootloader.Payload elems]. rewrite length_process. lia.
    + reflexivity.
    + rewrite He, Ha. cbn [Bootloader.seqNo Bootloader.addr].
      rewrite seq_of_succ, (IH ls _ (S k)) by assumption.
      cbn [length record_frames payloads].
      rewrite <- app_assoc. cbn [app].
      replace (S (S k) + length rs)%nat with (S k + S (length rs))%nat by lia.
      reflexivity.
Qed.

Lemma concat_payloads (rs : list Fwutil.record) :
  forall n,
    concat (payloads n rs)
    = Download.process Download.key n (concat (map Fwutil.encode rs)).
Proof.
  induction rs as [| r rs IH]; intros n; [reflexivity |].
  cbn [payloads map concat]. rewrite process_app, IH. reflexivity.
Qed.

(** X22. A download to a device that answers every request at the first
    attempt, from the file the decoder wrote for well-formed records (a
    header line emitted by [S0], then one S3 line per record): it
    succeeds, and the socket sees, in this order and once each, the
    [AssociateReq] to the default address, then to the new address the
    [DownloadBegin], one [DownloadRecord] per record and the
    [DownloadEnd], numbered 1, 2, 3, ... modulo 2^16. The header line
    produces no frame, and the record payloads put end to end are the
    records' bytes under the key, that is, as they stand in the
    firmware pack. *)
Theorem download_to_prompt_device
    (hw : list byte) (c : list byte) (header : string)
    (rs : list Fwutil.record) (ls : list string) :
  Z.of_nat (length hw) <= 65519 ->
  Srec.S0 c = Ok (header ++ Srec.newline)%string ->
  Forall Fwutil.well_formed rs ->
  lines_of rs ls ->
  Download.DownloadAndBoot hw (header :: ls) prompt
  = ([(Download.metanoiaDefaultAddr, request 1 (Download.associateRequest hw));
      (hw, request 2 Download.downloadBegin)]
     ++ record_frames hw 2 (payloads 0 rs)
     ++ [(hw, request (seq_of (2 + length rs))
                (Download.downloadEnd 0x02792767))],
     Ok tt) /\
  Fwutil.deobfuscate 0 (concat (payloads 0 rs)) = concat (map Fwutil.encode rs).
Proof.
  intros Hhw Hc Hwf Hl. split.
  2:{ rewrite concat_payloads, <- process_deobfuscate.
      apply process_involutive. }
  unfold Download.DownloadAndBoot.
  destruct (exchange_acknowledged
              (Bootloader.mkconn Download.metanoiaDefaultAddr 1)
              (Download.associateRequest hw) (prompt 0) []
              Download.typeAssociateRes)
    as (res1 & He1 & Ha1).
  { cbn [Bootloader.seqNo]. lia. }
  { unfold Download.typeAssociateRes. lia. }
  { unfold len, Download.associateRequest, exact.
    cbn [Bootloader.Payload elems].
    rewrite !length_app, !length_put_u32. lia. }
  { reflexivity. }
  rewrite He1, Ha1. cbn [Bootloader.seqNo Bootloader.addr app].
  destruct (exchange_acknowledged
              (Bootloader.mkconn hw ((1 + 1) mod 2 ^ 16))
              Download.downloadBegin (prompt 1)
              [(Download.metanoiaDefaultAddr,
                request 1 (Download.associateRequest hw))]
              Download.typeAck)
    as (res2 & He2 & Ha2).
  { cbn [Bootloader.seqNo]. apply Z.mod_pos_bound. lia. }
  { unfold Download.typeAck. lia. }
  { vm_compute. discriminate. }
  { reflexivity. }
  rewrite He2, Ha2. cbn [Bootloader.seqNo Bootloader.addr app].
  change (((1 + 1) mod 2 ^ 16 + 1) mod 2 ^ 16) with (seq_of 2).
  change ((1 + 1) mod 2 ^ 16) with 2.
  (* the header line *)
  destruct (emitted_line_parses _ _ _ _ Hc) as (line' & ck & Ht & Hp).
  assert (line' = header) as ->.
  { clear - Ht. revert header Ht.
    induction line' as [| a l IH]; intros [| b m] Ht; cbn in Ht.
    - reflexivity.
    - injection Ht as _ Ht. destruct m; discriminate.
    - injection Ht as _ Ht. destruct l; discriminate.
    - injection Ht as <- Ht. f_equal. apply IH. exact Ht. }
  cbn [Download.downloadRecords]. unfold Download.recordPayload at 1.
  rewrite Hp. cbn [Z.eqb negb].
  fold (stream 0).
  rewrite (downloadRecords_prompt hw rs ls 0 1) by assumption.
  destruct (exchange_acknowledged
              (Bootloader.mkconn hw (seq_of (2 + length rs)))
              (Download.downloadEnd 0x02792767) (prompt (2 + length rs))
              ([(Download.metanoiaDefaultAddr,
                 request 1 (Download.associateRequest hw));
                (hw, request 2 Download.downloadBegin)]
               ++ record_frames hw 2 (payloads 0 rs))
              Download.typeAck)
    as (res3 & He3 & Ha3).
  { apply seq_of_range. }
  { unfold Download.typeAck. lia. }
  { vm_compute. discriminate. }
  { reflexivity. }
  cbn [app] in He3 |- *.
  rewrite He3, Ha3. reflexivity.
Qed.

Lemma download_to_prompt_device_witness :
  Download.DownloadAndBoot [xde; x21; x65; x01; x02; x03]
    [comment_line; "S30D100000000001020304050607C6"%string] prompt
  = ([(Download.metanoiaDefaultAddr,
       request 1 (Download.associateRequest [xde; x21; x65; x01; x02; x03]));
      ([xde; x21; x65; x01; x02; x03], request 2 Download.downloadBegin);
      ([xde; x21; x65; x01; x02; x03],
       request 3
         (Download.downloadRecord
            [xa4; xdf; x15; x73; x69; xbe; x2a; xe5;
             xd3; x7d; x57; xcd; xa2; xfd; xad; x9a]));
      ([xde; x21; x65; x01; x02; x03],
       request 4 (Download.downloadEnd 0x02792767))],
     Ok tt).
Proof.
  destruct (download_to_prompt_device [xde; x21; x65; x01; x02; x03]
              comment comment_line [small_record]
              ["S30D100000000001020304050607C6"%string])
    as [H _].
  - cbn. lia.
  - vm_compute. reflexivity.
  - repeat constructor; vm_compute; congruence.
  - apply lines_cons; [vm_compute; reflexivity | apply lines_nil].
  - rewrite H. vm_compute. reflexivity.
Defined.

(** ** A download that is refused or cut short *)

Lemma skipn_repeat_zeros (k n : nat) :
  skipn k (repeat x00 n) = repeat x00 (n - k).
Proof.
  revert n. induction k as [| k IH]; intros [| n]; try reflexivity.
  cbn [skipn repeat Nat.sub]. apply IH.
Qed.

Lemma read_into_fits (frame : list byte) :
  Z.of_nat (length frame) <= 1600 ->
  Bootloader.read_into (repeat x00 1600) frame
  = (frame ++ repeat x00 (1600 - length frame),
     mkSlice frame (repeat x00 (1600 - length frame))).
Proof.
  intros H. unfold Bootloader.read_into. rewrite repeat_length.
  replace (Nat.min (length frame) 1600) with (length frame) by lia.
  rewrite firstn_all, skipn_repeat_zeros, firstn_length_app, skipn_length_app.
  reflexivity.
Qed.

Lemma response_parses (s ty : Z) (p sp : list byte) :
  0 <= s < 2 ^ 16 -> 0 <= ty < 2 ^ 16 ->
  Z.of_nat (length p) <= 1594 ->
  exists sp',
    Bootloader.parseMessage (mkSlice (response s ty p) sp)
    = Ok (Bootloader.mkmessage s ty (mkSlice p sp')).
Proof.
  intros Hs Hty Hp. unfold response, pad46.
  rewrite <- !app_assoc.
  rewrite (parseMessage_frame s ty (Z.of_nat (length p))) by
    (try rewrite length_app; lia).
  rewrite Nat2Z.id, firstn_length_app. eexists. reflexivity.
Qed.

(** X23. The association gate. When the first answer to the
    [AssociateReq] bears the request's sequence number but is not an
    [AssociateRes] with status 0, the download stops there: one frame
    has been written, to the default address, and nothing is ever sent
    to the new address. The result is an error for a wrong type or a
    non-zero status; an answer of the right type with an empty payload
    makes [res.Payload[0]] panic. *)
Theorem refused_association
    (hw : list byte) (lines : list string)
    (envs : nat -> nat -> Bootloader.attempt) (ty : Z) (p : list byte) :
  Z.of_nat (length hw) <= 65519 ->
  0 <= ty < 2 ^ 16 ->
  Z.of_nat (length p) <= 1554 ->
  envs 0%nat 0%nat = Bootloader.Received (response 1 ty p) ->
  ty <> Download.typeAssociateRes \/ hd_error p <> Some x00 ->
  Download.DownloadAndBoot hw lines envs
  = ([(Download.metanoiaDefaultAddr,
       request 1 (Download.associateRequest hw))],
     if negb (ty =? Download.typeAssociateRes) then Err "invalid response"
     else match p with
          | [] => Panic IndexOutOfRange
          | _ :: _ => Err "error status"
          end).
Proof.
  intros Hhw Hty Hp He Hbad.
  unfold Download.DownloadAndBoot, Download.exchange, Bootloader.Exchange,
    Bootloader.MarshalBinary, Bootloader.MaxUint16.
  cbn [Bootloader.Payload Bootloader.Type_ Bootloader.SequenceNumber
       Bootloader.seqNo Bootloader.addr].
  destruct (len (Bootloader.Payload (Download.associateRequest hw)) >? 65535)
    eqn:E.
  { exfalso. revert E. unfold len, Download.associateRequest, exact.
    cbn [Bootloader.Payload elems].
    rewrite !length_app, !length_put_u32, Z.gtb_ltb, Z.ltb_lt. lia. }
  cbn [Bootloader.tries]. rewrite He.
  assert (Hlen : Z.of_nat (length (response 1 ty p)) <= 1600).
  { unfold response. rewrite length_pad46, !length_app.
    cbn [length put_u16]. lia. }
  rewrite (read_into_fits _ Hlen).
  destruct (response_parses 1 ty p
              (repeat x00 (1600 - length (response 1 ty p))))
    as (sp' & ->); try lia.
  cbn [Bootloader.SequenceNumber Z.eqb Pos.eqb negb app map].
  fold (request 1 (Download.associateRequest hw)).
  unfold Download.accepted. cbn [Bootloader.Type_ Bootloader.Payload].
  destruct (ty =? Download.typeAssociateRes) eqn:Et; cbn [negb];
    [| reflexivity].
  destruct p as [| b p']; [reflexivity |].
  replace (at_ (mkSlice (b :: p') sp') 0) with (@Ok byte b)
    by (symmetry; apply (at_nth _ 0); reflexivity).
  cbn [bind].
  destruct (byte_to_Z b =? 0) eqn:Eb; cbn [negb]; [| reflexivity].
  exfalso. apply Z.eqb_eq in Et, Eb.
  destruct Hbad as [Hbad | Hbad]; [exact (Hbad Et) |].
  apply Hbad. cbn [hd_error]. f_equal.
  destruct b; try discriminate Eb. reflexivity.
Qed.

Lemma refused_association_witness :
  Download.DownloadAndBoot [xde; x21; x65; x01; x02; x03] [comment_line]
    (fun _ _ => Bootloader.Received (response 1 Download.typeAssociateRes []))
  = ([(Download.metanoiaDefaultAddr,
       request 1 (Download.associateRequest [xde; x21; x65; x01; x02; x03]))],
     Panic IndexOutOfRange).
Proof.
  apply (refused_association [xde; x21; x65; x01; x02; x03] [comment_line]
           (fun _ _ => Bootloader.Received
                         (response 1 Download.typeAssociateRes []))
           Download.typeAssociateRes []).
  - cbn. lia.
  - unfold Download.typeAssociateRes. lia.
  - cbn. lia.
  - reflexivity.
  - right. discriminate.
Defined.

Lemma frame_type_request (s : Z) (m : Bootloader.message) :
  0 <= Bootloader.Type_ m < 2 ^ 16 ->
  frame_type (request s m) = Bootloader.Type_ m.
Proof.
  intros H. unfold frame_type, request, pad46, put_u16.
  cbn [app skipn firstn].
  change [byte_of_Z (Z.shiftr (Bootloader.Type_ m) 8);
          byte_of_Z (Bootloader.Type_ m)]
    with (put_u16 (Bootloader.Type_ m)).
  rewrite be_value_put_u16. apply Z.mod_small. exact H.
Qed.

Lemma exchange_wire (P : list byte * list byte -> Prop)
    (c c' : Bootloader.conn) (req : Bootloader.message)
    (env : nat -> Bootloader.attempt) (w w' : Download.wire)
    (r : result Bootloader.message) :
  Download.exchange c req env w = (c', w', r) ->
  Forall P w ->
  P (Bootloader.addr c, request (Bootloader.seqNo c) req) ->
  Forall P w' /\ Bootloader.addr c' = Bootloader.addr c.
Proof.
  unfold Download.exchange, Bootloader.Exchange, Bootloader.MarshalBinary.
  cbn [Bootloader.Payload Bootloader.Type_ Bootloader.SequenceNumber].
  fold (request (Bootloader.seqNo c) req).
  intros H Hw Hp.
  destruct (len (Bootloader.Payload req) >? Bootloader.MaxUint16).
  - injection H as <- <- _. cbn [map]. rewrite app_nil_r. auto.
  - destruct (Bootloader.tries 5 0 env (request (Bootloader.seqNo c) req)
                (Bootloader.seqNo c) (repeat x00 1600) [])
      as [sent r0] eqn:Et.
    injection H as <- <- _. split; [| reflexivity].
    apply tries_sent in Et as (k & _ & ->). cbn [app].
    apply Forall_app. split; [exact Hw |].
    apply Forall_forall. intros x Hx. apply in_map_iff in Hx as (f & <- & Hf).
    apply repeat_spec in Hf as ->. exact Hp.
Qed.

Lemma malformed_recordPayload (os : Download.XorStream) (line : string) :
  malformed line ->
  forall v, Download.recordPayload os line <> Ok v.
Proof.
  intros H v. unfold Download.recordPayload.
  destruct (Srec.ParseGeneric line) as [[typ pl] | e | pp] eqn:E;
    try discriminate.
  exfalso. exact (H _ E).
Qed.

Lemma downloadRecords_wire (P : list byte * list byte -> Prop)
    (hw : list byte) (envs : nat -> nat -> Bootloader.attempt)
    (lines : list string) :
  (forall s p, P (hw, request s (Download.downloadRecord p))) ->
  forall (c : Bootloader.conn) (os : Download.XorStream) (k : nat)
         (w : Download.wire) (c' : Bootloader.conn) (k' : nat)
         (w' : Download.wire) (r : result unit),
    Bootloader.addr c = hw ->
    Download.downloadRecords c os lines envs k w = (c', k', w', r) ->
    Forall P w ->
    Forall P w' /\ (Exists malformed lines -> r <> Ok tt).
Proof.
  intros HP.
  induction lines as [| text rest IH]; intros c os k w c' k' w' r Hc H Hw.
  - cbn in H. injection H as _ _ <- <-. split; [exact Hw |].
    intros Hx. inversion Hx.
  - cbn [Download.downloadRecords] in H.
    destruct (Download.recordPayload os text) as [[os' [payload |]] | e | pp]
      eqn:Er.
    + destruct (Download.exchange c (Download.downloadRecord payload)
                  (envs k) w) as [[c1 w1] r1] eqn:Ex.
      assert (H1 : Forall P w1 /\ Bootloader.addr c1 = Bootloader.addr c).
      { refine (exchange_wire P _ _ _ _ _ _ _ Ex Hw _).
        rewrite Hc. apply HP. }
      destruct H1 as [Hw1 Ha].
      destruct (Download.accepted Download.typeAck r1) as [u | e | pp].
      * apply IH in H as [Hw' Hr]; [| congruence | exact Hw1].
        split; [exact Hw' |]. intros Hx. inversion Hx as [? ? Hm | ? ? Hm]; subst.
        -- exfalso. exact (malformed_recordPayload os text Hm _ Er).
        -- exact (Hr Hm).
      * injection H as _ _ <- <-. split; [exact Hw1 | discriminate].
      * injection H as _ _ <- <-. split; [exact Hw1 | discriminate].
    + apply IH in H as [Hw' Hr]; [| exact Hc | exact Hw].
      split; [exact Hw' |]. intros Hx. inversion Hx as [? ? Hm | ? ? Hm]; subst.
      * exfalso. exact (malformed_recordPayload os text Hm _ Er).
      * exact (Hr Hm).
    + injection H as _ _ <- <-. split; [exact Hw | discriminate].
    + injection H as _ _ <- <-. split; [exact Hw | discriminate].
Qed.

(** X24. A firmware file with a line the S-record parser does not
    accept is never reported as downloaded, whatever the device
    answers: [DownloadAndBoot] does not return success, and no
    [DownloadEnd] frame is written to the socket, so the device is
    never told to boot a partial image. (The records before the bad
    line may have been sent.) *)
Theorem malformed_line_aborts
    (hw : list byte) (lines : list string)
    (envs : nat -> nat -> Bootloader.attempt) :
  Exists malformed lines ->
  snd (Download.DownloadAndBoot hw lines envs) <> Ok tt /\
  Forall (fun af => frame_type (snd af) <> Download.typeDownloadEnd)
    (fst (Download.DownloadAndBoot hw lines envs)).
Proof.
  intros Hbad.
  set (P := fun af : list byte * list byte =>
              frame_type (snd af) <> Download.typeDownloadEnd).
  assert (HP : forall a s m,
             0 <= Bootloader.Type_ m < 2 ^ 16 ->
             Bootloader.Type_ m <> Download.typeDownloadEnd ->
             P (a, request s m)).
  { intros a s m Hr Hne. unfold P. cbn [snd].
    rewrite frame_type_request by exact Hr. exact Hne. }
  unfold Download.DownloadAndBoot.
  destruct (Download.exchange _ (Download.associateRequest hw) (envs 0%nat) [])
    as [[c1 w1] r1] eqn:E1.
  assert (Hw1 : Forall P w1).
  { refine (proj1 (exchange_wire P _ _ _ _ _ _ _ E1 _ _)).
    - constructor.
    - apply HP; [cbv; split; [discriminate | reflexivity] | discriminate]. }
  destruct (Download.accepted Download.typeAssociateRes r1) as [u | e | pp];
    cbn [fst snd]; try (split; [discriminate | exact Hw1]).
  destruct (Download.exchange _ Download.downloadBegin (envs 1%nat) w1)
    as [[c2 w2] r2] eqn:E2.
  assert (H2 : Forall P w2 /\ Bootloader.addr c2 = hw).
  { refine (exchange_wire P _ _ _ _ _ _ _ E2 _ _).
    - exact Hw1.
    - apply HP; [cbv; split; [discriminate | reflexivity] | discriminate]. }
  destruct H2 as [Hw2 Ha2].
  destruct (Download.accepted Download.typeAck r2) as [u2 | e | pp];
    cbn [fst snd]; try (split; [discriminate | exact Hw2]).
  destruct (Download.downloadRecords c2 (Download.mkXorStream Download.key 0)
              lines envs 2 w2) as [[[c3 k3] w3] r3] eqn:E3.
  assert (H3 : Forall P w3 /\ (Exists malformed lines -> r3 <> Ok tt)).
  { refine (downloadRecords_wire P hw envs lines _ _ _ _ _ _ _ _ _ Ha2 E3 Hw2).
    intros s p. apply HP; [cbv; split; [discriminate | reflexivity] | discriminate]. }
  destruct H3 as [Hw3 Hr3].
  specialize (Hr3 Hbad).
  destruct r3 as [[] | e | pp]; [contradiction | |];
    cbn [fst snd]; (split; [discriminate | exact Hw3]).
Qed.

Lemma malformed_line_aborts_witness :
  snd (Download.DownloadAndBoot [xde; x21; x65; x01; x02; x03]
         [comment_line; "S30D100000000001020304050607C7"%string] prompt)
  <> Ok tt.
Proof.
  apply (malformed_line_aborts [xde; x21; x65; x01; x02; x03]
           [comment_line; "S30D100000000001020304050607C7"%string] prompt).
  apply Exists_cons_tl. apply Exists_cons_hd.
  intros v. vm_compute. discriminate.
Defined.

(** ** Vendor identifiers *)

Lemma TrimRight_shorter (s : list byte) :
  s <> [] -> Ebm.in_cutset (last s x00) = true ->
  (length (Ebm.TrimRight s) < length s)%nat.
Proof.
  induction s as [| b tl IH]; [congruence |]. intros _ Hl.
  destruct tl as [| c tl'].
  - cbn in Hl. cbn. rewrite Hl. cbn. lia.
  - change (last (b :: c :: tl') x00) with (last (c :: tl') x00) in Hl.
    specialize (IH ltac:(discriminate) Hl).
    change (Ebm.TrimRight (b :: c :: tl'))
      with (match Ebm.TrimRight (c :: tl') with
            | [] => if Ebm.in_cutset b then [] else [b]
            | x :: xs => b :: x :: xs
            end).
    destruct (Ebm.TrimRight (c :: tl')) as [| x xs].
    + destruct (Ebm.in_cutset b); cbn [length] in *; lia.
    + cbn [length] in *. lia.
Qed.

Lemma ParseVendorID_short (vid : list byte) :
  (length vid < 8)%nat -> exists p, Vendor.ParseVendorID vid = Panic p.
Proof.
  intros H.
  destruct vid as [| a [| b [| c [| d [| e [| f [| g [| h tl]]]]]]]];
    try (eexists; reflexivity).
  cbn [length] in H. lia.
Qed.

(** X25. [ParseVendorID] needs eight bytes: on a string of fewer than
    six bytes a slice expression panics, on six or seven bytes the
    read of the last field does; from eight bytes on it returns the
    big-endian country code of bytes 0..1, the provider code of bytes
    2..5 and the big-endian vendor information of bytes 6..7, and
    ignores whatever follows. *)
Theorem ParseVendorID_outcomes (vid : list byte) :
  Vendor.ParseVendorID vid
  = if (length vid <? 6)%nat then Panic SliceBoundsOutOfRange
    else if (length vid <? 8)%nat then Panic IndexOutOfRange
    else Ok (Vendor.mkVendorID
               (be_value 0 (firstn 2 vid))
               (firstn 4 (skipn 2 vid))
               (be_value 0 (firstn 2 (skipn 6 vid)))).
Proof.
  destruct vid as [| a [| b [| c [| d [| e [| f [| g [| h tl]]]]]]]];
    try reflexivity.
  cbn [length Nat.ltb Nat.leb firstn skipn].
  set (vid := a :: b :: c :: d :: e :: f :: g :: h :: tl).
  assert (H1 : sub (mkSlice vid []) 0 2
               = Ok (mkSlice [a; b]
                       ((c :: d :: e :: f :: g :: h :: tl) ++ []))).
  { apply (sub_middle [] [a; b] (c :: d :: e :: f :: g :: h :: tl) [] 0 2);
      reflexivity. }
  assert (H2 : sub (mkSlice vid []) 2 6
               = Ok (mkSlice [c; d; e; f] ((g :: h :: tl) ++ []))).
  { apply (sub_middle [a; b] [c; d; e; f] (g :: h :: tl) [] 2 6);
      reflexivity. }
  assert (H3 : from (mkSlice vid []) 6 = Ok (mkSlice (g :: h :: tl) [])).
  { unfold from, vid.
    replace (mkSlice (a :: b :: c :: d :: e :: f :: g :: h :: tl) [])
      with (mkSlice ([a; b; c; d; e; f] ++ (g :: h :: tl) ++ []) [])
      by (rewrite app_nil_r; reflexivity).
    apply (sub_middle [a; b; c; d; e; f] (g :: h :: tl) [] [] 6);
      [reflexivity |].
    unfold len. cbn [elems]. rewrite !length_app.
    cbn [length]. lia. }
  unfold Vendor.ParseVendorID, exact.
  rewrite H1. cbn [bind elems].
  replace (Uint16 (mkSlice [a; b] [])) with (@Ok Z (be_value 0 [a; b]))
    by reflexivity.
  cbn [bind]. rewrite H2. cbn [bind elems]. rewrite H3. cbn [bind elems].
  unfold Uint16.
  replace (at_ (mkSlice (g :: h :: tl) []) 1) with (@Ok byte h)
    by (symmetry; apply (at_nth _ 1); reflexivity).
  reflexivity.
Qed.

(** X26. Reading the vendor identifier and parsing it do not compose
    when the identifier ends in a zero byte or a space: [ParseOID]
    trims the eight bytes the device returns, and [ParseVendorID]
    panics on the shortened string. *)
Theorem trimmed_vendor_id_panics (v sp : list byte) :
  length v = 8%nat ->
  Ebm.in_cutset (last v x00) = true ->
  exists t p,
    Ebm.ParseOID
      (mkSlice (Ebm.write_oidRequest OidNetworkTerminationVendor ++ v) sp)
    = Ok (Ebm.VString t) /\
    Vendor.ParseVendorID t = Panic p.
Proof.
  intros Hl Hc.
  destruct (ParseVendorID_short (Ebm.TrimRight v)) as [p Hp].
  { pose proof (TrimRight_shorter v) as H.
    assert (v <> []) by (intros ->; discriminate Hl).
    specialize (H ltac:(assumption) Hc). lia. }
  exists (Ebm.TrimRight v), p. split; [| exact Hp].
  rewrite ParseOID_marshalled by (cbv; split; [discriminate | reflexivity]).
  change (Ebm.OType OidNetworkTerminationVendor) with 6.
  change (Ebm.Length OidNetworkTerminationVendor) with 8.
  cbv zeta iota.
  rewrite whole by (rewrite Hl; reflexivity).
  reflexivity.
Qed.

Lemma trimmed_vendor_id_panics_witness :
  exists t p,
    Ebm.ParseOID
      (mkSlice (Ebm.write_oidRequest OidNetworkTerminationVendor
                ++ [xb5; x00; x4d; x45; x54; x41; x00; x00]) [])
    = Ok (Ebm.VString t) /\
    Vendor.ParseVendorID t = Panic p.
Proof.
  apply (trimmed_vendor_id_panics
           [xb5; x00; x4d; x45; x54; x41; x00; x00] []); reflexivity.
Defined.
